(** * realtimefmri: the preprocessing pipeline of [realtimefmri/preprocess.py]

    A shallow embedding of the pipeline engine ([Pipeline.build],
    [Pipeline.process]) and of the statistics steps ([ZScore],
    [ActivityRatio], [IncrementalMeanStd], [RunningMeanStd]), with the
    fragment of Python and numpy these methods rely on.

    - numbers are IEEE 754 binary64 values, computed with the Standard
      Library's [SpecFloat] operations (round to nearest, ties to even);
    - an [ndarray] is a float64 array: a shape and its elements in C order;
    - a Python dict is a [gmap string value]; dict objects live in a
      [store] and are passed by reference, as Python passes them;
    - a method that can raise returns an [outcome]; a method of a stateful
      object returns the outcome together with the object's next state. *)

From stdpp Require Import gmap strings list fin_maps.
From Stdlib Require Import ZArith SpecFloat.

Local Open Scope Z_scope.

(** ** Outcomes of Python calls *)

(** The exceptions that the modelled code can raise. [CustomError] stands for
    an exception raised by a collaborator (a step constructor, [load_class]). *)
Inductive exn : Type :=
  | KeyError (k : string)
  | TypeError
  | ValueError
  | IndexError
  | AttributeError
  | ZeroDivisionError
  | OverflowError
  | StructError
  | CustomError (msg : string).

(** [Ok a]: the call returns [a]. [Raise e]: it raises [e]. [Unmodelled]: the
    arguments lie outside the fragment of Python and numpy that this
    development gives a meaning to (general broadcasting, arrays that are not
    float64, arithmetic on strings and containers). *)
Inductive outcome (A : Type) : Type :=
  | Ok (a : A)
  | Raise (e : exn)
  | Unmodelled.

Arguments Ok {A} a.
Arguments Raise {A} e.
Arguments Unmodelled {A}.

Definition bind {A B : Type} (m : outcome A) (f : A → outcome B) : outcome B :=
  match m with
  | Ok a => f a
  | Raise e => Raise e
  | Unmodelled => Unmodelled
  end.

Notation "'let*' x := m 'in' k" := (bind m (fun x => k))
  (at level 10, x name, m at level 100, k at level 200).

(** ** binary64 arithmetic *)

Module F64.

Definition prec : Z := 53.
Definition emax : Z := 1024.

Definition float : Type := spec_float.

Definition add : float → float → float := SFadd prec emax.
Definition sub : float → float → float := SFsub prec emax.
Definition mul : float → float → float := SFmul prec emax.
Definition div : float → float → float := SFdiv prec emax.
Definition sqrt : float → float := SFsqrt prec emax.

(** The correctly rounded binary64 value of an integer. *)
Definition of_Z (z : Z) : float := binary_normalize prec emax z 0 false.

Definition zero : float := S754_zero false.
Definition one : float := Eval vm_compute in of_Z 1.
Definition nan : float := S754_nan.

Definition is_nan (x : float) : bool :=
  match x with S754_nan => true | _ => false end.

Definition is_zero (x : float) : bool :=
  match x with S754_zero _ => true | _ => false end.

Definition is_inf (x : float) : bool :=
  match x with S754_infinity _ => true | _ => false end.

(** [numpy.isfinite]: neither an infinity nor not-a-number. *)
Definition is_finite (x : float) : bool :=
  match x with
  | S754_zero _ | S754_finite _ _ _ => true
  | S754_infinity _ | S754_nan => false
  end.

End F64.

Abbreviation float := F64.float.

(** ** numpy arrays *)

(** A float64 [ndarray]: its [shape] and its elements in C (row-major)
    order, which is also what [ravel()] returns. *)
Record ndarray : Type := mk_ndarray {
  shape : list nat;
  data : list float
}.

(** [a.size]: the product of the dimensions. *)
Definition size (a : ndarray) : nat := foldr Nat.mul 1%nat (shape a).

(** An array holds exactly [size] elements. *)
Definition wf_ndarray (a : ndarray) : Prop := length (data a) = size a.

Definition ravel (a : ndarray) : list float := data a.

(** [v.reshape(s)] of a flat vector [v]: [ValueError] unless the sizes agree. *)
Definition reshape (v : list float) (s : list nat) : outcome ndarray :=
  if Nat.eqb (length v) (foldr Nat.mul 1%nat s)
  then Ok (mk_ndarray s v)
  else Raise ValueError.

(** [np.zeros(n)] and [np.ones(n)]: vectors of length [n]. *)
Definition np_zeros (n : nat) : ndarray := mk_ndarray [n] (replicate n F64.zero).
Definition np_ones (n : nat) : ndarray := mk_ndarray [n] (replicate n F64.one).

(** [np.zeros_like(a)]: zeros in the shape of [a]. *)
Definition np_zeros_like (a : ndarray) : ndarray :=
  mk_ndarray (shape a) (replicate (size a) F64.zero).

(** ** Python values *)

(** [VFloat] is a Python [float], [VNpFloat] a numpy [float64] scalar (what a
    full reduction such as [np.nanmean(x)] returns): they hold the same
    numbers but divide by zero differently. *)
#[warnings="-register-all"]
Inductive value : Type :=
  | VNone
  | VInt (z : Z)
  | VFloat (f : float)
  | VNpFloat (f : float)
  | VStr (s : string)
  | VArray (a : ndarray)
  | VTuple (vs : list value)
  | VList (vs : list value).

(** The numpy objects, seen through the attributes [shape], [size] and
    [ravel()] that an [ndarray] and a numpy scalar both have. A numpy scalar
    has shape [()]. *)
Definition as_ndarray (v : value) : option ndarray :=
  match v with
  | VArray a => Some a
  | VNpFloat f => Some (mk_ndarray [] [f])
  | _ => None
  end.

(** A ufunc returns a numpy scalar, not a 0-d array, when its result has
    shape [()]. *)
Definition ufunc_result (a : ndarray) : value :=
  match shape a, data a with
  | [], [x] => VNpFloat x
  | _, _ => VArray a
  end.

(** ** Python and numpy arithmetic *)

(** [float(z)] for a Python [int]: correctly rounded, [OverflowError] when
    the integer is too large for a binary64. *)
Definition float_of_int (z : Z) : outcome float :=
  let f := F64.of_Z z in
  if F64.is_inf f then Raise OverflowError else Ok f.

(** An integer as an exact, not normalised, floating-point number. *)
Definition exact_of_Z (z : Z) : float :=
  match z with
  | Z0 => S754_zero false
  | Zpos p => S754_finite false p 0
  | Zneg p => S754_finite true p 0
  end.

(** [a / b] on two Python [int]s: the correctly rounded quotient of the
    integers themselves. *)
Definition int_truediv (a b : Z) : outcome float :=
  if Z.eqb b 0 then Raise ZeroDivisionError
  else
    let q := F64.div (exact_of_Z a) (exact_of_Z b) in
    if F64.is_inf q then Raise OverflowError else Ok q.

(** [x / y] on two Python [float]s: a zero divisor raises. *)
Definition float_truediv (x y : float) : outcome float :=
  if F64.is_zero y then Raise ZeroDivisionError else Ok (F64.div x y).

(** An operand of a numpy ufunc. *)
Inductive np_operand : Type :=
  | NpScalar (f : float)
  | NpArray (a : ndarray).

(** A Python [int] enters numpy arithmetic as an [int64] that is then cast
    to [float64]; larger integers are outside the model. *)
Definition to_np_operand (v : value) : outcome np_operand :=
  match v with
  | VInt z =>
      if Z.leb (- 2 ^ 63) z && Z.ltb z (2 ^ 63) then Ok (NpScalar (F64.of_Z z))
      else Unmodelled
  | VFloat f | VNpFloat f => Ok (NpScalar f)
  | VArray a => Ok (NpArray a)
  | _ => Unmodelled
  end.

(** A binary ufunc. Arrays of one shape combine element by element, a scalar
    is broadcast over an array; other pairs of shapes need numpy's general
    broadcasting, which is outside the model. No ufunc raises on a zero
    divisor: numpy only warns. *)
Definition np_binop (op : float → float → float) (x y : value) : outcome value :=
  let* a := to_np_operand x in
  let* b := to_np_operand y in
  match a, b with
  | NpScalar f, NpScalar g => Ok (VNpFloat (op f g))
  | NpArray a, NpScalar g =>
      Ok (ufunc_result (mk_ndarray (shape a) (map (λ f, op f g) (data a))))
  | NpScalar f, NpArray b =>
      Ok (ufunc_result (mk_ndarray (shape b) (map (λ g, op f g) (data b))))
  | NpArray a, NpArray b =>
      if decide (shape a = shape b)
      then Ok (ufunc_result (mk_ndarray (shape a) (zip_with op (data a) (data b))))
      else Unmodelled
  end.

Definition is_numpy (v : value) : bool :=
  match v with VNpFloat _ | VArray _ => true | _ => false end.

(** [x + y] and [x - y]: Python's own arithmetic on [int] and [float], numpy's
    as soon as one operand is a numpy object. *)
Definition py_arith (iop : Z → Z → Z) (fop : float → float → float)
    (x y : value) : outcome value :=
  match x, y with
  | VInt a, VInt b => Ok (VInt (iop a b))
  | VInt a, VFloat g => let* f := float_of_int a in Ok (VFloat (fop f g))
  | VFloat f, VInt b => let* g := float_of_int b in Ok (VFloat (fop f g))
  | VFloat f, VFloat g => Ok (VFloat (fop f g))
  | _, _ => if is_numpy x || is_numpy y then np_binop fop x y else Unmodelled
  end.

Definition py_add : value → value → outcome value := py_arith Z.add F64.add.
Definition py_sub : value → value → outcome value := py_arith Z.sub F64.sub.

(** [x / y]: two Python numbers raise [ZeroDivisionError] on a zero divisor;
    numpy returns an infinity or not-a-number instead. *)
Definition py_truediv (x y : value) : outcome value :=
  match x, y with
  | VInt a, VInt b => let* q := int_truediv a b in Ok (VFloat q)
  | VInt a, VFloat g =>
      let* f := float_of_int a in let* q := float_truediv f g in Ok (VFloat q)
  | VFloat f, VInt b =>
      let* g := float_of_int b in let* q := float_truediv f g in Ok (VFloat q)
  | VFloat f, VFloat g => let* q := float_truediv f g in Ok (VFloat q)
  | _, _ => if is_numpy x || is_numpy y then np_binop F64.div x y else Unmodelled
  end.

(** [x < y]. [None] is ordered with nothing: comparing it raises [TypeError].
    Integers and floats compare by value (the integers of magnitude up to
    2^53 are exactly representable); the other pairs are outside the model. *)
Definition py_lt (x y : value) : outcome bool :=
  let flt (f g : float) : outcome bool := Ok (SFltb f g) in
  let exact (z : Z) : outcome float :=
    if Z.leb (Z.abs z) (2 ^ 53) then Ok (F64.of_Z z) else Unmodelled in
  match x, y with
  | VNone, VArray _ | VArray _, VNone => Unmodelled
  | VNone, _ | _, VNone => Raise TypeError
  | VInt a, VInt b => Ok (Z.ltb a b)
  | VInt a, (VFloat g | VNpFloat g) => let* f := exact a in flt f g
  | (VFloat f | VNpFloat f), VInt b => let* g := exact b in flt f g
  | (VFloat f | VNpFloat f), (VFloat g | VNpFloat g) => flt f g
  | _, _ => Unmodelled
  end.

(** ** numpy reductions *)

(** [np.add.reduce] over a vector: the accumulator starts at the identity
    [0.0] and the elements are added in order. (numpy adds the elements of a
    contiguous vector of eight or more elements pairwise; this changes the
    rounding of a sum, not which elements enter it.) *)
Definition np_sum (xs : list float) : float := fold_left F64.add xs F64.zero.

(** The count of a reduction, as the float64 the sum is divided by. *)
Definition np_count (n : nat) : float := F64.of_Z (Z.of_nat n).

(** [np.mean] and [np.std] (population, [ddof = 0]) of a vector: numpy's
    [_mean] and [_var]: the sum over the count; the root of the mean of the
    squared deviations from that mean. *)
Definition np_mean (xs : list float) : float :=
  F64.div (np_sum xs) (np_count (length xs)).

Definition sq_dev (m x : float) : float :=
  let d := F64.sub x m in F64.mul d d.

Definition np_std (xs : list float) : float :=
  let m := np_mean xs in
  F64.sqrt (F64.div (np_sum (map (sq_dev m) xs)) (np_count (length xs))).

(** numpy's [_replace_nan(a, 0)]. *)
Definition replace_nan (xs : list float) : list float :=
  map (λ x, if F64.is_nan x then F64.zero else x) xs.

Definition count_not_nan (xs : list float) : nat :=
  length (filter (λ x, F64.is_nan x = false) xs).

(** [np.nanmean]: not-a-number entries are replaced by zero for the sum and
    left out of the count. *)
Definition np_nanmean (xs : list float) : float :=
  F64.div (np_sum (replace_nan xs)) (np_count (count_not_nan xs)).

(** [np.nanstd] ([_nanvar] with [ddof = 0], then the root): the deviations of
    the not-a-number entries are set to zero, the count leaves them out, and
    a slice without any number gives not-a-number. *)
Definition np_nanstd (xs : list float) : float :=
  let avg := np_nanmean xs in
  let sqr := map (λ x, if F64.is_nan x then F64.zero else sq_dev avg x) xs in
  let var := F64.div (np_sum sqr) (np_count (count_not_nan xs)) in
  F64.sqrt (if Nat.eqb (count_not_nan xs) 0 then F64.nan else var).

(** ** ZScore *)

Module ZScore.

(** [np.zeros_like(array)] of line 743: an array of zeros for a numpy
    array; of a Python [float], the 0-d array [array(0.)]. *)
Definition zeros_like (v : value) : outcome value :=
  match v with
  | VArray a => Ok (VArray (np_zeros_like a))
  | VNpFloat _ | VFloat _ => Ok (VArray (mk_ndarray [] [F64.zero]))
  | _ => Unmodelled
  end.

(** [ZScore.run(self, array, mean, std)]; the step has no state. *)
Definition run (args : list value) : outcome value :=
  match args with
  | [array; mean; std] =>
      match mean with
      | VNone => zeros_like array
      | _ => let* d := py_sub array mean in py_truediv d std
      end
  | _ => Raise TypeError
  end.

End ZScore.

(** ** ActivityRatio *)

Module ActivityRatio.

(** [if isinstance(x, np.ndarray): x = np.nanmean(x)]: the mean over all
    the elements, a numpy scalar. *)
Definition reduce (x : value) : value :=
  match x with
  | VArray a => VNpFloat (np_nanmean (data a))
  | _ => x
  end.

(** [ActivityRatio.run(self, x1, x2)]; the step has no state. *)
Definition run (args : list value) : outcome value :=
  match args with
  | [x1; x2] =>
      let x1 := reduce x1 in
      let x2 := reduce x2 in
      let* s := py_add x1 x2 in
      py_truediv x1 s
  | _ => Raise TypeError
  end.

End ActivityRatio.

(** ** Reductions along the first axis of a 2-d array *)

(** A 2-d array is the list of its rows. [column rows j] is [rows[:, j]]. *)
Definition column (rows : list (list float)) (j : nat) : list float :=
  omap (λ r : list float, r !! j) rows.

(** [f(rows, 0)] for a reduction [f]: one result per column, a vector of
    the width of the rows. numpy accumulates row after row, which is the
    order of [np_sum] on each column. *)
Definition reduce0 (f : list float → float) (w : nat) (rows : list (list float))
    : list float :=
  map (λ j, f (column rows j)) (seq 0 w).

(** ** BufferedArray *)

Module BufferedArray.

(** Modelled from the spec: [buffered_array.BufferedArray], a module that
    [preprocess.py] imports and whose source is missing. "[append(vector)]
    stores a flattened copy; [get_array()] returns all stored vectors stacked
    in arrival order." The constructor receives the length of the vectors
    (line 664); a vector of another length does not fit a row of the buffer,
    which is modelled as a [ValueError] that leaves the buffer as it was. *)
Record t : Type := mk { width : nat; rows : list (list float) }.

(** Modelled from the spec: [BufferedArray(size, dtype)], an empty buffer for
    vectors of [size] elements. *)
Definition new (size : nat) : t := mk size [].

(** Modelled from the spec: [append(vector)] "stores a flattened copy", after
    the vectors stored before. *)
Definition append (b : t) (v : list float) : outcome t :=
  if Nat.eqb (length v) (width b)
  then Ok (mk (width b) (rows b ++ [v]))
  else Raise ValueError.

(** Modelled from the spec: [get_array()] "returns all stored vectors stacked
    in arrival order". *)
Definition get_array (b : t) : list (list float) := rows b.

End BufferedArray.

(** ** IncrementalMeanStd *)

Module IncrementalMeanStd.

(** The attributes that [run] sets on the instance; [None] is an attribute
    that does not exist ([hasattr] is false). *)
Record t : Type := mk {
  array_shape : option (list nat);
  data : option BufferedArray.t
}.

(** A new instance: [PreprocessingStep.__init__] sets neither attribute. *)
Definition new : t := mk None None.

(** Lines 670-673: the statistics over the whole buffer, in the first
    sample's shape. *)
Definition statistics (self : t) (b : BufferedArray.t) : outcome value :=
  let std := reduce0 np_std (BufferedArray.width b) (BufferedArray.get_array b) in
  let mean := reduce0 np_mean (BufferedArray.width b) (BufferedArray.get_array b) in
  match array_shape self with
  | None => Raise AttributeError
  | Some s =>
      let* m := reshape mean s in
      let* d := reshape std s in
      Ok (VTuple [VArray m; VArray d])
  end.

(** [IncrementalMeanStd.run(self, array)]. *)
Definition run (self : t) (args : list value) : outcome value * t :=
  match args with
  | [array] =>
      match as_ndarray array with
      | None => (Raise AttributeError, self)
      | Some a =>
          match data self with
          | None =>
              let b := BufferedArray.new (size a) in
              match BufferedArray.append b (ravel a) with
              | Ok b' => (Ok (VTuple [VNone; VNone]), mk (Some (shape a)) (Some b'))
              | Raise e => (Raise e, mk (Some (shape a)) (Some b))
              | Unmodelled => (Unmodelled, mk (Some (shape a)) (Some b))
              end
          | Some b =>
              match BufferedArray.append b (ravel a) with
              | Ok b' =>
                  let self' := mk (array_shape self) (Some b') in
                  (statistics self' b', self')
              | Raise e => (Raise e, self)
              | Unmodelled => (Unmodelled, self)
              end
          end
      end
  | _ => (Raise TypeError, self)
  end.

(** [reset]: [del self.data]. *)
Definition reset (self : t) : outcome unit * t :=
  match data self with
  | None => (Raise AttributeError, self)
  | Some _ => (Ok (), mk (array_shape self) None)
  end.

End IncrementalMeanStd.

(** ** RunningMeanStd *)

Module RunningMeanStd.

Record t : Type := mk {
  n : value;
  n_skip : value;
  mean : option (list float);
  samples : option (list (list float));
  std : option (list float)
}.

(** [__init__] with the parameters [n=20, n_skip=5] followed by the
    variadic ones, called with the step's [args] and [kwargs]: the first
    two positional arguments are [n] and [n_skip]; naming one of them again
    by keyword is a [TypeError]. *)
Definition init (args : list value) (kwargs : gmap string value) : outcome t :=
  let new (a b : value) := Ok (mk a b None None None) in
  let kw (k : string) (dflt : value) := default dflt (kwargs !! k) in
  match args with
  | [] => new (kw "n" (VInt 20)) (kw "n_skip" (VInt 5))
  | [a] =>
      match kwargs !! "n" with
      | Some _ => Raise TypeError
      | None => new a (kw "n_skip" (VInt 5))
      end
  | a :: b :: _ =>
      match kwargs !! "n", kwargs !! "n_skip" with
      | None, None => new a b
      | _, _ => Raise TypeError
      end
  end%string.

(** [np.empty((self.n, size)) * np.nan]: [n] rows of not-a-number. *)
Definition empty_window (n : value) (size : nat) : outcome (list (list float)) :=
  match n with
  | VInt z =>
      if Z.ltb z 0 then Raise ValueError
      else Ok (replicate (Z.to_nat z) (replicate size F64.nan))
  | _ => Raise TypeError
  end.

(** [samples[:-1, :] = samples[1:, :]]: every row but the last takes the
    row after it; the last row stays until it is overwritten. *)
Definition shift (rows : list (list float)) : list (list float) :=
  match last rows with
  | None => rows
  | Some r => drop 1 rows ++ [r]
  end.

Fixpoint strip_ones (s : list nat) : list nat :=
  match s with
  | 1%nat :: s' => strip_ones s'
  | _ => s
  end.

(** The value [inp] as a row of width [w], by the broadcasting of an
    assignment: leading dimensions of length one are dropped; what is left
    is a single element, repeated, or a vector of length [w]. *)
Definition as_row (w : nat) (inp : value) : outcome (list float) :=
  match inp with
  | VArray a =>
      match strip_ones (shape a), ravel a with
      | [], [x] => Ok (replicate w x)
      | [d], v => if Nat.eqb d w then Ok v else Raise ValueError
      | _, _ => Raise ValueError
      end
  | VFloat f | VNpFloat f => Ok (replicate w f)
  | VInt z =>
      if Z.leb (- 2 ^ 63) z && Z.ltb z (2 ^ 63) then Ok (replicate w (F64.of_Z z))
      else Unmodelled
  | VNone => Raise TypeError
  | _ => Unmodelled
  end.

(** [samples[-1, :] = inp]. *)
Definition set_last (rows : list (list float)) (inp : value)
    : outcome (list (list float)) :=
  match last rows with
  | None => Raise IndexError
  | Some r =>
      let* v := as_row (length r) inp in
      Ok (take (length rows - 1) rows ++ [v])
  end.

Definition width (rows : list (list float)) : nat :=
  match last rows with Some r => length r | None => 0%nat end.

(** Lines 722-730, once the frame is not skipped. *)
Definition update (self : t) (inp : value) : outcome value * t :=
  let prepared : outcome (list (list float)) :=
    match mean self with
    | None =>
        match as_ndarray inp with
        | None => Raise AttributeError
        | Some a => empty_window (n self) (size a)
        end
    | Some _ =>
        match samples self with
        | None => Raise TypeError
        | Some rows => Ok (shift rows)
        end
    end in
  match prepared with
  | Ok rows =>
      match set_last rows inp with
      | Ok rows' =>
          let m := reduce0 np_nanmean (width rows') rows' in
          let s := reduce0 np_nanstd (width rows') rows' in
          (Ok (VTuple [VArray (mk_ndarray [length m] m);
                       VArray (mk_ndarray [length s] s)]),
           mk (n self) (n_skip self) (Some m) (Some rows') (Some s))
      | Raise e =>
          (Raise e, mk (n self) (n_skip self) (mean self) (Some rows) (std self))
      | Unmodelled =>
          (Unmodelled, mk (n self) (n_skip self) (mean self) (Some rows) (std self))
      end
  | Raise e => (Raise e, self)
  | Unmodelled => (Unmodelled, self)
  end.

(** The window that a call finds: the stored samples or, as long as no
    mean has been computed, the [n] slots of not-a-number that the call
    creates, for samples of [size] elements. *)
Definition window (self : t) (size : nat) : outcome (list (list float)) :=
  match mean self with
  | None => empty_window (n self) size
  | Some _ =>
      match samples self with
      | None => Raise TypeError
      | Some rows => Ok rows
      end
  end.

(** [RunningMeanStd.run(self, inp, image_number=None)]. *)
Definition run (self : t) (args : list value) : outcome value * t :=
  let body (inp image_number : value) : outcome value * t :=
    match py_lt image_number (n_skip self) with
    | Ok true =>
        match as_ndarray inp with
        | None => (Raise AttributeError, self)
        | Some a =>
            (Ok (VTuple [VArray (np_zeros (size a)); VArray (np_ones (size a))]),
             self)
        end
    | Ok false => update self inp
    | Raise e => (Raise e, self)
    | Unmodelled => (Unmodelled, self)
    end in
  match args with
  | [inp] => body inp VNone
  | [inp; image_number] => body inp image_number
  | _ => (Raise TypeError, self)
  end.

End RunningMeanStd.

(** ** Dict objects and the store *)

(** Python passes a dict by reference. A [loc] names a dict object, the
    [store] gives the contents of each; a [loc] without an entry in the store
    names no dict, which is outside the model. *)
Abbreviation dict := (gmap string value).
Abbreviation loc := positive.
Abbreviation store := (gmap loc (gmap string value)).

(** [d[k]]. *)
Definition dict_getitem (d : dict) (k : string) : outcome value :=
  match d !! k with
  | Some v => Ok v
  | None => Raise (KeyError k)
  end.

(** [dict(zip(keys, values))]: pairs by position, up to the shorter of the
    two; a key that occurs twice keeps its later value. *)
Definition dict_of_zip (keys : list string) (values : list value) : dict :=
  fold_left (λ (m : dict) (kv : string * value), <[kv.1 := kv.2]> m)
    (zip keys values) ∅.

(** [d.update(e)]: the entries of [e] are written over those of [d]. *)
Definition dict_update (d e : dict) : dict := e ∪ d.

(** ** Step instances *)

(** An object with a [run] method: its state, and the method as a function
    of the state and the positional arguments. *)
Record Instance : Type := mk_Instance {
  state : Type;
  self : state;
  run_method : state → list value → outcome value * state
}.

(** [instance.run] on the inputs: the result, and the instance after the call. *)
Definition invoke (i : Instance) (inputs : list value) : outcome value * Instance :=
  let '(r, s) := run_method i (self i) inputs in
  (r, mk_Instance (state i) s (run_method i)).

(** The classes of this file whose [run] is modelled above. *)
Definition ZScore_instance : Instance :=
  mk_Instance unit () (λ s args, (ZScore.run args, s)).

Definition ActivityRatio_instance : Instance :=
  mk_Instance unit () (λ s args, (ActivityRatio.run args, s)).

Definition IncrementalMeanStd_instance (s : IncrementalMeanStd.t) : Instance :=
  mk_Instance IncrementalMeanStd.t s IncrementalMeanStd.run.

Definition RunningMeanStd_instance (s : RunningMeanStd.t) : Instance :=
  mk_Instance RunningMeanStd.t s RunningMeanStd.run.

(** A class, as what calling it with positional and keyword arguments gives. *)
Definition pyclass : Type := list value → dict → outcome Instance.

Definition ZScore_class : pyclass := λ _ _, Ok ZScore_instance.
Definition ActivityRatio_class : pyclass := λ _ _, Ok ActivityRatio_instance.
Definition IncrementalMeanStd_class : pyclass :=
  λ _ _, Ok (IncrementalMeanStd_instance IncrementalMeanStd.new).
Definition RunningMeanStd_class : pyclass :=
  λ args kwargs,
    let* s := RunningMeanStd.init args kwargs in Ok (RunningMeanStd_instance s).

(** ** Pipeline *)

(** The configuration of a step: a dict with the keys [name] and
    [class_name], and the optional keys [args], [kwargs], [input] and
    [output]. [kwargs] is itself a dict object. *)
Record step_spec : Type := mk_step_spec {
  name : string;
  class_name : string;
  args : option (list value);
  kwargs : option loc;
  input : option (list string);
  output : option (list string)
}.

(** A step of a built pipeline: its configuration with the key [instance]. *)
Record step : Type := mk_step {
  spec : step_spec;
  instance : Instance
}.

(** The attributes of a [Pipeline] object; [None] is an attribute that has
    not been set. *)
Record Pipeline : Type := mk_Pipeline {
  recording_id : string;
  static_pipeline : option (list step);
  pipeline : option (list step);
  global_parameters : option loc
}.

Section Build.

(** [pipeline_utils.load_class], a module that [preprocess.py] imports and
    whose source is missing: it resolves a class name to a class, or
    raises. *)
Variable load_class : string → outcome pyclass.

(** Lines 135-136 and 147-148, for [kwargs] a dict object at [l]:
    [for k, v in global_parameters.items(): kwargs[k] = kwargs.get(k, v)].
    The loop goes over the items of the global parameters and writes into
    the dict at [l], which may be the dict of the global parameters itself. *)
Definition setdefault_at (l : loc) (h : store) (kv : string * value) : store :=
  match h !! l with
  | Some d => <[l := <[kv.1 := default kv.2 (d !! kv.1)]> d]> h
  | None => h
  end.

Definition merge_at (g l : loc) (h : store) : outcome (dict * store) :=
  match h !! g, h !! l with
  | Some gp, Some _ =>
      let h' := fold_left (setdefault_at l) (map_to_list gp) h in
      match h' !! l with
      | Some d => Ok (d, h')
      | None => Unmodelled
      end
  | _, _ => Unmodelled
  end.

(** The same loop for a step without [kwargs]: the default [{}] of
    [step.get] is a new dict that nothing else refers to. *)
Definition merge_fresh (g : loc) (h : store) : outcome (dict * store) :=
  match h !! g with
  | Some gp =>
      Ok (fold_left (λ (d : dict) (kv : string * value),
                       <[kv.1 := default kv.2 (d !! kv.1)]> d)
            (map_to_list gp) ∅, h)
  | None => Unmodelled
  end.

Definition merge_kwargs (g : loc) (kw : option loc) (h : store)
    : outcome (dict * store) :=
  match kw with
  | Some l => merge_at g l h
  | None => merge_fresh g h
  end.

(** The body of the two loops of [build]: merge the global parameters into
    the keyword arguments, load the class, call it. *)
Definition construct (g : loc) (sp : step_spec) (h : store) : outcome step * store :=
  match merge_kwargs g (kwargs sp) h with
  | Ok (kw, h') =>
      (let* cls := load_class (class_name sp) in
       let* i := cls (default [] (args sp)) kw in
       Ok (mk_step sp i), h')
  | Raise e => (Raise e, h)
  | Unmodelled => (Unmodelled, h)
  end.

(** A loop of [build]: the steps are constructed in order and appended to
    the list [acc]; when one raises, the list holds those built so far. *)
Fixpoint construct_all (g : loc) (specs : list step_spec) (acc : list step)
    (h : store) : outcome unit * list step * store :=
  match specs with
  | [] => (Ok (), acc, h)
  | sp :: specs' =>
      match construct g sp h with
      | (Ok st, h') => construct_all g specs' (acc ++ [st]) h'
      | (Raise e, h') => (Raise e, acc, h')
      | (Unmodelled, h') => (Unmodelled, acc, h')
      end
  end.

(** [Pipeline.build(self, pipeline, static_pipeline, global_parameters)]. *)
Definition build (self : Pipeline) (pipeline_spec static_spec : list step_spec)
    (g : loc) (h : store) : outcome unit * Pipeline * store :=
  match construct_all g static_spec [] h with
  | (Ok _, static, h1) =>
      match construct_all g pipeline_spec [] h1 with
      | (Ok _, steps, h2) =>
          (Ok (), mk_Pipeline (recording_id self) (Some static) (Some steps) (Some g), h2)
      | (r, steps, h2) =>
          (r, mk_Pipeline (recording_id self) (Some static) (Some steps)
                (global_parameters self), h2)
      end
  | (r, static, h1) =>
      (r, mk_Pipeline (recording_id self) (Some static) (pipeline self)
            (global_parameters self), h1)
  end.

(** [Pipeline.register(self)] (lines 230-238) writes the class name and the
    parameters of every step of [self.pipeline] to the redis database and
    notes the keys in attributes that nothing else reads: it changes neither
    the steps nor a dict, and returns, or raises what the redis client or the
    pickling of a parameter raises. *)
Variable register : Pipeline → outcome unit.

(** [Pipeline(pipeline, global_parameters, static_pipeline, recording_id)]:
    [__init__] on a new object (lines 112-118): [build], then [register].
    The caller receives the object only when [__init__] returns; when it
    raises, nothing refers to the object any more. [now] is the clock
    reading that names a recording without an identifier. *)
Definition Pipeline_new (pipeline_spec : list step_spec) (g : loc)
    (static_spec : list step_spec) (rid : option string) (now : string)
    (h : store) : outcome Pipeline * store :=
  let rid := default ("recording_" +:+ now)%string rid in
  let self := mk_Pipeline rid None None None in
  match build self pipeline_spec static_spec g h with
  | (Ok _, self', h') => (let* _ := register self' in Ok self', h')
  | (Raise e, _, h') => (Raise e, h')
  | (Unmodelled, _, h') => (Unmodelled, h')
  end.

End Build.

(** ** Pipeline.process *)

(** [struct.pack('i', v)]: [v] must be an integer that fits 32 signed bits.
    For a value that is not an [int], [struct] calls its [__index__] when the
    type has one and lets its exception through: an array has one, which
    raises [TypeError] for a float64 array; the other values have none, which
    is a [struct.error]. *)
Definition struct_pack_i (v : value) : outcome unit :=
  match v with
  | VInt z =>
      if Z.leb (- 2 ^ 31) z && Z.ltb z (2 ^ 31) then Ok () else Raise StructError
  | VArray _ => Raise TypeError
  | _ => Raise StructError
  end.

(** [[data_dict[k] for k in keys]]: the first absent key raises. *)
Fixpoint lookup_inputs (d : dict) (keys : list string) : outcome (list value) :=
  match keys with
  | [] => Ok []
  | k :: keys' =>
      let* v := dict_getitem d k in
      let* vs := lookup_inputs d keys' in
      Ok (v :: vs)
  end.

(** Lines 206-207: a result that is neither a list nor a tuple becomes a
    list of one element. *)
Definition normalize (outp : value) : list value :=
  match outp with
  | VList vs | VTuple vs => vs
  | _ => [outp]
  end.

(** Lines 209-210 on the contents of the frame. *)
Definition merge_outputs (sp : step_spec) (outp : value) (d : dict) : dict :=
  dict_update d (dict_of_zip (default [] (output sp)) (normalize outp)).

(** The body of the loop of [process], on the frame at [l]. *)
Definition process_step (st : step) (l : loc) (h : store)
    : outcome unit * step * store :=
  match h !! l with
  | None => (Unmodelled, st, h)
  | Some d =>
      let inputs :=
        match input (spec st) with
        | None => Raise (KeyError "input")
        | Some keys => lookup_inputs d keys
        end in
      match inputs with
      | Ok vs =>
          let '(r, i) := invoke (instance st) vs in
          let st' := mk_step (spec st) i in
          match r with
          | Ok outp => (Ok (), st', <[l := merge_outputs (spec st) outp d]> h)
          | Raise e => (Raise e, st', h)
          | Unmodelled => (Unmodelled, st', h)
          end
      | Raise e => (Raise e, st, h)
      | Unmodelled => (Unmodelled, st, h)
      end
  end.

(** The loop of [process]: the steps in order, each on the frame as the
    steps before it left it; the first exception ends the loop. *)
Fixpoint process_steps (steps : list step) (l : loc) (h : store)
    : outcome unit * list step * store :=
  match steps with
  | [] => (Ok (), [], h)
  | st :: steps' =>
      match process_step st l h with
      | (Ok _, st', h') =>
          let '(r, steps'', h'') := process_steps steps' l h' in
          (r, st' :: steps'', h'')
      | (r, st', h') => (r, st' :: steps', h')
      end
  end.

(** Line 197: [struct.pack('i', data_dict['image_number'])]. *)
Definition pack_image_number (d : dict) : outcome unit :=
  let* v := dict_getitem d "image_number" in struct_pack_i v.

(** [Pipeline.process(self, data_dict)], with [data_dict] the dict at [l].
    The result is the reference that [return data_dict] hands back, the
    pipeline with the states of its step instances after the call, and the
    store. *)
Definition process (self : Pipeline) (l : loc) (h : store)
    : outcome loc * Pipeline * store :=
  match h !! l with
  | None => (Unmodelled, self, h)
  | Some d =>
      match pack_image_number d with
      | Ok _ =>
          match pipeline self with
          | None => (Raise AttributeError, self, h)
          | Some steps =>
              let '(r, steps', h') := process_steps steps l h in
              (let* _ := r in Ok l,
               mk_Pipeline (recording_id self) (static_pipeline self) (Some steps')
                 (global_parameters self),
               h')
          end
      | Raise e => (Raise e, self, h)
      | Unmodelled => (Unmodelled, self, h)
      end
  end.

(** ** Helpers for stating the properties *)

(** [isinstance(v, np.ndarray)]. *)
Definition is_ndarray (v : value) : bool :=
  match v with VArray _ => true | _ => false end.

(** A method called several times in a row: the results of the calls in
    order, and the state after the last. *)
Fixpoint run_calls {S : Type} (run : S → list value → outcome value * S)
    (self : S) (calls : list (list value)) : list (outcome value) * S :=
  match calls with
  | [] => ([], self)
  | c :: calls' =>
      let '(r, self') := run self c in
      let '(rs, self'') := run_calls run self' calls' in
      (r :: rs, self'')
  end.

(** A vector without not-a-number entries. *)
Definition nan_free (v : list float) : Prop :=
  Forall (λ x, F64.is_nan x = false) v.

(** The vector [np.array(l, dtype=float)] of some integers. *)
Definition vector (l : list Z) : ndarray :=
  mk_ndarray [length l] (map F64.of_Z l).

(** The number that an operand of [ActivityRatio.run] stands for in the
    ratio: the mean of an array ignoring not-a-number entries, a scalar
    itself. *)
Definition ratio_operand (x : value) : option float :=
  match x with
  | VArray a => Some (np_nanmean (data a))
  | VFloat f | VNpFloat f => Some f
  | VInt z =>
      if Z.leb (- 2 ^ 63) z && Z.ltb z (2 ^ 63) then Some (F64.of_Z z) else None
  | _ => None
  end.

(** The rows of a 2-d array: all of one width. *)
Definition rows_of_width (w : nat) (rows : list (list float)) : Prop :=
  Forall (λ r : list float, length r = w) rows.

(** The last [n] elements of a list (all of it when it is shorter). *)
Definition last_n {A : Type} (n : nat) (l : list A) : list A :=
  drop (length l - n) l.

(** The neutral pair [(zeros, ones)] for samples of [w] elements. *)
Definition running_neutral (w : nat) : value :=
  VTuple [VArray (np_zeros w); VArray (np_ones w)].

(** The plain mean and standard deviation of the columns of [win]. *)
Definition running_statistics (w : nat) (win : list (list float)) : value :=
  VTuple [VArray (mk_ndarray [w] (reduce0 np_mean w win));
          VArray (mk_ndarray [w] (reduce0 np_std w win))].

(** What [RunningMeanStd] is specified to return: "maintains a fixed window
    of the last [n] samples. While the external frame index is [< n_skip],
    returns a neutral pair [(zeros, ones)] without touching the window.
    Otherwise shifts the window left by one (discard oldest), inserts the new
    sample last, and recomputes mean/standard-deviation ignoring
    not-a-number slots": for the calls [(sample, image_number)] in order,
    after the samples [hist] that entered the window so far, the statistics
    being the plain ones over the samples in the window. *)
Fixpoint running_spec (n : nat) (n_skip : Z) (w : nat) (hist : list (list float))
    (calls : list (list float * Z)) : list (outcome value) :=
  match calls with
  | [] => []
  | (v, i) :: calls' =>
      if Z.ltb i n_skip
      then Ok (running_neutral w) :: running_spec n n_skip w hist calls'
      else Ok (running_statistics w (last_n n (hist ++ [v])))
           :: running_spec n n_skip w (hist ++ [v]) calls'
  end.

(** The arguments of the call [run(sample, image_number)] for a vector. *)
Definition running_call (w : nat) (c : list float * Z) : list value :=
  [VArray (mk_ndarray [w] c.1); VInt c.2].

(** The state of an instance whose window has taken in the samples [hist]. *)
Definition running_inv (n : nat) (k : Z) (w : nat) (self : RunningMeanStd.t)
    (hist : list (list float)) : Prop :=
  RunningMeanStd.n self = VInt (Z.of_nat n)
  ∧ RunningMeanStd.n_skip self = VInt k
  ∧ RunningMeanStd.window self w
    = Ok (last_n n (replicate n (replicate w F64.nan) ++ hist)).


(** What [IncrementalMeanStd] is specified to return: "first call [...]
    returns [(None, None)]. Every later call appends the new flattened
    sample, then recomputes population mean and standard deviation over the
    entire historical buffer, reshaped back to the original frame shape":
    for the arrays of the calls in order, after the flattened samples [hist],
    with [sh] and [w] the shape and the size of the first array. *)
Definition incremental_statistics (sh : list nat) (w : nat)
    (hist : list (list float)) : value :=
  VTuple [VArray (mk_ndarray sh (reduce0 np_mean w hist));
          VArray (mk_ndarray sh (reduce0 np_std w hist))].

Fixpoint incremental_spec (sh : list nat) (w : nat) (hist : list (list float))
    (arrays : list ndarray) : list (outcome value) :=
  match arrays with
  | [] => []
  | a :: arrays' =>
      Ok (match hist with
          | [] => VTuple [VNone; VNone]
          | _ => incremental_statistics sh w (hist ++ [ravel a])
          end)
      :: incremental_spec sh w (hist ++ [ravel a]) arrays'
  end.

(** [isinstance(v, (list, tuple))]. *)
Definition is_list_or_tuple (v : value) : bool :=
  match v with VList _ | VTuple _ => true | _ => false end.

(** A [ZScore] step that reads [x], [mean] and [std] and writes [z], and a
    step whose instance returns three integers, for the examples. *)
Definition zscore_step : step :=
  mk_step
    (mk_step_spec "zscore" "realtimefmri.preprocess.ZScore" None None
       (Some ["x"; "mean"; "std"]) (Some ["z"]))%string
    ZScore_instance.

Definition three_values : Instance :=
  mk_Instance unit () (λ s _, (Ok (VTuple [VInt 1; VInt 2; VInt 3]), s)).

Definition three_values_step (keys : list string) : step :=
  mk_step
    (mk_step_spec "three" "three_values" None None (Some ["image_number"]) (Some keys))%string
    three_values.

Definition example_frame : dict :=
  <["image_number" := VInt 0]>
    (<["x" := VArray (vector [5])]>
       (<["mean" := VNone]> (<["std" := VNone]> ∅)))%string.

(** A step that reads a key no step writes, and a pipeline of the two. *)
Definition needy_step : step :=
  mk_step
    (mk_step_spec "needy" "realtimefmri.preprocess.ActivityRatio" None None
       (Some ["z"; "absent"]) (Some ["ratio"]))%string
    ActivityRatio_instance.

Definition example_pipeline : Pipeline :=
  mk_Pipeline "recording" (Some []) (Some [zscore_step; needy_step]) None.

(** [step.get('kwargs', {})]: the contents of the step's keyword arguments
    before [build] merges the global parameters into them. *)
Definition step_kwargs (sp : step_spec) (h : store) : option dict :=
  match kwargs sp with
  | None => Some ∅
  | Some l => h !! l
  end.

(** A registry for the examples: the classes of this file by their
    qualified names; any other name fails to load. *)
Definition example_load_class (nm : string) : outcome pyclass :=
  if String.eqb nm "realtimefmri.preprocess.ZScore" then Ok ZScore_class
  else if String.eqb nm "realtimefmri.preprocess.ActivityRatio" then Ok ActivityRatio_class
  else if String.eqb nm "realtimefmri.preprocess.IncrementalMeanStd"
       then Ok IncrementalMeanStd_class
  else if String.eqb nm "realtimefmri.preprocess.RunningMeanStd"
       then Ok RunningMeanStd_class
  else Raise (CustomError ("no class " +:+ nm)).

(** A store with the global parameters at 1 and the keyword arguments of a
    step at 2, and the configuration of three steps. *)
Definition example_store : store :=
  <[1%positive := <["n_skip" := VInt 2]> (<["surface" := VStr "S1"]> ∅)]>
    (<[2%positive := <["n_skip" := VInt 7]> (<["n" := VInt 3]> ∅)]> ∅).

Definition running_spec_step : step_spec :=
  mk_step_spec "running" "realtimefmri.preprocess.RunningMeanStd" None
    (Some 2%positive) (Some ["x"; "image_number"]) (Some ["mean"; "std"]).

Definition zscore_spec_step : step_spec :=
  mk_step_spec "zscore" "realtimefmri.preprocess.ZScore" None None
    (Some ["x"; "mean"; "std"]) (Some ["z"]).

Definition unknown_spec_step : step_spec :=
  mk_step_spec "unknown" "realtimefmri.preprocess.Missing" None None
    (Some ["z"]) (Some ["y"]).

(** What [build] does to the dicts of a store, for the global parameters
    [gp]: every dict is as it was, or has taken the entries of [gp] at the
    keys that it lacked. *)
Definition merged_store (gp : dict) (h h' : store) : Prop :=
  ∀ l, h' !! l = h !! l ∨ ∃ d, h !! l = Some d ∧ h' !! l = Some (d ∪ gp).

(** The step [st] is what the configuration [sp] is built into, from the
    store [h] and the global parameters [gp]: the configuration with, as its
    instance, what the class of that name returned for the positional
    arguments of the step and for its keyword arguments [kw0] merged with the
    global parameters, [kw0 ∪ gp]: at a key of [kw0] the value of [kw0], at
    any other key the value of [gp]. *)
Definition built_step (load_class : string → outcome pyclass) (gp : dict)
    (h : store) (sp : step_spec) (st : step) : Prop :=
  spec st = sp
  ∧ ∃ (kw0 : dict) (cls : pyclass),
      step_kwargs sp h = Some kw0
      ∧ load_class (class_name sp) = Ok cls
      ∧ cls (default [] (args sp)) (kw0 ∪ gp) = Ok (instance st).

(** ** Helpers for the further properties *)

(** The samples of the calls [(sample, image_number)] that are not skipped,
    in the order of the calls. *)
Fixpoint kept_samples (n_skip : Z) (calls : list (list float * Z))
    : list (list float) :=
  match calls with
  | [] => []
  | (v, i) :: calls' =>
      if Z.ltb i n_skip then kept_samples n_skip calls'
      else v :: kept_samples n_skip calls'
  end.

(** An [IncrementalMeanStd] step that reads [x] and writes [mean] and [std],
    and the pipeline of this step and of the [ZScore] step that reads the
    three, [s] being the state of the [IncrementalMeanStd] instance. *)
Definition statistics_step (s : IncrementalMeanStd.t) : step :=
  mk_step
    (mk_step_spec "statistics" "realtimefmri.preprocess.IncrementalMeanStd" None None
       (Some ["x"]) (Some ["mean"; "std"]))%string
    (IncrementalMeanStd_instance s).

Definition zscore_pipeline (s : IncrementalMeanStd.t) : Pipeline :=
  mk_Pipeline "recording" (Some []) (Some [statistics_step s; zscore_step]) None.

(** ** The collector and the preprocessing loop

    [collect.collect] and the loop of [preprocess.preprocess] talk through
    redis: the collector publishes on the channel [timestamped_volume], the
    loop listens to it. *)

(** What [pickle.loads] returns: a value, or a dict. *)
Inductive unpickled : Type :=
  | UValue (v : value)
  | UDict (d : dict).

(** The data of an event of a redis subscription: an integer (the number of
    subscriptions, in the confirmation of a subscription), or bytes, which
    are kept as what they encode: the text that they decode to, or the object
    that they are the pickle of. *)
Inductive message_data : Type :=
  | DInt (n : Z)
  | DText (s : string)
  | DPickle (p : unpickled).

(** An event that [listen()] yields: its [type] and its [data]. *)
Record message : Type := Message {
  msg_type : string;
  msg_data : message_data
}.

(** [message['type'] == 'message']. *)
Definition is_message (m : message) : bool := String.eqb (msg_type m) "message".

Module Collect.

(** The part of the redis database that [collect] works on: the list
    [timestamp], its left end first, and what has been published on the
    channel [timestamped_volume], in order. *)
Record redis : Type := mk_redis {
  timestamp : list (list Byte.byte);
  timestamped_volume : list unpickled
}.

(** [rpop]: the element at the right end, [None] for an empty list, and the
    list without it. *)
Definition rpop (l : list (list Byte.byte))
    : option (list Byte.byte) * list (list Byte.byte) :=
  (last l, removelast l).

(** [message['data'].decode('utf8')]. *)
Definition decode (d : message_data) : outcome string :=
  match d with
  | DText s => Ok s
  | DInt _ => Raise AttributeError
  | DPickle _ => Unmodelled
  end.

Section Collect.

(** [dicom_to_nifti] runs the converter [dcm2niix] on the file at a path and
    loads its result: the image, or the exception of the converter or of the
    loader. [unpack_d] is the double that eight bytes encode in the byte order
    of the machine. *)
Variable dicom_to_nifti : string → outcome value.
Variable unpack_d : list Byte.byte → float.

(** [struct.unpack('d', timestamp)[0]]. *)
Definition struct_unpack_d (b : option (list Byte.byte)) : outcome float :=
  match b with
  | None => Raise TypeError
  | Some bs => if Nat.eqb (length bs) 8 then Ok (unpack_d bs) else Raise StructError
  end.

(** The body of the loop of [collect] (lines 53-64), logging left out. *)
Definition collect_message (image_number : Z) (m : message) (r : redis)
    : outcome unit * redis :=
  if is_message m then
    match decode (msg_data m) with
    | Ok new_volume_path =>
        let '(ts, rest) := rpop (timestamp r) in
        let r1 := mk_redis rest (timestamped_volume r) in
        match struct_unpack_d ts with
        | Ok t =>
            match dicom_to_nifti new_volume_path with
            | Ok nii =>
                (Ok (),
                 mk_redis rest
                   (timestamped_volume r
                    ++ [UValue (VList [VInt image_number; VFloat t; nii])]))
            | Raise e => (Raise e, r1)
            | Unmodelled => (Unmodelled, r1)
            end
        | Raise e => (Raise e, r1)
        | Unmodelled => (Unmodelled, r1)
        end
    | Raise e => (Raise e, r)
    | Unmodelled => (Unmodelled, r)
    end
  else (Ok (), r).

(** The loop over [enumerate(volume_subscriber.listen())], from the count
    [image_number] on, for the events that arrive; the first exception ends
    it. *)
Fixpoint collect_from (image_number : Z) (events : list message) (r : redis)
    : outcome unit * redis :=
  match events with
  | [] => (Ok (), r)
  | m :: events' =>
      match collect_message image_number m r with
      | (Ok _, r') => collect_from (image_number + 1) events' r'
      | (res, r') => (res, r')
      end
  end.

(** [collect()], on the events that its subscription yields. *)
Definition collect (events : list message) (r : redis) : outcome unit * redis :=
  collect_from 0 events r.

End Collect.

End Collect.

(** [timestamped_volume[k]] for a string [k]: the entry of a dict; a list, a
    tuple, a string and a number take no string as an index. *)
Definition getitem_str (p : unpickled) (k : string) : outcome value :=
  match p with
  | UDict d => dict_getitem d k
  | UValue (VArray _) | UValue (VNpFloat _) => Raise IndexError
  | UValue _ => Raise TypeError
  end.

(** The body of the loop of [preprocess] (lines 59-67) on one event, for the
    pipeline [pl]: the dict that is given to [process] is a new one. *)
Definition preprocess_message (pl : Pipeline) (h : store) (m : message)
    : outcome unit * Pipeline * store :=
  if is_message m then
    match msg_data m with
    | DInt 1 => (Ok (), pl, h)
    | DInt _ => (Raise TypeError, pl, h)
    | DText _ => (Unmodelled, pl, h)
    | DPickle timestamped_volume =>
        match (let* _ := getitem_str timestamped_volume "image_number" in
               let* i := getitem_str timestamped_volume "image_number" in
               let* v := getitem_str timestamped_volume "volume" in
               Ok (i, v)) with
        | Ok (i, v) =>
            let l := fresh (dom h) in
            let data_dict : dict :=
              <["raw_image_nii" := v]> (<["image_number" := i]> ∅) in
            let '(res, pl', h') := process pl l (<[l := data_dict]> h) in
            (let* _ := res in Ok (), pl', h')
        | Raise e => (Raise e, pl, h)
        | Unmodelled => (Unmodelled, pl, h)
        end
    end
  else (Ok (), pl, h).

(** The loop of [preprocess] over the events of its subscription. *)
Fixpoint preprocess_loop (pl : Pipeline) (h : store) (events : list message)
    : outcome unit * Pipeline * store :=
  match events with
  | [] => (Ok (), pl, h)
  | m :: events' =>
      match preprocess_message pl h m with
      | (Ok _, pl', h') => preprocess_loop pl' h' events'
      | res => res
      end
  end.

(** The events that a subscriber of [timestamped_volume] receives when the
    payloads [ps] are published: the confirmation of its subscription, then
    one event for each payload. *)
Definition volume_events (ps : list unpickled) : list message :=
  Message "subscribe" (DInt 1) :: map (λ p, Message "message" (DPickle p)) ps.

(** ** ArrayMean *)

(** [tuple(v)]: the elements of a tuple or a list, the characters of a
    string, the elements of a vector as numpy scalars, the sub-arrays of an
    array of more dimensions along its first; [None], a number and a 0-d array
    are not iterable. *)
Definition py_tuple (v : value) : outcome (list value) :=
  match v with
  | VTuple vs | VList vs => Ok vs
  | VStr s => Ok (map (λ c, VStr (String c EmptyString)) (String.list_ascii_of_string s))
  | VArray a =>
      match shape a with
      | [] => Raise TypeError
      | [_] => Ok (map VNpFloat (data a))
      | n :: rest =>
          let w := foldr Nat.mul 1%nat rest in
          Ok (map (λ i, VArray (mk_ndarray rest (take w (drop (i * w) (data a)))))
                (seq 0 n))
      end
  | VNone | VInt _ | VFloat _ | VNpFloat _ => Raise TypeError
  end.

Module ArrayMean.

(** The attributes that [__init__] sets. *)
Record t : Type := mk {
  _parameters : dict;
  dimensions : value
}.

(** [ArrayMean.__init__(self, dimensions, **kwargs)] (lines 460-464): the
    instance, when the constructor returns. *)
Definition init (dims : value) (kwargs : dict) : outcome t :=
  let parameters := dict_update (<["dimensions" := dims]> ∅) kwargs in
  let* ds := py_tuple dims in
  Ok (mk parameters (VTuple ds)).

(** The call of the class with positional and keyword arguments:
    [dimensions] is the first positional argument or the keyword of that
    name, and must be given once. *)
Definition new (args : list value) (kwargs : dict) : outcome t :=
  match args, kwargs !! "dimensions" with
  | dims :: _, None => init dims kwargs
  | [], Some dims => init dims (delete "dimensions" kwargs)
  | _, _ => Raise TypeError
  end.

Section Run.

(** [np.mean(array)] and [np.mean(array, axis=dimensions)]: numpy's
    reductions, whose order of summation this development does not fix. *)
Variable np_mean_all : value → outcome value.
Variable np_mean_axis : value → value → outcome value.

(** [ArrayMean.run(self, array)] (lines 466-476). *)
Definition run (self : t) (args : list value) : outcome value * t :=
  match args with
  | [array] =>
      match dimensions self with
      | VNone => (np_mean_all array, self)
      | dims => (np_mean_axis array dims, self)
      end
  | _ => (Raise TypeError, self)
  end.

End Run.

End ArrayMean.

(** * Properties *)

(** ** Arithmetic *)

Lemma div_zero_not_finite (x y : float) :
  F64.is_zero y = true → F64.is_finite (F64.div x y) = false.
Proof. destruct y; try discriminate. intros _. by destruct x. Qed.

Lemma as_ndarray_ufunc_result (a : ndarray) : as_ndarray (ufunc_result a) = Some a.
Proof.
  destruct a as [sh d]. unfold ufunc_result; simpl.
  destruct sh; [|done]. destruct d as [|x [|y d]]; done.
Qed.

Lemma wf_scalar_shape (a : ndarray) :
  wf_ndarray a → shape a = [] → ∃ x, data a = [x].
Proof.
  unfold wf_ndarray, size. intros Hwf Hs. rewrite Hs in Hwf. simpl in Hwf.
  destruct (data a) as [|x [|y d]]; try discriminate. by exists x.
Qed.

(** Python's operators are numpy's as soon as the left operand is a numpy
    object. *)
Lemma py_arith_numpy iop fop (x y : value) :
  is_numpy x = true → py_arith iop fop x y = np_binop fop x y.
Proof. destruct x; try discriminate; intros _; by destruct y. Qed.

Lemma py_truediv_numpy (x y : value) :
  is_numpy x = true → py_truediv x y = np_binop F64.div x y.
Proof. destruct x; try discriminate; intros _; by destruct y. Qed.

Lemma is_numpy_as_ndarray (x : value) (a : ndarray) :
  as_ndarray x = Some a → is_numpy x = true.
Proof. by destruct x. Qed.

(** Two numpy objects of one shape combine element by element. *)
Lemma np_binop_same_shape op (x y : value) (a b : ndarray) :
  as_ndarray x = Some a → as_ndarray y = Some b →
  wf_ndarray a → wf_ndarray b → shape a = shape b →
  np_binop op x y = Ok (ufunc_result (mk_ndarray (shape a) (zip_with op (data a) (data b)))).
Proof.
  intros Hx Hy Ha Hb Hs.
  destruct x; try discriminate; destruct y; try discriminate;
    simpl in Hx, Hy; simplify_eq; simpl in *.
  - done.
  - unfold np_binop; simpl.
    destruct (wf_scalar_shape b Hb (eq_sym Hs)) as [y ->]. by rewrite <- Hs.
  - unfold np_binop; simpl.
    destruct (wf_scalar_shape a Ha Hs) as [x ->]. by rewrite Hs.
  - unfold np_binop; simpl. by rewrite decide_True.
Qed.

(** ** ZScore *)

(** C7. [ZScore.run(array, mean, std)] on an array: when [mean] is [None]
    the result is an array of zeros in the shape of [array], whatever [std]
    is; when [mean] and [std] are arrays of that shape the result has that
    shape and holds [(array[i] - mean[i]) / std[i]] at every index [i], and
    where [std[i]] is zero that quotient is an infinity or not-a-number, the
    division being the plain binary64 one. [ZScore([5], None, None)] is [[0]]
    and [ZScore([5], [3], [2])] is [[1.0]]. *)
Theorem ZScore_run_spec (array mean std : ndarray) :
  wf_ndarray array → wf_ndarray mean → wf_ndarray std →
  shape mean = shape array → shape std = shape array →
  (∀ v, ZScore.run [VArray array; VNone; v] = Ok (VArray (np_zeros_like array)))
  ∧ shape (np_zeros_like array) = shape array
  ∧ wf_ndarray (np_zeros_like array)
  ∧ (∀ i x, data (np_zeros_like array) !! i = Some x → x = F64.zero)
  ∧ (∃ r z,
       ZScore.run [VArray array; VArray mean; VArray std] = Ok r
       ∧ as_ndarray r = Some z
       ∧ shape z = shape array
       ∧ wf_ndarray z
       ∧ (∀ i x m s,
            data array !! i = Some x → data mean !! i = Some m →
            data std !! i = Some s →
            data z !! i = Some (F64.div (F64.sub x m) s)
            ∧ (F64.is_zero s = true →
               F64.is_finite (F64.div (F64.sub x m) s) = false)))
  ∧ ZScore.run [VArray (vector [5]); VNone; VNone] = Ok (VArray (vector [0]))
  ∧ ZScore.run [VArray (vector [5]); VArray (vector [3]); VArray (vector [2])]
    = Ok (VArray (vector [1])).
Proof.
  intros Ha Hm Hs Hsm Hss.
  split; [done|]. split; [done|].
  split; [unfold wf_ndarray, np_zeros_like; simpl; by rewrite length_replicate|].
  split.
  { intros i x Hx. simpl in Hx. apply lookup_replicate_1 in Hx. tauto. }
  split; [|split; by vm_compute].
  set (d := mk_ndarray (shape array) (zip_with F64.sub (data array) (data mean))).
  set (z := mk_ndarray (shape array) (zip_with F64.div (data d) (data std))).
  assert (Hd : wf_ndarray d).
  { unfold wf_ndarray, d, size in *; simpl. rewrite length_zip_with.
    rewrite Hm, Ha, Hsm. lia. }
  exists (ufunc_result z), z. split; [|split; [|split; [|split]]].
  - unfold ZScore.run, py_sub. rewrite py_arith_numpy by done.
    rewrite (np_binop_same_shape _ _ _ array mean) by done.
    fold d. simpl. rewrite py_truediv_numpy
      by (eapply is_numpy_as_ndarray, as_ndarray_ufunc_result).
    rewrite (np_binop_same_shape _ _ _ d std); try done.
    apply as_ndarray_ufunc_result.
  - apply as_ndarray_ufunc_result.
  - done.
  - unfold wf_ndarray in *. unfold z, d; simpl. rewrite !length_zip_with.
    rewrite Ha, Hm, Hs. unfold size; simpl. rewrite Hsm, Hss. lia.
  - intros i x m s Hx Hmu Hsd. split; [|apply div_zero_not_finite].
    unfold z, d; simpl. rewrite !lookup_zip_with, Hx, Hmu, Hsd. done.
Qed.

Lemma ZScore_run_spec_witness :
  ∃ r z,
    ZScore.run [VArray (vector [5; 7]); VArray (vector [3; 7]); VArray (vector [2; 0])]
    = Ok r
    ∧ as_ndarray r = Some z
    ∧ shape z = [2%nat].
Proof.
  destruct (ZScore_run_spec (vector [5; 7]) (vector [3; 7]) (vector [2; 0]))
    as (_ & _ & _ & _ & (r & z & H1 & H2 & H3 & _) & _); [reflexivity..|].
  exists r, z. auto.
Defined.

(** ** ActivityRatio *)

(** The ratio of two operands of which one at least is a numpy object. *)
Lemma ratio_numpy (x1 x2 : value) (m1 m2 : float) :
  ratio_operand x1 = Some m1 → ratio_operand x2 = Some m2 →
  is_numpy x1 || is_numpy x2 = true →
  ActivityRatio.run [x1; x2] = Ok (VNpFloat (F64.div m1 (F64.add m1 m2))).
Proof.
  intros H1 H2 Hn.
  destruct x1; try discriminate; destruct x2; try discriminate;
    simpl in H1, H2, Hn; try discriminate;
    unfold ActivityRatio.run, ActivityRatio.reduce, py_add, py_arith,
      py_truediv, np_binop, to_np_operand; simpl;
    repeat match goal with
      | H : (if ?c then _ else _) = Some _ |- _ => destruct c; [|discriminate]
      end;
    simplify_eq; reflexivity.
Qed.

(** C8, as the code has it. [ActivityRatio.run(x1, x2)], for operands that
    are arrays or numbers: each array is replaced by its mean ignoring
    not-a-number entries, and the result is [x1 / (x1 + x2)].
    - When at least one operand is a numpy object (an array or a numpy
      scalar), the result is the numpy scalar of that quotient, and when
      [x1 + x2] is zero nothing is raised: the result is that quotient, an
      infinity or not-a-number.
    - Two Python floats give the Python float of that quotient when their
      sum is not zero, and raise [ZeroDivisionError] when it is.
    - Two Python ints give the correctly rounded quotient of the integers
      when their sum is not zero ([OverflowError] when it is too large for a
      float), and raise [ZeroDivisionError] when it is.
    - A Python int with a Python float is converted to a float first
      ([OverflowError] when it is too large), and the two behave as two
      Python floats. *)
Theorem ActivityRatio_run_spec (x1 x2 : value) (m1 m2 : float) :
  ratio_operand x1 = Some m1 → ratio_operand x2 = Some m2 →
  (is_numpy x1 || is_numpy x2 = true →
   ActivityRatio.run [x1; x2] = Ok (VNpFloat (F64.div m1 (F64.add m1 m2))))
  ∧ (F64.is_zero (F64.add m1 m2) = true →
     F64.is_finite (F64.div m1 (F64.add m1 m2)) = false)
  ∧ (∀ f g,
       ActivityRatio.run [VFloat f; VFloat g]
       = if F64.is_zero (F64.add f g) then Raise ZeroDivisionError
         else Ok (VFloat (F64.div f (F64.add f g))))
  ∧ (∀ a b,
       ActivityRatio.run [VInt a; VInt b]
       = if Z.eqb (a + b) 0 then Raise ZeroDivisionError
         else
           let q := F64.div (exact_of_Z a) (exact_of_Z (a + b)) in
           if F64.is_inf q then Raise OverflowError else Ok (VFloat q))
  ∧ (∀ a g,
       ActivityRatio.run [VInt a; VFloat g]
       = let* f := float_of_int a in
         if F64.is_zero (F64.add f g) then Raise ZeroDivisionError
         else Ok (VFloat (F64.div f (F64.add f g))))
  ∧ (∀ f b,
       ActivityRatio.run [VFloat f; VInt b]
       = let* g := float_of_int b in
         if F64.is_zero (F64.add f g) then Raise ZeroDivisionError
         else Ok (VFloat (F64.div f (F64.add f g)))).
Proof.
  intros H1 H2. split; [intros Hn; by apply ratio_numpy|].
  split; [apply div_zero_not_finite|].
  split; [|split; [|split]].
  - intros f g. unfold ActivityRatio.run; simpl. unfold float_truediv.
    by destruct (F64.is_zero (F64.add f g)).
  - intros a b. unfold ActivityRatio.run; simpl. unfold int_truediv.
    destruct (Z.eqb (a + b) 0); [done|]. simpl.
    by destruct (F64.is_inf _).
  - intros a g. unfold ActivityRatio.run; simpl.
    destruct (float_of_int a) as [f|e|]; [|done..]. simpl.
    unfold float_truediv. by destruct (F64.is_zero (F64.add f g)).
  - intros f b. unfold ActivityRatio.run; simpl.
    destruct (float_of_int b) as [g|e|]; [|done..]. simpl.
    unfold float_truediv. by destruct (F64.is_zero (F64.add f g)).
Qed.

Lemma ActivityRatio_run_spec_witness :
  ActivityRatio.run [VArray (vector [1; 3]); VArray (vector [-2; -2])]
  = Ok (VNpFloat (S754_infinity false))
  ∧ ActivityRatio.run [VFloat (F64.of_Z 1); VFloat (F64.of_Z 3)]
    = Ok (VFloat (F64.div (F64.of_Z 1) (F64.of_Z 4)))
  ∧ ActivityRatio.run [VInt 0; VInt 0] = Raise ZeroDivisionError.
Proof.
  destruct (ActivityRatio_run_spec (VArray (vector [1; 3])) (VArray (vector [-2; -2]))
              (F64.of_Z 2) (F64.of_Z (-2))) as (H & _ & Hf & Hi & _);
    [reflexivity..|].
  split; [exact (H eq_refl)|]. split; [exact (Hf _ _)|exact (Hi 0 0)].
Defined.

(** C8 as the specification words it fails on two Python numbers whose sum
    is zero, floats or ints: the division raises. *)
Lemma ActivityRatio_run_python_floats :
  py_add (VFloat (F64.of_Z 1)) (VFloat (F64.of_Z (-1))) = Ok (VFloat F64.zero)
  ∧ ActivityRatio.run [VFloat (F64.of_Z 1); VFloat (F64.of_Z (-1))]
    = Raise ZeroDivisionError
  ∧ ActivityRatio.run [VInt 0; VInt 0] = Raise ZeroDivisionError.
Proof. repeat split; reflexivity. Qed.

(** ** RunningMeanStd *)

(** C10. [image_number] defaults to [None], so [run(inp)] is
    [run(inp, None)]; the comparison [None < self.n_skip] of line 719 raises
    [TypeError] whatever [inp] is, and the instance is left as it was. (For
    [n_skip] any value but an array, whose comparison with [None] is outside
    the model; [n_skip] is an integer in every configuration.) *)
Theorem RunningMeanStd_run_default_image_number
    (self : RunningMeanStd.t) (inp : value) :
  is_ndarray (RunningMeanStd.n_skip self) = false →
  RunningMeanStd.run self [inp] = RunningMeanStd.run self [inp; VNone]
  ∧ py_lt VNone (RunningMeanStd.n_skip self) = Raise TypeError
  ∧ RunningMeanStd.run self [inp] = (Raise TypeError, self).
Proof.
  intros Hn. split; [done|].
  assert (H : py_lt VNone (RunningMeanStd.n_skip self) = Raise TypeError).
  { destruct (RunningMeanStd.n_skip self); try done. }
  split; [done|]. unfold RunningMeanStd.run. by rewrite H.
Qed.

Lemma RunningMeanStd_run_default_image_number_witness :
  ∃ self,
    RunningMeanStd.init [] ∅ = Ok self
    ∧ RunningMeanStd.run self [VArray (vector [1; 2; 3])] = (Raise TypeError, self).
Proof.
  exists (RunningMeanStd.mk (VInt 20) (VInt 5) None None None).
  split; [reflexivity|].
  apply (RunningMeanStd_run_default_image_number
           (RunningMeanStd.mk (VInt 20) (VInt 5) None None None)
           (VArray (vector [1; 2; 3]))).
  reflexivity.
Defined.

(** *** Reductions that ignore not-a-number *)

Lemma np_sum_zeros_app (j : nat) (xs : list float) :
  np_sum (replicate j F64.zero ++ xs) = np_sum xs.
Proof.
  unfold np_sum. rewrite fold_left_app. f_equal.
  induction j as [|j IH]; [done|]. exact IH.
Qed.

Lemma replace_nan_nan_free (xs : list float) :
  nan_free xs → replace_nan xs = xs.
Proof.
  induction 1 as [|x xs Hx _ IH]; [done|].
  unfold replace_nan in *; simpl. rewrite Hx. by f_equal.
Qed.

Lemma replace_nan_padded (j : nat) (xs : list float) :
  nan_free xs →
  replace_nan (replicate j F64.nan ++ xs) = replicate j F64.zero ++ xs.
Proof.
  intros Hxs. induction j as [|j IH]; simpl.
  - by apply replace_nan_nan_free.
  - unfold replace_nan in *; simpl. by f_equal.
Qed.

Lemma count_not_nan_nan_free (xs : list float) :
  nan_free xs → count_not_nan xs = length xs.
Proof.
  unfold count_not_nan.
  induction 1 as [|x xs Hx _ IH]; [done|].
  rewrite filter_cons_True by done. simpl. by f_equal.
Qed.

Lemma count_not_nan_padded (j : nat) (xs : list float) :
  nan_free xs → count_not_nan (replicate j F64.nan ++ xs) = length xs.
Proof.
  intros Hxs. induction j as [|j IH]; simpl.
  - by apply count_not_nan_nan_free.
  - unfold count_not_nan in *. by rewrite filter_cons_False.
Qed.

(** The mean that ignores not-a-number, over a window whose unfilled slots
    come first, is the mean of the samples. *)
Lemma np_nanmean_padded (j : nat) (xs : list float) :
  nan_free xs → np_nanmean (replicate j F64.nan ++ xs) = np_mean xs.
Proof.
  intros Hxs. unfold np_nanmean, np_mean.
  by rewrite replace_nan_padded, np_sum_zeros_app, count_not_nan_padded.
Qed.

Lemma np_nanstd_padded (j : nat) (xs : list float) :
  nan_free xs → xs ≠ [] → np_nanstd (replicate j F64.nan ++ xs) = np_std xs.
Proof.
  intros Hxs Hne. unfold np_nanstd, np_std.
  rewrite np_nanmean_padded, count_not_nan_padded by done.
  destruct (Nat.eqb_spec (length xs) 0) as [H0|_].
  { destruct xs; [done|discriminate]. }
  do 2 f_equal. rewrite map_app.
  replace (map _ (replicate j F64.nan)) with (replicate j F64.zero).
  2:{ clear. induction j as [|j IH]; [done|]. simpl. by f_equal. }
  rewrite np_sum_zeros_app. f_equal.
  generalize (np_mean xs) as m. intros m.
  clear Hne. induction Hxs as [|x xs Hx _ IH]; [done|].
  simpl. rewrite Hx. by f_equal.
Qed.

(** *** Columns *)

Lemma column_app (r1 r2 : list (list float)) (c : nat) :
  column (r1 ++ r2) c = column r1 c ++ column r2 c.
Proof. unfold column. apply omap_app. Qed.

Lemma column_padding (j w c : nat) :
  (c < w)%nat → column (replicate j (replicate w F64.nan)) c = replicate j F64.nan.
Proof.
  intros Hc. induction j as [|j IH]; [done|].
  unfold column in *; simpl. rewrite lookup_replicate_2 by done. simpl.
  by f_equal.
Qed.

Lemma column_length (w c : nat) (rows : list (list float)) :
  rows_of_width w rows → (c < w)%nat → length (column rows c) = length rows.
Proof.
  intros Hrows Hc. induction Hrows as [|r rows Hr _ IH]; [done|].
  unfold column in *; simpl.
  destruct (lookup_lt_is_Some_2 r c) as [x Hx]; [lia|].
  rewrite Hx. simpl. by f_equal.
Qed.

Lemma column_nan_free (rows : list (list float)) (c : nat) :
  Forall nan_free rows → nan_free (column rows c).
Proof.
  induction 1 as [|r rows Hr _ IH]; [constructor|].
  unfold column in *; simpl. destruct (r !! c) as [x|] eqn:Hx; [|done].
  simpl. constructor; [|done].
  unfold nan_free in Hr. rewrite Forall_lookup in Hr. by eapply Hr.
Qed.

Lemma reduce0_ext (f g : list float → float) (w : nat) (rows : list (list float))
    (rows' : list (list float)) :
  (∀ c, (c < w)%nat → f (column rows c) = g (column rows' c)) →
  reduce0 f w rows = reduce0 g w rows'.
Proof.
  intros H. unfold reduce0. apply map_ext_in. intros c Hc.
  apply in_seq in Hc. apply H. lia.
Qed.

Lemma reduce0_length (f : list float → float) (w : nat) (rows : list (list float)) :
  length (reduce0 f w rows) = w.
Proof. unfold reduce0. by rewrite length_map, length_seq. Qed.

Lemma reduce0_lookup (f : list float → float) (w : nat) (rows : list (list float))
    (c : nat) :
  (c < w)%nat → reduce0 f w rows !! c = Some (f (column rows c)).
Proof.
  intros Hc. unfold reduce0.
  change (map ?f ?l) with (f <$> l).
  rewrite list_lookup_fmap, lookup_seq_lt by done. done.
Qed.

(** Over a window whose unfilled slots come first, the statistics that
    ignore not-a-number are the statistics of the samples alone. *)
Lemma reduce0_nanmean_padded (j w : nat) (real : list (list float)) :
  rows_of_width w real → Forall nan_free real →
  reduce0 np_nanmean w (replicate j (replicate w F64.nan) ++ real)
  = reduce0 np_mean w real.
Proof.
  intros Hw Hn. apply reduce0_ext. intros c Hc.
  rewrite column_app, column_padding by done.
  by apply np_nanmean_padded, column_nan_free.
Qed.

Lemma reduce0_nanstd_padded (j w : nat) (real : list (list float)) :
  rows_of_width w real → Forall nan_free real → real ≠ [] →
  reduce0 np_nanstd w (replicate j (replicate w F64.nan) ++ real)
  = reduce0 np_std w real.
Proof.
  intros Hw Hn Hne. apply reduce0_ext. intros c Hc.
  rewrite column_app, column_padding by done.
  apply np_nanstd_padded; [by apply column_nan_free|].
  intros H0. apply (f_equal length) in H0.
  rewrite (column_length w) in H0 by done. by destruct real.
Qed.

(** *** The window *)

Lemma size_strip_ones (s : list nat) :
  foldr Nat.mul 1%nat (RunningMeanStd.strip_ones s) = foldr Nat.mul 1%nat s.
Proof.
  induction s as [|d s IH]; [done|].
  destruct d as [|[|d]]; simpl; try done. rewrite IH. lia.
Qed.

Lemma as_row_length (w : nat) (a : ndarray) (v : list float) :
  wf_ndarray a → RunningMeanStd.as_row w (VArray a) = Ok v → length v = w.
Proof.
  unfold wf_ndarray, size, ravel. intros Hwf. simpl.
  rewrite <- size_strip_ones in Hwf. unfold ravel.
  destruct (RunningMeanStd.strip_ones (shape a)) as [|d [|d' s]].
  - destruct (data a) as [|x [|y l]]; try discriminate.
    intros [= <-]. apply length_replicate.
  - destruct (Nat.eqb_spec d w) as [->|_]; [|discriminate].
    intros [= <-]. simpl in Hwf. lia.
  - discriminate.
Qed.

Lemma as_row_vector (w : nat) (v : list float) :
  length v = w → RunningMeanStd.as_row w (VArray (mk_ndarray [w] v)) = Ok v.
Proof.
  intros Hv. simpl. destruct w as [|[|w]]; simpl.
  - destruct v; [done|discriminate].
  - by destruct v as [|x [|y v]].
  - destruct (Nat.eqb_spec w w); done.
Qed.

Lemma last_is_Some {A : Type} (l : list A) : l ≠ [] → ∃ x, last l = Some x.
Proof.
  intros Hne. destruct (last l) as [x|] eqn:Hl; [by exists x|].
  apply last_None in Hl. done.
Qed.

Lemma rows_of_width_last (w : nat) (rows : list (list float)) (r : list float) :
  rows_of_width w rows → last rows = Some r → length r = w.
Proof.
  intros Hw Hl. unfold rows_of_width in Hw. rewrite Forall_forall in Hw.
  apply Hw. apply last_Some in Hl as [l' ->]. set_solver.
Qed.

(** A call that is not skipped: the window loses its first slot and gains
    the sample as its last, and the statistics are those of the new window. *)
Lemma update_window (self : RunningMeanStd.t) (a : ndarray) (w : nat)
    (rows : list (list float)) (v : list float) :
  wf_ndarray a → size a = w →
  RunningMeanStd.as_row w (VArray a) = Ok v →
  RunningMeanStd.window self w = Ok rows →
  rows ≠ [] → rows_of_width w rows →
  let rows' := drop 1 rows ++ [v] in
  let m := reduce0 np_nanmean w rows' in
  let s := reduce0 np_nanstd w rows' in
  RunningMeanStd.update self (VArray a)
  = (Ok (VTuple [VArray (mk_ndarray [w] m); VArray (mk_ndarray [w] s)]),
     RunningMeanStd.mk (RunningMeanStd.n self) (RunningMeanStd.n_skip self)
       (Some m) (Some rows') (Some s)).
Proof.
  intros Hwf <- Hrow Hwin Hne Hw rows' m s.
  assert (Hv : length v = size a) by (by eapply as_row_length).
  assert (Hset : ∀ prepared,
            last prepared = last rows →
            take (length prepared - 1) prepared = drop 1 rows →
            RunningMeanStd.set_last prepared (VArray a) = Ok rows').
  { intros prepared Hl Ht. unfold RunningMeanStd.set_last.
    destruct (last_is_Some rows Hne) as [r Hr]. rewrite Hl, Hr.
    rewrite (rows_of_width_last _ _ _ Hw Hr), Hrow. simpl. by rewrite Ht. }
  assert (Hwidth : RunningMeanStd.width rows' = size a).
  { unfold RunningMeanStd.width, rows'. by rewrite last_snoc. }
  unfold RunningMeanStd.update, RunningMeanStd.window in *.
  destruct (RunningMeanStd.mean self) as [m0|].
  - destruct (RunningMeanStd.samples self) as [rows0|]; [|discriminate].
    injection Hwin as ->.
    rewrite Hset.
    + rewrite Hwidth, !reduce0_length. reflexivity.
    + unfold RunningMeanStd.shift. destruct (last_is_Some rows Hne) as [r Hr].
      rewrite Hr. by rewrite last_snoc.
    + unfold RunningMeanStd.shift. destruct (last_is_Some rows Hne) as [r Hr].
      rewrite Hr. rewrite length_app. simpl.
      rewrite take_app_length'; [done|lia].
  - simpl. rewrite Hwin. rewrite Hset; try done.
    + rewrite Hwidth, !reduce0_length. reflexivity.
    + unfold RunningMeanStd.empty_window in Hwin.
      destruct (RunningMeanStd.n self); try discriminate.
      destruct (Z.ltb z 0); [discriminate|]. injection Hwin as <-.
      destruct (Z.to_nat z) as [|k]; [done|].
      rewrite length_replicate, take_replicate, drop_replicate. f_equal. lia.
Qed.

Lemma last_n_snoc {A : Type} (n : nat) (l : list A) (v : A) :
  (1 ≤ n ≤ length l)%nat → last_n n (l ++ [v]) = drop 1 (last_n n l) ++ [v].
Proof.
  intros Hn. unfold last_n. rewrite length_app. simpl.
  rewrite drop_drop, drop_app_le by lia. do 2 f_equal. lia.
Qed.

Lemma last_n_padded {A : Type} (n : nat) (x : A) (h : list A) :
  last_n n (replicate n x ++ h) = replicate (n - length h) x ++ last_n n h.
Proof.
  unfold last_n. rewrite length_app, length_replicate.
  replace (n + length h - n)%nat with (length h) by lia.
  destruct (decide (n ≤ length h)%nat) as [Hle|Hgt].
  - rewrite drop_app_ge by (rewrite length_replicate; lia).
    rewrite length_replicate.
    replace (n - length h)%nat with 0%nat by lia. done.
  - rewrite drop_app_le by (rewrite length_replicate; lia).
    rewrite drop_replicate.
    replace (length h - n)%nat with 0%nat by lia. by rewrite drop_0.
Qed.

Lemma last_n_length {A : Type} (n : nat) (l : list A) :
  length (last_n n l) = (n `min` length l)%nat.
Proof. unfold last_n. rewrite length_drop. lia. Qed.

Lemma size_vector (w : nat) (v : list float) : size (mk_ndarray [w] v) = w.
Proof. unfold size; simpl. lia. Qed.

(** What a call that is not skipped returns once the window holds the last
    samples behind its unfilled slots: the plain statistics of those
    samples. *)
Lemma padded_statistics (n w : nat) (hist : list (list float)) :
  (1 ≤ n)%nat → hist ≠ [] → rows_of_width w hist → Forall nan_free hist →
  let win := last_n n (replicate n (replicate w F64.nan) ++ hist) in
  reduce0 np_nanmean w win = reduce0 np_mean w (last_n n hist)
  ∧ reduce0 np_nanstd w win = reduce0 np_std w (last_n n hist).
Proof.
  intros Hn Hne Hw Hf win. unfold win. rewrite last_n_padded.
  assert (Hw' : rows_of_width w (last_n n hist)) by (by apply Forall_drop).
  assert (Hf' : Forall nan_free (last_n n hist)) by (by apply Forall_drop).
  split; [by apply reduce0_nanmean_padded|].
  apply reduce0_nanstd_padded; try done.
  intros H0. apply (f_equal length) in H0. rewrite last_n_length in H0.
  destruct hist; [done|]. simpl in H0. lia.
Qed.

Lemma running_inv_window (n w : nat) (hist : list (list float)) :
  (1 ≤ n)%nat → rows_of_width w hist →
  let win := last_n n (replicate n (replicate w F64.nan) ++ hist) in
  win ≠ [] ∧ rows_of_width w win.
Proof.
  intros Hn Hw win. split.
  - intros H0. apply (f_equal length) in H0. unfold win in H0.
    rewrite last_n_length, length_app, length_replicate in H0. simpl in H0. lia.
  - apply Forall_drop, Forall_app. split; [|done].
    apply Forall_replicate. apply length_replicate.
Qed.

(** [RunningMeanStd.run], call after call, returns what it is specified to
    return. *)
Lemma running_refines (n : nat) (k : Z) (w : nat) (calls : list (list float * Z)) :
  (1 ≤ n)%nat →
  ∀ (self : RunningMeanStd.t) (hist : list (list float)),
    running_inv n k w self hist →
    rows_of_width w hist → Forall nan_free hist →
    Forall (λ c : list float * Z, length c.1 = w ∧ nan_free c.1) calls →
    (run_calls RunningMeanStd.run self (map (running_call w) calls)).1
    = running_spec n k w hist calls.
Proof.
  intros Hn. induction calls as [|[v i] calls IH]; intros self hist Hinv Hw Hf Hc.
  { done. }
  apply Forall_cons in Hc as [[Hv Hvn] Hc]. simpl in Hv, Hvn.
  destruct Hinv as (Hself_n & Hself_k & Hwin).
  cbn [map run_calls fst snd running_spec].
  change (running_call w (v, i)) with [VArray (mk_ndarray [w] v); VInt i].
  set (a := mk_ndarray [w] v).
  assert (Hsz : size a = w) by apply size_vector.
  assert (Hrun : RunningMeanStd.run self [VArray a; VInt i]
                 = if Z.ltb i k
                   then (Ok (running_neutral w), self)
                   else RunningMeanStd.update self (VArray a)).
  { unfold RunningMeanStd.run. rewrite Hself_k. simpl.
    destruct (Z.ltb i k); [|done]. by rewrite Hsz. }
  rewrite Hrun. destruct (Z.ltb i k).
  - specialize (IH self hist (conj Hself_n (conj Hself_k Hwin)) Hw Hf Hc).
    destruct (run_calls _ self _) as [rs self']. simpl in *. by f_equal.
  - destruct (running_inv_window n w hist Hn Hw) as [Hne Hww].
    assert (Hwf : wf_ndarray a) by (unfold wf_ndarray; by rewrite Hsz).
    pose proof (update_window self a w _ v Hwf Hsz (as_row_vector w v Hv)
                  Hwin Hne Hww) as Hup.
    cbv zeta in Hup. rewrite Hup. clear Hup.
    assert (Hnew : drop 1 (last_n n (replicate n (replicate w F64.nan) ++ hist)) ++ [v]
                   = last_n n (replicate n (replicate w F64.nan) ++ (hist ++ [v]))).
    { rewrite app_assoc. rewrite last_n_snoc; [done|].
      rewrite length_app, length_replicate. lia. }
    rewrite Hnew.
    assert (Hw2 : rows_of_width w (hist ++ [v])).
    { apply Forall_app. split; [done|]. by constructor. }
    assert (Hf2 : Forall nan_free (hist ++ [v])).
    { apply Forall_app. split; [done|]. by constructor. }
    destruct (padded_statistics n w (hist ++ [v])) as [Hm Hs]; try done.
    { by destruct hist. }
    cbv zeta in Hm, Hs. rewrite Hm, Hs.
    match goal with
    | |- context [run_calls _ ?s _] =>
        specialize (IH s (hist ++ [v]))
    end.
    rewrite <- IH; try done.
    by destruct (run_calls _ _ _).
Qed.

Lemma running_inv_new (n : nat) (k : Z) (w : nat) (self : RunningMeanStd.t) :
  RunningMeanStd.n self = VInt (Z.of_nat n) →
  RunningMeanStd.n_skip self = VInt k →
  RunningMeanStd.mean self = None →
  running_inv n k w self [].
Proof.
  intros Hn Hk Hm. split; [done|]. split; [done|].
  unfold RunningMeanStd.window, RunningMeanStd.empty_window. rewrite Hm, Hn.
  destruct (Z.ltb_spec (Z.of_nat n) 0) as [?|_]; [lia|].
  rewrite Nat2Z.id, app_nil_r. unfold last_n.
  by rewrite length_replicate, Nat.sub_diag, drop_0.
Qed.

(** C4. [RunningMeanStd.run(inp, image_number)].
    - While [image_number < n_skip] the call returns [(zeros, ones)] of the
      size of [inp] and leaves the instance, its window included, as it was.
    - Otherwise the window (the stored samples or, before the first of them,
      [n] slots of not-a-number) loses its first slot, the sample becomes its
      last, and the call returns the mean and standard deviation of the
      columns of the new window, computed by the reductions that ignore
      not-a-number.
    - Over a window whose unfilled slots precede the samples, these are the
      plain mean and standard deviation of the samples alone.
    - Hence, from a new instance and for samples free of not-a-number, every
      call returns what the specification describes ([running_spec]): the
      neutral pair when skipped, else the statistics of the last [n] samples
      that were not skipped. *)
Theorem RunningMeanStd_run_spec :
  (∀ (self : RunningMeanStd.t) (inp : value) (a : ndarray) (k i : Z),
     RunningMeanStd.n_skip self = VInt k → as_ndarray inp = Some a → i < k →
     RunningMeanStd.run self [inp; VInt i]
     = (Ok (VTuple [VArray (np_zeros (size a)); VArray (np_ones (size a))]), self))
  ∧ (∀ (self : RunningMeanStd.t) (a : ndarray) (k i : Z) (w : nat)
       (rows : list (list float)) (v : list float),
       RunningMeanStd.n_skip self = VInt k → k ≤ i →
       wf_ndarray a → size a = w → RunningMeanStd.as_row w (VArray a) = Ok v →
       RunningMeanStd.window self w = Ok rows → rows ≠ [] → rows_of_width w rows →
       let rows' := drop 1 rows ++ [v] in
       let m := reduce0 np_nanmean w rows' in
       let s := reduce0 np_nanstd w rows' in
       RunningMeanStd.run self [VArray a; VInt i]
       = (Ok (VTuple [VArray (mk_ndarray [w] m); VArray (mk_ndarray [w] s)]),
          RunningMeanStd.mk (RunningMeanStd.n self) (RunningMeanStd.n_skip self)
            (Some m) (Some rows') (Some s)))
  ∧ (∀ (self : RunningMeanStd.t) (n w : nat),
       RunningMeanStd.mean self = None → RunningMeanStd.n self = VInt (Z.of_nat n) →
       RunningMeanStd.window self w = Ok (replicate n (replicate w F64.nan)))
  ∧ (∀ (j w : nat) (real : list (list float)),
       rows_of_width w real → Forall nan_free real → real ≠ [] →
       reduce0 np_nanmean w (replicate j (replicate w F64.nan) ++ real)
       = reduce0 np_mean w real
       ∧ reduce0 np_nanstd w (replicate j (replicate w F64.nan) ++ real)
         = reduce0 np_std w real)
  ∧ (∀ (self : RunningMeanStd.t) (n : nat) (k : Z) (w : nat)
       (calls : list (list float * Z)),
       RunningMeanStd.n self = VInt (Z.of_nat n) → (1 ≤ n)%nat →
       RunningMeanStd.n_skip self = VInt k →
       RunningMeanStd.mean self = None →
       Forall (λ c : list float * Z, length c.1 = w ∧ nan_free c.1) calls →
       (run_calls RunningMeanStd.run self (map (running_call w) calls)).1
       = running_spec n k w [] calls).
Proof.
  split; [|split; [|split; [|split]]].
  - intros self inp a k i Hk Ha Hi. unfold RunningMeanStd.run.
    rewrite Hk. simpl. destruct (Z.ltb_spec i k) as [_|?]; [|lia].
    destruct inp; simpl in *; by simplify_eq.
  - intros self a k i w rows v Hk Hi Hwf Hsz Hrow Hwin Hne Hw rows' m s.
    assert (Hlt : py_lt (VInt i) (RunningMeanStd.n_skip self) = Ok false).
    { rewrite Hk. simpl. by destruct (Z.ltb_spec i k); [lia|]. }
    unfold RunningMeanStd.run. rewrite Hlt.
    by apply update_window.
  - intros self n w Hm Hn.
    unfold RunningMeanStd.window, RunningMeanStd.empty_window. rewrite Hm, Hn.
    destruct (Z.ltb_spec (Z.of_nat n) 0) as [?|_]; [lia|]. by rewrite Nat2Z.id.
  - intros j w real Hw Hf Hne. split.
    + by apply reduce0_nanmean_padded.
    + by apply reduce0_nanstd_padded.
  - intros self n k w calls Hn Hn1 Hk Hm Hc.
    apply running_refines; try done.
    + by apply running_inv_new.
    + constructor.
Qed.

(** [RunningMeanStd(n=3, n_skip=2)] on the frames 0 to 5: the first two are
    skipped; the third sample is averaged with the two before it and with no
    unfilled slot, the fourth pushes the first out of the window. *)
Lemma RunningMeanStd_run_spec_witness :
  let calls := [([F64.of_Z 9; F64.of_Z 9], 0); ([F64.of_Z 9; F64.of_Z 9], 1);
                ([F64.of_Z 1; F64.of_Z 2], 2); ([F64.of_Z 3; F64.of_Z 4], 3);
                ([F64.of_Z 5; F64.of_Z 9], 4); ([F64.of_Z 7; F64.of_Z 2], 5)] in
  (run_calls RunningMeanStd.run
     (RunningMeanStd.mk (VInt 3) (VInt 2) None None None)
     (map (running_call 2) calls)).1 !! 4%nat
  = Some (Ok (VTuple [VArray (vector [3; 5]);
                      VArray (mk_ndarray [2%nat]
                                [F64.sqrt (F64.div (F64.of_Z 8) (F64.of_Z 3));
                                 F64.sqrt (F64.div (F64.of_Z 26) (F64.of_Z 3))])])).
Proof.
  intros calls.
  destruct RunningMeanStd_run_spec as (_ & _ & _ & _ & H).
  rewrite (H (RunningMeanStd.mk (VInt 3) (VInt 2) None None None) 3%nat 2 2%nat calls);
    [ vm_compute; reflexivity | reflexivity | lia | reflexivity | reflexivity | ].
  unfold nan_free. repeat constructor.
Defined.

(** ** IncrementalMeanStd *)

(** The first call, on an instance without a buffer. *)
Lemma incremental_first (self : IncrementalMeanStd.t) (v : value) (a : ndarray) :
  IncrementalMeanStd.data self = None → as_ndarray v = Some a → wf_ndarray a →
  IncrementalMeanStd.run self [v]
  = (Ok (VTuple [VNone; VNone]),
     IncrementalMeanStd.mk (Some (shape a))
       (Some (BufferedArray.mk (size a) [ravel a]))).
Proof.
  intros Hd Ha Hwf. unfold IncrementalMeanStd.run. rewrite Ha, Hd.
  unfold BufferedArray.append, BufferedArray.new; simpl.
  unfold ravel. rewrite Hwf. by rewrite Nat.eqb_refl.
Qed.

(** A later call, on an instance with a buffer. *)
Lemma incremental_later (self : IncrementalMeanStd.t) (v : value) (a : ndarray)
    (sh : list nat) (b : BufferedArray.t) :
  IncrementalMeanStd.data self = Some b →
  IncrementalMeanStd.array_shape self = Some sh →
  foldr Nat.mul 1%nat sh = BufferedArray.width b →
  as_ndarray v = Some a → length (ravel a) = BufferedArray.width b →
  let hist := BufferedArray.rows b ++ [ravel a] in
  IncrementalMeanStd.run self [v]
  = (Ok (incremental_statistics sh (BufferedArray.width b) hist),
     IncrementalMeanStd.mk (Some sh)
       (Some (BufferedArray.mk (BufferedArray.width b) hist))).
Proof.
  intros Hd Hsh Hw Ha Hlen hist. unfold IncrementalMeanStd.run.
  rewrite Ha, Hd. unfold BufferedArray.append. rewrite Hlen, Nat.eqb_refl.
  unfold IncrementalMeanStd.statistics; simpl. rewrite Hsh.
  unfold reshape. rewrite !reduce0_length, Hw, Nat.eqb_refl. done.
Qed.

Lemma incremental_refines (sh : list nat) (w : nat) (arrays : list ndarray) :
  foldr Nat.mul 1%nat sh = w →
  Forall (λ a, wf_ndarray a ∧ size a = w) arrays →
  ∀ hist : list (list float), hist ≠ [] →
    (run_calls IncrementalMeanStd.run
       (IncrementalMeanStd.mk (Some sh) (Some (BufferedArray.mk w hist)))
       (map (λ a, [VArray a]) arrays)).1
    = incremental_spec sh w hist arrays.
Proof.
  intros Hsh. induction 1 as [|a arrays [Hwf Hsz] _ IH]; intros hist Hne; [done|].
  cbn [map run_calls incremental_spec].
  rewrite (incremental_later _ (VArray a) a sh (BufferedArray.mk w hist));
    try done.
  2:{ unfold ravel. simpl. by rewrite Hwf. }
  cbn [BufferedArray.width BufferedArray.rows].
  specialize (IH (hist ++ [ravel a])).
  destruct (run_calls _ _ _) as [rs s]. simpl in *.
  rewrite IH by (by destruct hist). by destruct hist.
Qed.

(** *** Two samples *)

Lemma add_zero_l (x y : float) :
  ¬ (x = S754_zero true ∧ y = S754_zero true) →
  F64.add (F64.add F64.zero x) y = F64.add x y.
Proof.
  intros H. destruct x as [[|]| | |]; try reflexivity.
  destruct y as [[|]| | |]; try reflexivity. tauto.
Qed.

Lemma mul_self_not_neg_zero (d : float) : F64.mul d d ≠ S754_zero true.
Proof.
  destruct d as [[|]|[|]| |[|] m e]; try discriminate;
    unfold F64.mul, SFmul, binary_round_aux; simpl xorb;
    destruct (shr_fexp _ _ _ _ _) as [mrs e'];
    destruct (shr_fexp _ _ _ _ _) as [mrs' e''];
    destruct (shr_m mrs'); try discriminate;
    destruct (Z.leb _ _); discriminate.
Qed.

Lemma np_mean_pair (x y : float) :
  ¬ (x = S754_zero true ∧ y = S754_zero true) →
  np_mean [x; y] = F64.div (F64.add x y) (F64.of_Z 2).
Proof.
  intros H.
  change (np_mean [x; y])
    with (F64.div (F64.add (F64.add F64.zero x) y) (F64.of_Z 2)).
  by rewrite add_zero_l.
Qed.

Lemma np_std_pair (x y : float) :
  let m := np_mean [x; y] in
  np_std [x; y]
  = F64.sqrt (F64.div (F64.add (sq_dev m x) (sq_dev m y)) (F64.of_Z 2)).
Proof.
  intros m.
  change (np_std [x; y])
    with (F64.sqrt (F64.div (F64.add (F64.add F64.zero (sq_dev m x)) (sq_dev m y))
                      (F64.of_Z 2))).
  rewrite add_zero_l; [done|].
  intros [H _]. by apply mul_self_not_neg_zero in H.
Qed.

Lemma incremental_refines_new (self : IncrementalMeanStd.t) (a0 : ndarray)
    (rest : list ndarray) :
  IncrementalMeanStd.data self = None → wf_ndarray a0 →
  Forall (λ a, wf_ndarray a ∧ size a = size a0) rest →
  (run_calls IncrementalMeanStd.run self (map (λ a, [VArray a]) (a0 :: rest))).1
  = incremental_spec (shape a0) (size a0) [] (a0 :: rest).
Proof.
  intros Hd Hwf Hrest. cbn [map run_calls incremental_spec].
  rewrite (incremental_first self (VArray a0) a0) by done.
  pose proof (incremental_refines (shape a0) (size a0) rest eq_refl Hrest
                [ravel a0]) as H.
  destruct (run_calls _ _ _) as [rs s]. simpl in *. rewrite H; done.
Qed.

(** C3. [IncrementalMeanStd.run(array)].
    - On an instance without a buffer (a new one, or one that was reset) the
      call returns [(None, None)], fixes the shape and starts the buffer
      with the flattened sample.
    - On an instance with a buffer the call appends the flattened sample and
      returns the population mean and standard deviation of every column of
      the whole buffer, each in the shape that the first call fixed.
    - Hence the calls on a first array and any later arrays of its size
      return what the specification describes ([incremental_spec]).
    - After two samples the mean and standard deviation at each index are
      those of the two values at that index: the root of the halved sum of
      the squared deviations from the mean, and the mean half the sum of the
      two (two negative zeros apart: the sum starts from the accumulator's
      positive zero). *)
Theorem IncrementalMeanStd_run_spec :
  (∀ (self : IncrementalMeanStd.t) (v : value) (a : ndarray),
     IncrementalMeanStd.data self = None → as_ndarray v = Some a → wf_ndarray a →
     IncrementalMeanStd.run self [v]
     = (Ok (VTuple [VNone; VNone]),
        IncrementalMeanStd.mk (Some (shape a))
          (Some (BufferedArray.mk (size a) [ravel a]))))
  ∧ (∀ (self : IncrementalMeanStd.t) (v : value) (a : ndarray) (sh : list nat)
       (b : BufferedArray.t),
       IncrementalMeanStd.data self = Some b →
       IncrementalMeanStd.array_shape self = Some sh →
       foldr Nat.mul 1%nat sh = BufferedArray.width b →
       as_ndarray v = Some a → length (ravel a) = BufferedArray.width b →
       let hist := BufferedArray.rows b ++ [ravel a] in
       IncrementalMeanStd.run self [v]
       = (Ok (VTuple
                [VArray (mk_ndarray sh (reduce0 np_mean (BufferedArray.width b) hist));
                 VArray (mk_ndarray sh (reduce0 np_std (BufferedArray.width b) hist))]),
          IncrementalMeanStd.mk (Some sh)
            (Some (BufferedArray.mk (BufferedArray.width b) hist))))
  ∧ (∀ (self : IncrementalMeanStd.t) (a0 : ndarray) (rest : list ndarray),
       IncrementalMeanStd.data self = None → wf_ndarray a0 →
       Forall (λ a, wf_ndarray a ∧ size a = size a0) rest →
       (run_calls IncrementalMeanStd.run self (map (λ a, [VArray a]) (a0 :: rest))).1
       = incremental_spec (shape a0) (size a0) [] (a0 :: rest))
  ∧ (∀ (self : IncrementalMeanStd.t) (a0 a1 : ndarray),
       IncrementalMeanStd.data self = None →
       wf_ndarray a0 → wf_ndarray a1 → size a1 = size a0 →
       ∃ m s : ndarray,
         (run_calls IncrementalMeanStd.run self [[VArray a0]; [VArray a1]]).1
         = [Ok (VTuple [VNone; VNone]); Ok (VTuple [VArray m; VArray s])]
         ∧ shape m = shape a0 ∧ shape s = shape a0
         ∧ ∀ (i : nat) (x y : float),
             data a0 !! i = Some x → data a1 !! i = Some y →
             data m !! i = Some (np_mean [x; y])
             ∧ data s !! i = Some (np_std [x; y])
             ∧ np_std [x; y]
               = F64.sqrt (F64.div (F64.add (sq_dev (np_mean [x; y]) x)
                                      (sq_dev (np_mean [x; y]) y)) (F64.of_Z 2))
             ∧ (¬ (x = S754_zero true ∧ y = S754_zero true) →
                np_mean [x; y] = F64.div (F64.add x y) (F64.of_Z 2))).
Proof.
  split; [|split; [|split]].
  - apply incremental_first.
  - apply incremental_later.
  - apply incremental_refines_new.
  - intros self a0 a1 Hd Hwf0 Hwf1 Hsz.
    exists (mk_ndarray (shape a0) (reduce0 np_mean (size a0) [ravel a0; ravel a1])),
           (mk_ndarray (shape a0) (reduce0 np_std (size a0) [ravel a0; ravel a1])).
    split; [|split; [done|split; [done|]]].
    + change [[VArray a0]; [VArray a1]] with (map (λ a, [VArray a]) [a0; a1]).
      rewrite incremental_refines_new; try done.
      constructor; [done|constructor].
    + intros i x y Hx Hy. simpl.
      assert (Hi : (i < size a0)%nat).
      { rewrite <- Hwf0. by eapply lookup_lt_Some. }
      assert (Hc : column [ravel a0; ravel a1] i = [x; y]).
      { unfold column, ravel; simpl. by rewrite Hx, Hy. }
      rewrite !reduce0_lookup, Hc by done.
      split; [done|]. split; [done|]. split.
      * apply np_std_pair.
      * apply np_mean_pair.
Qed.

(** The samples [[1, 2]] and [[3, 6]]: no statistics after the first, mean
    [[2, 4]] and standard deviation [[1, 2]] after the second. *)
Lemma IncrementalMeanStd_run_spec_witness :
  (run_calls IncrementalMeanStd.run IncrementalMeanStd.new
     (map (λ a, [VArray a]) [vector [1; 2]; vector [3; 6]])).1
  = [Ok (VTuple [VNone; VNone]);
     Ok (VTuple [VArray (vector [2; 4]); VArray (vector [1; 2])])].
Proof.
  destruct IncrementalMeanStd_run_spec as (_ & _ & H & _).
  rewrite (H IncrementalMeanStd.new (vector [1; 2]) [vector [3; 6]]);
    [ vm_compute; reflexivity | reflexivity | reflexivity | ].
  repeat constructor.
Defined.

(** ** Pipeline.process *)

(** *** Input keys *)

Lemma lookup_inputs_missing (d : dict) (keys : list string) :
  (∃ k, k ∈ keys ∧ d !! k = None) →
  ∃ k, k ∈ keys ∧ d !! k = None ∧ lookup_inputs d keys = Raise (KeyError k).
Proof.
  induction keys as [|k0 keys IH]; intros (k & Hin & Hk).
  { by apply elem_of_nil in Hin. }
  simpl. unfold dict_getitem. destruct (d !! k0) as [v0|] eqn:H0.
  - apply elem_of_cons in Hin as [->|Hin]; [congruence|].
    destruct IH as (k' & Hin' & Hk' & Hl); [by exists k|].
    exists k'. split; [by right|]. split; [done|]. simpl. by rewrite Hl.
  - exists k0. split; [by left|]. done.
Qed.

Lemma lookup_inputs_present (d : dict) (keys : list string) :
  (∀ k, k ∈ keys → is_Some (d !! k)) →
  ∃ vs, lookup_inputs d keys = Ok vs ∧ Forall2 (λ k v, d !! k = Some v) keys vs.
Proof.
  induction keys as [|k0 keys IH]; intros Hall.
  { exists []. split; [done|constructor]. }
  destruct (Hall k0) as [v0 H0]; [by left|].
  destruct IH as (vs & Hl & Hvs); [intros k Hk; apply Hall; by right|].
  exists (v0 :: vs). simpl. unfold dict_getitem. rewrite H0. simpl. rewrite Hl.
  split; [done|by constructor].
Qed.

(** *** Output keys *)

Local Abbreviation bind_pair := (λ (m : dict) (kv : string * value), <[kv.1 := kv.2]> m).

Lemma fold_bind_absent (l : list (string * value)) (m : dict) (k : string) :
  (∀ v, (k, v) ∉ l) → fold_left bind_pair l m !! k = m !! k.
Proof.
  revert m. induction l as [|[k0 v0] l IH]; intros m Hk; [done|].
  simpl. rewrite IH.
  - apply lookup_insert_ne. intros ->. apply (Hk v0). by left.
  - intros v Hv. apply (Hk v). by right.
Qed.

Lemma fold_bind_last (l1 l2 : list (string * value)) (m : dict) (k : string)
    (v : value) :
  (∀ v', (k, v') ∉ l2) →
  fold_left bind_pair (l1 ++ (k, v) :: l2) m !! k = Some v.
Proof.
  intros Hk. rewrite fold_left_app. simpl.
  rewrite fold_bind_absent by done. apply lookup_insert_eq.
Qed.

(** A key bound at position [j], and at no later position, gets the value
    at position [j]. *)
Lemma dict_of_zip_bound (keys : list string) (outs : list value) (j : nat)
    (k : string) (v : value) :
  keys !! j = Some k → outs !! j = Some v →
  (∀ j', (j < j')%nat → keys !! j' = Some k → outs !! j' = None) →
  dict_of_zip keys outs !! k = Some v.
Proof.
  intros Hk Hv Hlast. unfold dict_of_zip.
  assert (Hz : zip keys outs !! j = Some (k, v)) by (by apply lookup_zip_Some).
  rewrite <- (take_drop_middle _ _ _ Hz).
  apply fold_bind_last. intros v' Hin.
  apply list_elem_of_lookup in Hin as [i Hi].
  rewrite lookup_drop in Hi. apply lookup_zip_Some in Hi as [Hi1 Hi2].
  rewrite Hlast in Hi2; [done| lia |done].
Qed.

(** A key bound at no position is not in the dict. *)
Lemma dict_of_zip_unbound (keys : list string) (outs : list value) (k : string) :
  (∀ j, keys !! j = Some k → outs !! j = None) →
  dict_of_zip keys outs !! k = None.
Proof.
  intros Hk. unfold dict_of_zip. rewrite fold_bind_absent; [done|].
  intros v Hin. apply list_elem_of_lookup in Hin as [j Hj].
  apply lookup_zip_Some in Hj as [Hj1 Hj2]. by rewrite Hk in Hj2.
Qed.

(** The frame never loses a key in a step. *)
Lemma merge_outputs_keeps (sp : step_spec) (outp : value) (d : dict) (k : string) :
  is_Some (d !! k) → is_Some (merge_outputs sp outp d !! k).
Proof.
  intros Hk. unfold merge_outputs, dict_update.
  apply lookup_union_is_Some. by right.
Qed.

(** *** One step *)

Lemma process_step_ok (st : step) (l : loc) (h : store) (d : dict)
    (keys : list string) (vs : list value) (outp : value) (i : Instance) :
  h !! l = Some d → input (spec st) = Some keys →
  lookup_inputs d keys = Ok vs → invoke (instance st) vs = (Ok outp, i) →
  process_step st l h
  = (Ok (), mk_step (spec st) i, <[l := merge_outputs (spec st) outp d]> h).
Proof.
  intros Hl Hin Hvs Hrun. unfold process_step.
  by rewrite Hl, Hin, Hvs, Hrun.
Qed.

Lemma process_step_key_error (st : step) (l : loc) (h : store) (d : dict)
    (keys : list string) :
  h !! l = Some d → input (spec st) = Some keys →
  (∃ k, k ∈ keys ∧ d !! k = None) →
  ∃ k, k ∈ keys ∧ d !! k = None
       ∧ process_step st l h = (Raise (KeyError k), st, h).
Proof.
  intros Hl Hin Hmiss.
  destruct (lookup_inputs_missing d keys Hmiss) as (k & Hk & Hd & Hlk).
  exists k. split; [done|]. split; [done|].
  unfold process_step. by rewrite Hl, Hin, Hlk.
Qed.

(** *** The loop *)

Lemma process_steps_app (pre post : list step) (l : loc) (h : store)
    (pre' : list step) (h1 : store) :
  process_steps pre l h = (Ok (), pre', h1) →
  process_steps (pre ++ post) l h
  = (let '(r, post', h2) := process_steps post l h1 in (r, pre' ++ post', h2)).
Proof.
  revert h pre'. induction pre as [|st pre IH]; intros h pre' Hpre.
  - simpl in Hpre. injection Hpre as <- <-. simpl.
    by destruct (process_steps post l h) as [[r post'] h2].
  - simpl in *. destruct (process_step st l h) as [[r st'] h'].
    destruct r as [[]|e|]; try discriminate.
    destruct (process_steps pre l h') as [[r1 pre1] h1'] eqn:Hp.
    injection Hpre as -> <- ->.
    rewrite (IH h' pre1 Hp).
    by destruct (process_steps post l h1) as [[r post'] h2].
Qed.

(** The loop changes no dict but the frame, and leaves a dict at the
    reference of the frame. *)
Lemma process_step_store (st : step) (l : loc) (h : store) :
  let '(_, _, h') := process_step st l h in
  (∀ l', l' ≠ l → h' !! l' = h !! l') ∧ (is_Some (h !! l) → is_Some (h' !! l)).
Proof.
  unfold process_step. destruct (h !! l) as [d|] eqn:Hl; [|done].
  destruct (match input (spec st) with Some _ => _ | None => _ end) as [vs|e|];
    [|done..].
  destruct (invoke (instance st) vs) as [[outp|e|] i]; [|done..].
  split.
  - intros l' Hne. by rewrite lookup_insert_ne.
  - intros _. rewrite lookup_insert_eq. by eexists.
Qed.

Lemma process_steps_store (steps : list step) (l : loc) (h : store) :
  let '(_, _, h') := process_steps steps l h in
  (∀ l', l' ≠ l → h' !! l' = h !! l') ∧ (is_Some (h !! l) → is_Some (h' !! l)).
Proof.
  revert h. induction steps as [|st steps IH]; intros h; [done|].
  simpl. pose proof (process_step_store st l h) as Hst.
  destruct (process_step st l h) as [[r st'] h'].
  destruct r as [[]|e|]; [|done..].
  specialize (IH h'). destruct (process_steps steps l h') as [[r1 steps1] h1].
  destruct Hst as [Hst1 Hst2], IH as [IH1 IH2]. split.
  - intros l' Hne. rewrite IH1, Hst1; done.
  - intros Hs. auto.
Qed.

(** *** The frame through the steps *)

(** What a step leaves of the frame: every key that it had, and at a key
    that is not among the step's output keys the value that it had. *)
Lemma process_step_frame (st : step) (l : loc) (h : store) (d : dict) :
  h !! l = Some d →
  ∃ d', (process_step st l h).2 !! l = Some d'
        ∧ (∀ k, is_Some (d !! k) → is_Some (d' !! k))
        ∧ (∀ k, k ∉ default [] (output (spec st)) → d' !! k = d !! k)
        ∧ spec (process_step st l h).1.2 = spec st.
Proof.
  intros Hl. unfold process_step. rewrite Hl.
  destruct (match input (spec st) with Some _ => _ | None => _ end) as [vs|e|];
    [|by exists d; simpl..].
  destruct (invoke (instance st) vs) as [[outp|e|] i]; [|by exists d; simpl..].
  exists (merge_outputs (spec st) outp d). simpl.
  split; [apply lookup_insert_eq|].
  split; [intros k; apply merge_outputs_keeps|]. split; [|done].
  intros k Hk. unfold merge_outputs, dict_update.
  apply lookup_union_r, dict_of_zip_unbound.
  intros j Hj. exfalso. apply Hk. by eapply list_elem_of_lookup_2.
Qed.

Lemma process_steps_frame (steps : list step) (l : loc) (h : store) (d : dict) :
  h !! l = Some d →
  ∃ d', (process_steps steps l h).2 !! l = Some d'
        ∧ (∀ k, is_Some (d !! k) → is_Some (d' !! k))
        ∧ (∀ k, (∀ st, st ∈ steps → k ∉ default [] (output (spec st))) →
                d' !! k = d !! k)
        ∧ map spec (process_steps steps l h).1.2 = map spec steps.
Proof.
  revert h d. induction steps as [|st steps IH]; intros h d Hl.
  { exists d. by simpl. }
  simpl. destruct (process_step_frame st l h d Hl) as (d1 & Hd1 & Hk1 & Ho1 & Hs1).
  destruct (process_step st l h) as [[r st'] h1]. simpl in *.
  destruct r as [[]|e|].
  - destruct (IH h1 d1 Hd1) as (d2 & Hd2 & Hk2 & Ho2 & Hs2).
    destruct (process_steps steps l h1) as [[r2 steps2] h2]. simpl in *.
    exists d2. split; [done|]. split; [auto|]. split; [|by f_equal].
    intros k Hk. rewrite Ho2, Ho1; [done| |].
    + apply Hk. by left.
    + intros st0 Hst0. apply Hk. by right.
  - exists d1. simpl. split; [done|]. split; [done|]. split; [|by f_equal].
    intros k Hk. apply Ho1, Hk. by left.
  - exists d1. simpl. split; [done|]. split; [done|]. split; [|by f_equal].
    intros k Hk. apply Ho1, Hk. by left.
Qed.

(** C1. A step of [Pipeline.process] whose [run] returns [outp], after the
    steps before it have run: the step does not fail, whatever the numbers
    of outputs and of output keys, and [process] goes on with the steps after
    it on the frame that the step leaves. A result that is neither a list nor
    a tuple counts as the one-element list [[outp]], a list or a tuple as its
    elements; the outputs are paired with the declared output keys by
    position; the frame after the step maps a key that is paired at some
    position to the output at the last such position, and every other key to
    what it was mapped to before (an output beyond the keys, a key beyond the
    outputs, bind nothing), so that no key leaves the frame. Three outputs
    for two keys bind these two keys and nothing else. When the step is the
    last, [process] returns the frame with these bindings; in general the
    frame that [process] leaves, by return or by exception, has them at
    every key that no later step declares as an output. *)
Theorem process_binds_outputs (self : Pipeline) (pre post pre' : list step)
    (st : step) (l : loc) (h h1 : store) (d0 d : dict)
    (inputs : list string) (vs : list value) (outp : value) (i : Instance) :
  h !! l = Some d0 → pack_image_number d0 = Ok () →
  pipeline self = Some (pre ++ st :: post) →
  process_steps pre l h = (Ok (), pre', h1) → h1 !! l = Some d →
  input (spec st) = Some inputs →
  lookup_inputs d inputs = Ok vs → invoke (instance st) vs = (Ok outp, i) →
  let keys := default [] (output (spec st)) in
  let outs := normalize outp in
  let built (steps : list step) :=
    mk_Pipeline (recording_id self) (static_pipeline self) (Some steps)
      (global_parameters self) in
  ∃ d' : dict,
    process self l h
    = (let '(r, post', h2) := process_steps post l (<[l := d']> h1) in
       (let* _ := r in Ok l, built (pre' ++ mk_step (spec st) i :: post'), h2))
    ∧ (post = [] →
       process self l h
       = (Ok l, built (pre' ++ [mk_step (spec st) i]), <[l := d']> h1))
    ∧ (∃ d'', (process self l h).2 !! l = Some d''
              ∧ ∀ k, (∀ st', st' ∈ post → k ∉ default [] (output (spec st'))) →
                     d'' !! k = d' !! k)
    ∧ (is_list_or_tuple outp = false → outs = [outp])
    ∧ (∀ xs, outp = VList xs ∨ outp = VTuple xs → outs = xs)
    ∧ (∀ j k v,
         keys !! j = Some k → outs !! j = Some v →
         (∀ j', (j < j')%nat → keys !! j' = Some k → outs !! j' = None) →
         d' !! k = Some v)
    ∧ (∀ k, (∀ j, keys !! j = Some k → outs !! j = None) → d' !! k = d !! k)
    ∧ (∀ k, is_Some (d !! k) → is_Some (d' !! k))
    ∧ (∀ k1 k2 v1 v2 v3,
         keys = [k1; k2] → outs = [v1; v2; v3] →
         d' = <[k2 := v2]> (<[k1 := v1]> d) ∧ dom d' = {[k1; k2]} ∪ dom d).
Proof.
  intros Hl Hpack Hp Hpre Hd Hin Hvs Hrun keys outs built.
  exists (merge_outputs (spec st) outp d).
  assert (Hst : process_step st l h1
                = (Ok (), mk_step (spec st) i,
                   <[l := merge_outputs (spec st) outp d]> h1))
    by (by eapply process_step_ok).
  assert (Hproc : process self l h
                  = (let '(r, post', h2) :=
                       process_steps post l
                         (<[l := merge_outputs (spec st) outp d]> h1) in
                     (let* _ := r in Ok l,
                      built (pre' ++ mk_step (spec st) i :: post'), h2))).
  { unfold process. rewrite Hl, Hpack, Hp.
    rewrite (process_steps_app _ _ _ _ _ _ Hpre). cbn [process_steps].
    rewrite Hst.
    by destruct (process_steps post l _) as [[r post'] h2]. }
  split; [exact Hproc|].
  split; [intros ->; by rewrite Hproc|].
  split.
  { rewrite Hproc.
    destruct (process_steps_frame post l
                (<[l := merge_outputs (spec st) outp d]> h1)
                (merge_outputs (spec st) outp d) (lookup_insert_eq _ _ _))
      as (d'' & Hd'' & _ & Ho & _).
    destruct (process_steps post l _) as [[r post'] h2]. simpl in *.
    exists d''. split; [done|]. intros k Hk. by apply Ho. }
  split; [by destruct outp|].
  split; [by intros xs [-> | ->]|].
  split; [|split; [|split; [intros k; apply merge_outputs_keeps|]]];
    unfold merge_outputs, dict_update; fold keys outs.
  - intros j k v Hk Hv Hlast. apply lookup_union_Some_l.
    by eapply dict_of_zip_bound.
  - intros k Hk. apply lookup_union_r. by apply dict_of_zip_unbound.
  - intros k1 k2 v1 v2 v3 -> ->. unfold dict_of_zip; simpl.
    rewrite <- !insert_union_l, (left_id_L ∅ (∪)).
    split; [done|]. rewrite !dom_insert_L.
    by rewrite (comm_L (∪) {[k1]} {[k2]}), (assoc_L (∪)).
Qed.

(** A pipeline of one step that returns three values for the two keys [a]
    and [b]: [process] returns the frame with these two keys bound and the
    keys that it had. *)
Lemma process_binds_outputs_witness :
  let h : store := {[1%positive := example_frame]} in
  let self := mk_Pipeline "recording" None
                (Some [three_values_step ["a"; "b"]%string]) None in
  ∃ d' : dict,
    process self 1%positive h = (Ok 1%positive, self, <[1%positive := d']> h)
    ∧ d' !! "a"%string = Some (VInt 1)
    ∧ d' !! "b"%string = Some (VInt 2)
    ∧ dom d' = {["a"; "b"]}%string ∪ dom example_frame.
Proof.
  intros h self.
  destruct (process_binds_outputs self [] [] []
              (three_values_step ["a"; "b"]%string)
              1%positive h h example_frame example_frame
              ["image_number"%string] [VInt 0]
              (VTuple [VInt 1; VInt 2; VInt 3]) three_values)
    as (d' & _ & Hrun & _ & _ & _ & _ & _ & _ & H32); [reflexivity..|].
  destruct (H32 "a" "b" (VInt 1) (VInt 2) (VInt 3))%string as [-> Hdom];
    [reflexivity..|].
  exists (<["b" := VInt 2]> (<["a" := VInt 1]> example_frame))%string.
  split; [exact (Hrun eq_refl)|]. split; [reflexivity|].
  split; [reflexivity|]. exact Hdom.
Defined.

(** [process], when the steps [pre] ran and the step after them fails. *)
Lemma process_fails_at (self : Pipeline) (pre post : list step) (st st' : step)
    (l : loc) (h h1 h2 : store) (d0 : dict) (pre' : list step) (e : exn) :
  h !! l = Some d0 → pack_image_number d0 = Ok () →
  pipeline self = Some (pre ++ st :: post) →
  process_steps pre l h = (Ok (), pre', h1) →
  process_step st l h1 = (Raise e, st', h2) →
  process self l h
  = (Raise e,
     mk_Pipeline (recording_id self) (static_pipeline self)
       (Some (pre' ++ st' :: post)) (global_parameters self),
     h2).
Proof.
  intros Hl Hpack Hp Hpre Hst. unfold process.
  rewrite Hl, Hpack, Hp. rewrite (process_steps_app _ _ _ _ _ _ Hpre).
  simpl. by rewrite Hst.
Qed.

(** [process], when the steps [pre] ran and the step after them lacks an
    input key. *)
Lemma process_key_error (self : Pipeline) (pre post : list step) (st : step)
    (l : loc) (h h1 : store) (d0 d : dict) (pre' : list step)
    (keys : list string) :
  h !! l = Some d0 → pack_image_number d0 = Ok () →
  pipeline self = Some (pre ++ st :: post) →
  process_steps pre l h = (Ok (), pre', h1) →
  h1 !! l = Some d → input (spec st) = Some keys →
  (∃ k, k ∈ keys ∧ d !! k = None) →
  ∃ k, k ∈ keys ∧ d !! k = None
       ∧ process self l h
         = (Raise (KeyError k),
            mk_Pipeline (recording_id self) (static_pipeline self)
              (Some (pre' ++ st :: post)) (global_parameters self),
            h1).
Proof.
  intros Hl Hpack Hp Hpre Hd Hin Hmiss.
  destruct (process_step_key_error st l h1 d keys Hd Hin Hmiss)
    as (k & Hk & Hdk & Hst).
  exists k. split; [done|]. split; [done|]. by eapply process_fails_at.
Qed.

(** C2. [Pipeline.process] at a step that it reaches (the frame carries a
    packable [image_number] and the steps before ran). The declared input
    keys are looked up in the frame as the steps before left it. When all are
    present the step's [run] receives their values in the declared order.
    When one is absent, [process] raises [KeyError] for an absent key
    (the specification's MissingKeyError): the exception reaches the caller
    as the result of [process]; the step's [run] is not called and the steps
    after it are not run, their instances being as they were; the pipeline
    remains, with all its steps, for the next frame. *)
Theorem process_missing_input_key (self : Pipeline) (pre post : list step)
    (st : step) (l : loc) (h h1 : store) (d0 d : dict) (pre' : list step)
    (keys : list string) :
  h !! l = Some d0 → pack_image_number d0 = Ok () →
  pipeline self = Some (pre ++ st :: post) →
  process_steps pre l h = (Ok (), pre', h1) →
  h1 !! l = Some d → input (spec st) = Some keys →
  ((∀ k, k ∈ keys → is_Some (d !! k)) →
   ∃ vs, Forall2 (λ k v, d !! k = Some v) keys vs
         ∧ process_step st l h1
           = (let '(r, i) := invoke (instance st) vs in
              match r with
              | Ok outp =>
                  (Ok (), mk_step (spec st) i,
                   <[l := merge_outputs (spec st) outp d]> h1)
              | Raise e => (Raise e, mk_step (spec st) i, h1)
              | Unmodelled => (Unmodelled, mk_step (spec st) i, h1)
              end))
  ∧ ((∃ k, k ∈ keys ∧ d !! k = None) →
     ∃ k, k ∈ keys ∧ d !! k = None
          ∧ process self l h
            = (Raise (KeyError k),
               mk_Pipeline (recording_id self) (static_pipeline self)
                 (Some (pre' ++ st :: post)) (global_parameters self),
               h1)).
Proof.
  intros Hl Hpack Hp Hpre Hd Hin. split.
  - intros Hall. destruct (lookup_inputs_present d keys Hall) as (vs & Hvs & HF).
    exists vs. split; [done|]. unfold process_step. rewrite Hd, Hin, Hvs.
    by destruct (invoke (instance st) vs) as [[outp|e|] i].
  - intros Hmiss. by eapply process_key_error.
Qed.

Lemma process_missing_input_key_witness :
  let h : store := {[1%positive := example_frame]} in
  ∃ h1 : store,
    process example_pipeline 1%positive h
    = (Raise (KeyError "absent"), example_pipeline, h1).
Proof.
  intros h.
  set (d := <["z"%string := VArray (vector [0])]> example_frame).
  destruct (process_missing_input_key example_pipeline [zscore_step] [] needy_step
              1%positive h (<[1%positive := d]> h) example_frame d [zscore_step]
              ["z"; "absent"]%string)
    as [_ H]; [reflexivity..|].
  destruct H as (k & Hk & Hdk & Hrun).
  { exists "absent"%string. split; [|reflexivity].
    apply elem_of_cons. right. apply elem_of_cons. by left. }
  exists (<[1%positive := d]> h).
  assert (k = "absent"%string) as ->; [|exact Hrun].
  apply elem_of_cons in Hk as [->|Hk]; [discriminate Hdk|].
  apply elem_of_cons in Hk as [->|Hk]; [done|].
  by apply elem_of_nil in Hk.
Defined.


Lemma process_store (self : Pipeline) (l : loc) (h : store) :
  let '(_, _, h') := process self l h in
  (∀ l', l' ≠ l → h' !! l' = h !! l') ∧ (is_Some (h !! l) → is_Some (h' !! l)).
Proof.
  unfold process. destruct (h !! l) as [d|] eqn:Hl; [|by rewrite Hl].
  destruct (pack_image_number d) as [[]|e|]; try (by rewrite Hl).
  destruct (pipeline self) as [steps|]; [|by rewrite Hl].
  pose proof (process_steps_store steps l h) as H.
  destruct (process_steps steps l h) as [[r steps'] h1].
  by rewrite Hl in H.
Qed.



(** ** Pipeline.build *)

Lemma setdefault_union (d : dict) (k : string) (v : value) :
  <[k := default v (d !! k)]> d = d ∪ {[k := v]}.
Proof.
  apply map_eq. intros k'. destruct (decide (k = k')) as [<-|Hne].
  - rewrite lookup_insert_eq. destruct (d !! k) as [x|] eqn:Hk; simpl.
    + symmetry. by apply lookup_union_Some_l.
    + rewrite lookup_union_r by done. by rewrite lookup_singleton_eq.
  - rewrite lookup_insert_ne by done.
    destruct (d !! k') as [x|] eqn:Hk'.
    + symmetry. by apply lookup_union_Some_l.
    + rewrite lookup_union_r by done. by rewrite lookup_singleton_ne.
Qed.

Lemma fold_setdefault (items : list (string * value)) (d : dict) :
  fold_left (λ (d : dict) (kv : string * value), <[kv.1 := default kv.2 (d !! kv.1)]> d)
    items d
  = d ∪ list_to_map items.
Proof.
  revert d. induction items as [|[k v] items IH]; intros d; simpl.
  - by rewrite (right_id_L ∅ (∪)).
  - rewrite IH, setdefault_union, <- (assoc_L (∪)).
    by rewrite <- insert_union_singleton_l.
Qed.

Lemma fold_setdefault_at (items : list (string * value)) (l : loc) (h : store)
    (d : dict) :
  h !! l = Some d →
  fold_left (setdefault_at l) items h = <[l := d ∪ list_to_map items]> h.
Proof.
  revert h d. induction items as [|[k v] items IH]; intros h d Hl; simpl.
  - rewrite (right_id_L ∅ (∪)). symmetry. by apply insert_id.
  - unfold setdefault_at at 2. rewrite Hl. simpl.
    rewrite (IH _ (<[k := default v (d !! k)]> d)) by apply lookup_insert_eq.
    rewrite insert_insert_eq, setdefault_union, <- (assoc_L (∪)).
    by rewrite <- insert_union_singleton_l.
Qed.

(** The loop over the global parameters leaves in [kwargs] its own entries
    and, for the other keys, those of the global parameters. *)
Lemma merge_kwargs_spec (g : loc) (sp : step_spec) (h : store) (gp kw0 : dict) :
  h !! g = Some gp → step_kwargs sp h = Some kw0 →
  ∃ h', merge_kwargs g (kwargs sp) h = Ok (kw0 ∪ gp, h') ∧ h' !! g = Some gp.
Proof.
  unfold step_kwargs, merge_kwargs. intros Hg Hkw.
  destruct (kwargs sp) as [l|].
  - exists (<[l := kw0 ∪ gp]> h). unfold merge_at. rewrite Hg, Hkw.
    rewrite (fold_setdefault_at _ _ _ kw0), list_to_map_to_list by done.
    rewrite lookup_insert_eq. split; [done|].
    destruct (decide (l = g)) as [->|Hne].
    + rewrite lookup_insert_eq. simplify_eq. by rewrite (idemp_L (∪)).
    + by rewrite lookup_insert_ne.
  - exists h. injection Hkw as <-. unfold merge_fresh. rewrite Hg.
    by rewrite fold_setdefault, list_to_map_to_list.
Qed.

Lemma merge_kwargs_globals (g : loc) (kw : option loc) (h h' : store) (r : dict) :
  merge_kwargs g kw h = Ok (r, h') → h' !! g = h !! g.
Proof.
  unfold merge_kwargs. destruct kw as [l|].
  - unfold merge_at. destruct (h !! g) as [gp|] eqn:Hg; [|discriminate].
    destruct (h !! l) as [d|] eqn:Hl; [|discriminate].
    rewrite (fold_setdefault_at _ _ _ d), list_to_map_to_list by done.
    rewrite lookup_insert_eq. intros [= <- <-].
    destruct (decide (l = g)) as [->|Hne].
    + rewrite lookup_insert_eq. simplify_eq. by rewrite (idemp_L (∪)).
    + by rewrite lookup_insert_ne.
  - unfold merge_fresh. destruct (h !! g) eqn:Hg; [|discriminate].
    by intros [= _ <-].
Qed.

(** *** The dicts through the build *)

Lemma union_globals_idemp (d gp : dict) : d ∪ gp ∪ gp = d ∪ gp.
Proof. by rewrite <- (assoc_L (∪)), (idemp_L (∪)). Qed.

Lemma merged_store_refl (gp : dict) (h : store) : merged_store gp h h.
Proof. intros l. by left. Qed.

Lemma merged_store_trans (gp : dict) (h1 h2 h3 : store) :
  merged_store gp h1 h2 → merged_store gp h2 h3 → merged_store gp h1 h3.
Proof.
  intros H12 H23 l. destruct (H23 l) as [E|(d & Hd & E)].
  - rewrite E. apply H12.
  - destruct (H12 l) as [E'|(d' & Hd' & E')].
    + right. exists d. by rewrite <- E'.
    + right. exists d'. split; [done|]. rewrite E. rewrite E' in Hd.
      injection Hd as <-. by rewrite union_globals_idemp.
Qed.

Lemma merged_store_keeps (gp : dict) (h h' : store) (l : loc) (d : dict) :
  merged_store gp h h' → h !! l = Some (d ∪ gp) → h' !! l = Some (d ∪ gp).
Proof.
  intros Hm Hl. destruct (Hm l) as [E|(d' & Hd' & E)]; [congruence|].
  rewrite E. rewrite Hl in Hd'. injection Hd' as <-.
  by rewrite union_globals_idemp.
Qed.

(** The keyword arguments of a step merge to the same dict before and
    after other steps were built. *)
Lemma merged_store_kwargs (gp : dict) (h h' : store) (sp : step_spec) :
  merged_store gp h h' →
  (∀ kw', step_kwargs sp h' = Some kw' →
     ∃ kw0, step_kwargs sp h = Some kw0 ∧ kw' ∪ gp = kw0 ∪ gp)
  ∧ (∀ kw0, step_kwargs sp h = Some kw0 →
       ∃ kw', step_kwargs sp h' = Some kw' ∧ kw' ∪ gp = kw0 ∪ gp).
Proof.
  intros Hm. unfold step_kwargs. destruct (kwargs sp) as [l|].
  - destruct (Hm l) as [E|(d & Hd & E)]; rewrite E.
    + split; intros kw Hkw; by exists kw.
    + rewrite Hd. split.
      * intros kw' [= <-]. exists d. by rewrite union_globals_idemp.
      * intros kw0 [= <-]. exists (d ∪ gp). by rewrite union_globals_idemp.
  - split; intros kw Hkw; by exists kw.
Qed.


Section BuildProperties.

Variable load_class : string → outcome pyclass.

Lemma construct_globals (g : loc) (sp : step_spec) (h : store) :
  (construct load_class g sp h).2 !! g = h !! g.
Proof.
  unfold construct.
  destruct (merge_kwargs g (kwargs sp) h) as [[kw h']|e|] eqn:Hm; [|done..].
  simpl. by eapply merge_kwargs_globals.
Qed.

Lemma construct_all_globals (g : loc) (specs : list step_spec) (acc : list step)
    (h : store) :
  (construct_all load_class g specs acc h).2 !! g = h !! g.
Proof.
  revert acc h. induction specs as [|sp specs IH]; intros acc h; [done|].
  simpl. pose proof (construct_globals g sp h) as Hc.
  destruct (construct load_class g sp h) as [[st|e|] h']; simpl in *;
    [|done..].
  by rewrite IH.
Qed.

Lemma build_globals (self : Pipeline) (pipeline_spec static_spec : list step_spec)
    (g : loc) (h : store) :
  (build load_class self pipeline_spec static_spec g h).2 !! g = h !! g.
Proof.
  unfold build.
  pose proof (construct_all_globals g static_spec [] h) as H1.
  destruct (construct_all load_class g static_spec [] h) as [[r1 static] h1].
  simpl in H1.
  destruct r1 as [[]|e|]; [|done..].
  pose proof (construct_all_globals g pipeline_spec [] h1) as H2.
  destruct (construct_all load_class g pipeline_spec [] h1) as [[r2 steps] h2].
  simpl in H2.
  destruct r2 as [[]|e|]; simpl; congruence.
Qed.

(** The construction of one step: the class is called with the merged
    keyword arguments, and the dict of the step holds them afterwards. *)
Lemma construct_step (g : loc) (sp : step_spec) (h : store) (gp kw : dict) :
  h !! g = Some gp → step_kwargs sp h = Some kw →
  ∃ h',
    construct load_class g sp h
    = ((let* cls := load_class (class_name sp) in
        let* i := cls (default [] (args sp)) (kw ∪ gp) in
        Ok (mk_step sp i)), h')
    ∧ h' !! g = Some gp
    ∧ merged_store gp h h'
    ∧ (∀ l, kwargs sp = Some l → h' !! l = Some (kw ∪ gp))
    ∧ (kwargs sp = None ∨ kw ∪ gp = kw → h' = h).
Proof.
  intros Hg Hkw.
  destruct (merge_kwargs_spec g sp h gp kw Hg Hkw) as (h' & Hm & Hg').
  exists h'. unfold construct. rewrite Hm. split; [done|]. split; [done|].
  unfold step_kwargs, merge_kwargs in *. destruct (kwargs sp) as [l|].
  - unfold merge_at in Hm. rewrite Hg, Hkw in Hm.
    rewrite (fold_setdefault_at _ _ _ kw), list_to_map_to_list in Hm by done.
    rewrite lookup_insert_eq in Hm. injection Hm as <-.
    split; [|split].
    + intros l'. destruct (decide (l' = l)) as [->|Hne].
      * right. exists kw. by rewrite lookup_insert_eq.
      * left. by rewrite lookup_insert_ne.
    + intros l' [= <-]. apply lookup_insert_eq.
    + intros [?| ->]; [done|]. by apply insert_id.
  - unfold merge_fresh in Hm. rewrite Hg in Hm. injection Hm as _ <-.
    split; [apply merged_store_refl|]. split; [done|done].
Qed.

Lemma construct_unmodelled (g : loc) (sp : step_spec) (h : store) (gp : dict) :
  h !! g = Some gp → step_kwargs sp h = None →
  construct load_class g sp h = (Unmodelled, h).
Proof.
  intros Hg Hkw. unfold construct, merge_kwargs, step_kwargs in *.
  destruct (kwargs sp) as [l|]; [|discriminate].
  unfold merge_at. by rewrite Hg, Hkw.
Qed.

(** A loop of [build], run on a store [h0] that earlier loops made of [h]:
    the steps that it has built, and the dicts that it has written. *)
Lemma construct_all_steps (g : loc) (gp : dict) (h : store)
    (specs : list step_spec) :
  ∀ (acc : list step) (h0 : store),
    h0 !! g = Some gp → merged_store gp h h0 →
    ∃ (built rest : list step_spec) (new : list step),
      specs = built ++ rest
      ∧ (construct_all load_class g specs acc h0).1.2 = acc ++ new
      ∧ Forall2 (built_step load_class gp h) built new
      ∧ (construct_all load_class g specs acc h0).2 !! g = Some gp
      ∧ merged_store gp h (construct_all load_class g specs acc h0).2
      ∧ merged_store gp h0 (construct_all load_class g specs acc h0).2
      ∧ (∀ sp l kw0, sp ∈ built → kwargs sp = Some l → h !! l = Some kw0 →
           (construct_all load_class g specs acc h0).2 !! l = Some (kw0 ∪ gp))
      ∧ match (construct_all load_class g specs acc h0).1.1 with
        | Ok _ => rest = []
        | Raise e =>
            ∃ sp rest' kw0,
              rest = sp :: rest' ∧ step_kwargs sp h = Some kw0
              ∧ (load_class (class_name sp) = Raise e
                 ∨ ∃ cls, load_class (class_name sp) = Ok cls
                          ∧ cls (default [] (args sp)) (kw0 ∪ gp) = Raise e)
              ∧ (∀ l, kwargs sp = Some l →
                   (construct_all load_class g specs acc h0).2 !! l
                   = Some (kw0 ∪ gp))
        | Unmodelled => True
        end.
Proof.
  induction specs as [|sp specs IH]; intros acc h0 Hg Hm.
  { exists [], [], []. simpl. rewrite app_nil_r.
    split; [done|]. split; [done|]. split; [constructor|]. split; [done|].
    split; [done|]. split; [apply merged_store_refl|].
    split; [intros sp l kw0 Hsp; by apply elem_of_nil in Hsp|done]. }
  cbn [construct_all].
  destruct (step_kwargs sp h0) as [kw'|] eqn:Hkw'.
  2:{ rewrite (construct_unmodelled g sp h0 gp Hg Hkw').
      exists [], (sp :: specs), []. simpl. rewrite app_nil_r.
      split; [done|]. split; [done|]. split; [constructor|]. split; [done|].
      split; [done|]. split; [apply merged_store_refl|].
      split; [intros sp' l kw0 Hsp; by apply elem_of_nil in Hsp|done]. }
  destruct (proj1 (merged_store_kwargs gp h h0 sp Hm) kw' Hkw')
    as (kw0 & Hkw0 & Ekw).
  destruct (construct_step g sp h0 gp kw' Hg Hkw')
    as (h1 & Hc & Hg1 & Hm1 & Hl1 & _).
  rewrite Hc, Ekw.
  assert (Hl1' : ∀ l, kwargs sp = Some l → h1 !! l = Some (kw0 ∪ gp)).
  { intros l Hl. rewrite <- Ekw. by apply Hl1. }
  destruct (load_class (class_name sp)) as [cls|e|] eqn:Hcls; simpl.
  2:{ exists [], (sp :: specs), []. simpl. rewrite app_nil_r.
      split; [done|]. split; [done|]. split; [constructor|]. split; [done|].
      split; [by eapply merged_store_trans|]. split; [done|].
      split; [intros sp' l k0 Hsp; by apply elem_of_nil in Hsp|].
      exists sp, specs, kw0. split; [done|]. split; [done|].
      split; [by left|done]. }
  2:{ exists [], (sp :: specs), []. simpl. rewrite app_nil_r.
      split; [done|]. split; [done|]. split; [constructor|]. split; [done|].
      split; [by eapply merged_store_trans|]. split; [done|].
      split; [intros sp' l k0 Hsp; by apply elem_of_nil in Hsp|done]. }
  destruct (cls (default [] (args sp)) (kw0 ∪ gp)) as [i|e|] eqn:Hi; simpl.
  2:{ exists [], (sp :: specs), []. simpl. rewrite app_nil_r.
      split; [done|]. split; [done|]. split; [constructor|]. split; [done|].
      split; [by eapply merged_store_trans|]. split; [done|].
      split; [intros sp' l k0 Hsp; by apply elem_of_nil in Hsp|].
      exists sp, specs, kw0. split; [done|]. split; [done|].
      split; [right; by exists cls|done]. }
  2:{ exists [], (sp :: specs), []. simpl. rewrite app_nil_r.
      split; [done|]. split; [done|]. split; [constructor|]. split; [done|].
      split; [by eapply merged_store_trans|]. split; [done|].
      split; [intros sp' l k0 Hsp; by apply elem_of_nil in Hsp|done]. }
  assert (Hm01 : merged_store gp h h1) by (by eapply merged_store_trans).
  destruct (IH (acc ++ [mk_step sp i]) h1 Hg1 Hm01)
    as (built & rest & new & Hspecs & Hacc & Hbuilt & Hg' & Hm' & Hm1' & Hdicts & Hr).
  exists (sp :: built), rest, (mk_step sp i :: new).
  split; [by rewrite Hspecs|].
  split; [by rewrite Hacc, <- app_assoc|].
  split.
  { constructor; [|done]. split; [done|]. by exists kw0, cls. }
  split; [done|]. split; [done|].
  split; [by eapply merged_store_trans|].
  split; [|done].
  intros sp' l k0 Hsp Hl Hk0. apply elem_of_cons in Hsp as [->|Hsp].
  - eapply merged_store_keeps; [exact Hm1'|].
    unfold step_kwargs in Hkw0. rewrite Hl, Hk0 in Hkw0.
    injection Hkw0 as ->. by apply Hl1'.
  - by eapply Hdicts.
Qed.

(** Conversely the loop builds the steps whose classes return. *)
Lemma construct_all_builds (g : loc) (gp : dict) (h : store)
    (specs : list step_spec) (new : list step) :
  Forall2 (built_step load_class gp h) specs new →
  ∀ (acc : list step) (h0 : store),
    h0 !! g = Some gp → merged_store gp h h0 →
    (construct_all load_class g specs acc h0).1 = (Ok (), acc ++ new).
Proof.
  induction 1 as [|sp st specs new (Hsp & kw0 & cls & Hkw0 & Hcls & Hi) _ IH];
    intros acc h0 Hg Hm.
  { simpl. by rewrite app_nil_r. }
  cbn [construct_all].
  destruct (proj2 (merged_store_kwargs gp h h0 sp Hm) kw0 Hkw0)
    as (kw' & Hkw' & Ekw).
  destruct (construct_step g sp h0 gp kw' Hg Hkw')
    as (h1 & Hc & Hg1 & Hm1 & _).
  rewrite Hc, Ekw, Hcls. simpl. rewrite Hi. simpl.
  assert (mk_step sp (instance st) = st) as -> by (destruct st; simpl in *; by subst).
  rewrite IH; [by rewrite <- app_assoc|done|by eapply merged_store_trans].
Qed.


(** C5. [Pipeline.build] and the global parameters.
    - For a step, the keyword arguments that its class is called with are
      the step's own keyword arguments together with the global parameters:
      at a key that the step gives, the step's value; at any other key, the
      global value. The dict of the global parameters has the same contents
      after the merge, also when the step's [kwargs] is that very dict.
    - When [build] returns, the object holds, for every configured static
      step and step of the pipeline, in order, the configuration with the
      instance that its class returned for these merged keyword arguments,
      and the global parameters as they were.
    - Conversely, when every class returns an instance for the merged
      keyword arguments of its step, [build] returns, with these instances.
    - The dict of the global parameters has the same contents after the
      build, completed or not. *)
Theorem build_merges_global_parameters :
  (∀ (g : loc) (sp : step_spec) (h : store) (gp kw0 : dict),
     h !! g = Some gp → step_kwargs sp h = Some kw0 →
     ∃ (merged : dict) (h' : store),
       merge_kwargs g (kwargs sp) h = Ok (merged, h')
       ∧ construct load_class g sp h
         = ((let* cls := load_class (class_name sp) in
             let* i := cls (default [] (args sp)) merged in
             Ok (mk_step sp i)), h')
       ∧ merged = kw0 ∪ gp
       ∧ (∀ k v, kw0 !! k = Some v → merged !! k = Some v)
       ∧ (∀ k, kw0 !! k = None → merged !! k = gp !! k)
       ∧ h' !! g = Some gp)
  ∧ (∀ (self self' : Pipeline) (pipeline_spec static_spec : list step_spec)
       (g : loc) (h h' : store) (gp : dict),
       h !! g = Some gp →
       build load_class self pipeline_spec static_spec g h = (Ok (), self', h') →
       ∃ static steps : list step,
         self' = mk_Pipeline (recording_id self) (Some static) (Some steps) (Some g)
         ∧ Forall2 (built_step load_class gp h) static_spec static
         ∧ Forall2 (built_step load_class gp h) pipeline_spec steps
         ∧ h' !! g = Some gp)
  ∧ (∀ (self : Pipeline) (pipeline_spec static_spec : list step_spec)
       (g : loc) (h : store) (gp : dict) (static steps : list step),
       h !! g = Some gp →
       Forall2 (built_step load_class gp h) static_spec static →
       Forall2 (built_step load_class gp h) pipeline_spec steps →
       ∃ h' : store,
         build load_class self pipeline_spec static_spec g h
         = (Ok (),
            mk_Pipeline (recording_id self) (Some static) (Some steps) (Some g),
            h')
         ∧ h' !! g = Some gp)
  ∧ (∀ (self : Pipeline) (pipeline_spec static_spec : list step_spec) (g : loc)
       (h : store),
       (build load_class self pipeline_spec static_spec g h).2 !! g = h !! g).
Proof.
  split; [|split; [|split; [|apply build_globals]]].
  - intros g sp h gp kw0 Hg Hkw.
    destruct (merge_kwargs_spec g sp h gp kw0 Hg Hkw) as (h' & Hm & Hg').
    exists (kw0 ∪ gp), h'. split; [done|].
    split; [unfold construct; by rewrite Hm|]. split; [done|].
    split; [intros k v Hk; by apply lookup_union_Some_l|].
    split; [intros k Hk; by apply lookup_union_r|done].
  - intros self self' pipeline_spec static_spec g h h' gp Hg. unfold build.
    destruct (construct_all_steps g gp h static_spec [] h Hg
                (merged_store_refl gp h))
      as (b1 & r1 & n1 & Hs1 & Ha1 & Hb1 & Hg1 & Hm1 & _ & _ & Hr1).
    destruct (construct_all load_class g static_spec [] h) as [[o1 static] h1].
    simpl in *. destruct o1 as [[]|e|]; [|by intros [=]..].
    subst r1 static. rewrite app_nil_r in Hs1. subst b1.
    destruct (construct_all_steps g gp h pipeline_spec [] h1 Hg1 Hm1)
      as (b2 & r2 & n2 & Hs2 & Ha2 & Hb2 & Hg2 & _ & _ & _ & Hr2).
    destruct (construct_all load_class g pipeline_spec [] h1) as [[o2 steps] h2].
    simpl in *. destruct o2 as [[]|e|]; [|by intros [=]..].
    subst r2 steps. rewrite app_nil_r in Hs2. subst b2.
    intros [= <- <-]. by exists n1, n2.
  - intros self pipeline_spec static_spec g h gp static steps Hg Hst Hpi.
    unfold build.
    pose proof (construct_all_builds g gp h static_spec static Hst [] h Hg
                  (merged_store_refl gp h)) as H1.
    destruct (construct_all_steps g gp h static_spec [] h Hg
                (merged_store_refl gp h))
      as (_ & _ & _ & _ & _ & _ & Hg1 & Hm1 & _).
    destruct (construct_all load_class g static_spec [] h) as [[o1 st1] h1].
    simpl in *. injection H1 as -> ->.
    pose proof (construct_all_builds g gp h pipeline_spec steps Hpi [] h1 Hg1
                  Hm1) as H2.
    pose proof (construct_all_globals g pipeline_spec [] h1) as Hg2.
    destruct (construct_all load_class g pipeline_spec [] h1) as [[o2 st2] h2].
    simpl in *. injection H2 as -> ->.
    exists h2. split; [done|]. by rewrite Hg2.
Qed.

End BuildProperties.

(** Two steps, the first with its own [n_skip] of 7 and [n] of 3, under
    global parameters with an [n_skip] of 2: the instance of the first is
    made with the step's [n_skip]. *)
Lemma build_merges_global_parameters_witness :
  let self := mk_Pipeline "recording" None None None in
  let running :=
    mk_step running_spec_step
      (RunningMeanStd_instance
         (RunningMeanStd.mk (VInt 3) (VInt 7) None None None)) in
  ∃ h' : store,
    build example_load_class self [running_spec_step; zscore_spec_step] []
      1%positive example_store
    = (Ok (),
       mk_Pipeline "recording" (Some []) (Some [running; zscore_step])
         (Some 1%positive),
       h')
    ∧ h' !! 1%positive = example_store !! 1%positive.
Proof.
  intros self running.
  destruct (build_merges_global_parameters example_load_class) as (_ & _ & H & _).
  destruct (H self [running_spec_step; zscore_spec_step] [] 1%positive
              example_store
              (<["n_skip" := VInt 2]> (<["surface" := VStr "S1"]> ∅))%string
              [] [running; zscore_step]) as (h' & Hb & Hg).
  - reflexivity.
  - constructor.
  - constructor; [|constructor; [|constructor]].
    + split; [reflexivity|]. eexists _, _.
      split; [reflexivity|]. split; reflexivity.
    + split; [reflexivity|]. eexists _, _.
      split; [reflexivity|]. split; reflexivity.
  - exists h'. split; [exact Hb|]. rewrite Hg. reflexivity.
Defined.

Section BuildFailure.

Variable load_class : string → outcome pyclass.
Variable register : Pipeline → outcome unit.

Lemma construct_spec (g : loc) (sp : step_spec) (h h' : store) (st : step) :
  construct load_class g sp h = (Ok st, h') → spec st = sp.
Proof.
  unfold construct.
  destruct (merge_kwargs g (kwargs sp) h) as [[kw h1]|e|]; try discriminate.
  destruct (load_class (class_name sp)) as [cls|e|]; try discriminate. simpl.
  destruct (cls _ kw) as [i|e|]; try discriminate. simpl.
  by intros [= <- _].
Qed.

(** The merge raises nothing: an exception of the construction of a step is
    the one that the loading of its class or the call of the class raised. *)
Lemma construct_raises (g : loc) (sp : step_spec) (h h' : store) (e : exn) :
  construct load_class g sp h = (Raise e, h') →
  load_class (class_name sp) = Raise e
  ∨ ∃ (cls : pyclass) (kw : dict),
      load_class (class_name sp) = Ok cls
      ∧ cls (default [] (args sp)) kw = Raise e.
Proof.
  unfold construct.
  destruct (merge_kwargs g (kwargs sp) h) as [[kw h1]|e0|] eqn:Hm.
  - destruct (load_class (class_name sp)) as [cls|e1|]; simpl.
    + destruct (cls _ kw) as [i|e2|] eqn:Hi; simpl; intros [=].
      subst. right. by exists cls, kw.
    + intros [= -> _]. by left.
    + intros [=].
  - exfalso. unfold merge_kwargs, merge_at, merge_fresh in Hm.
    destruct (kwargs sp) as [l|].
    + destruct (h !! g); [|discriminate]. destruct (h !! l); [|discriminate].
      by destruct (_ !! l).
    + by destruct (h !! g).
  - intros [=].
Qed.

(** A loop of [build] stops at the first step whose construction raises. *)
Lemma construct_all_fails (g : loc) (pre post : list step_spec) (sp : step_spec)
    (acc acc' : list step) (h h1 h2 : store) (e : exn) :
  construct_all load_class g pre acc h = (Ok (), acc', h1) →
  construct load_class g sp h1 = (Raise e, h2) →
  construct_all load_class g (pre ++ sp :: post) acc h = (Raise e, acc', h2).
Proof.
  revert acc h. induction pre as [|sp0 pre IH]; intros acc h Hpre Hsp.
  - simpl in *. injection Hpre as <- <-. by rewrite Hsp.
  - simpl in *.
    destruct (construct load_class g sp0 h) as [[st|e0|] h0];
      try discriminate.
    by apply IH.
Qed.

(** A loop of [build] that completes has built every step, in order. *)
Lemma construct_all_complete (g : loc) (specs : list step_spec)
    (acc steps : list step) (h h' : store) :
  construct_all load_class g specs acc h = (Ok (), steps, h') →
  map spec steps = map spec acc ++ specs.
Proof.
  revert acc h. induction specs as [|sp specs IH]; intros acc h Hall.
  - simpl in Hall. injection Hall as <- _. by rewrite app_nil_r.
  - simpl in Hall.
    destruct (construct load_class g sp h) as [[st|e0|] h0] eqn:Hc;
      try discriminate.
    apply IH in Hall. rewrite Hall, map_app. simpl.
    rewrite (construct_spec _ _ _ _ _ Hc). by rewrite <- app_assoc.
Qed.

(** C6, as the code has it. When the construction of a step raises during
    [Pipeline.build], among the static steps or among the steps of the
    pipeline:
    - the exception is the one that the loading of the class or the call of
      the class raised, as it is: the code has no StepConstructionError and
      wraps nothing;
    - [build] raises it and the steps after the failing one are not
      constructed; the object on which [build] was called is left with the
      steps that were built before the failure, as its [static_pipeline]
      and its [pipeline] (which a failure among the static steps leaves as
      it was): the partial pipeline is retained on that object;
    - the call [Pipeline(...)], which builds a new object, raises the
      exception and yields no object, [register] not being reached.
    A pipeline object that the call [Pipeline(...)] does yield holds a step
    for every configured step, in order, and has been registered. *)
Theorem build_aborts_on_failure :
  (∀ (self : Pipeline) (pipeline_spec static_spec : list step_spec) (g : loc)
     (h : store) (pre post : list step_spec) (sp : step_spec)
     (acc : list step) (h1 h2 : store) (e : exn),
     static_spec = pre ++ sp :: post →
     construct_all load_class g pre [] h = (Ok (), acc, h1) →
     construct load_class g sp h1 = (Raise e, h2) →
     build load_class self pipeline_spec static_spec g h
     = (Raise e,
        mk_Pipeline (recording_id self) (Some acc) (pipeline self)
          (global_parameters self),
        h2)
     ∧ map spec acc = pre
     ∧ (∀ rid now,
          Pipeline_new load_class register pipeline_spec g static_spec rid now h
          = (Raise e, h2)))
  ∧ (∀ (self : Pipeline) (pipeline_spec static_spec : list step_spec) (g : loc)
       (h : store) (static : list step) (h0 : store)
       (pre post : list step_spec) (sp : step_spec)
       (acc : list step) (h1 h2 : store) (e : exn),
       construct_all load_class g static_spec [] h = (Ok (), static, h0) →
       pipeline_spec = pre ++ sp :: post →
       construct_all load_class g pre [] h0 = (Ok (), acc, h1) →
       construct load_class g sp h1 = (Raise e, h2) →
       build load_class self pipeline_spec static_spec g h
       = (Raise e,
          mk_Pipeline (recording_id self) (Some static) (Some acc)
            (global_parameters self),
          h2)
       ∧ map spec static = static_spec ∧ map spec acc = pre
       ∧ (∀ rid now,
            Pipeline_new load_class register pipeline_spec g static_spec rid now h
            = (Raise e, h2)))
  ∧ (∀ (g : loc) (sp : step_spec) (h h' : store) (e : exn),
       construct load_class g sp h = (Raise e, h') →
       load_class (class_name sp) = Raise e
       ∨ ∃ (cls : pyclass) (kw : dict),
           load_class (class_name sp) = Ok cls
           ∧ cls (default [] (args sp)) kw = Raise e)
  ∧ (∀ (pipeline_spec static_spec : list step_spec) (g : loc) (rid : option string)
       (now : string) (h h' : store) (p : Pipeline),
       Pipeline_new load_class register pipeline_spec g static_spec rid now h
       = (Ok p, h') →
       ∃ static steps : list step,
         static_pipeline p = Some static ∧ pipeline p = Some steps
         ∧ map spec static = static_spec ∧ map spec steps = pipeline_spec
         ∧ global_parameters p = Some g
         ∧ register p = Ok ()).
Proof.
  split; [|split; [|split; [apply construct_raises|]]].
  - intros self pipeline_spec static_spec g h pre post sp acc h1 h2 e
      -> Hpre Hsp.
    assert (Hb : ∀ self,
              build load_class self pipeline_spec (pre ++ sp :: post) g h
              = (Raise e,
                 mk_Pipeline (recording_id self) (Some acc) (pipeline self)
                   (global_parameters self), h2)).
    { intros self0. unfold build.
      by rewrite (construct_all_fails g pre post sp [] acc h h1 h2 e). }
    split; [apply Hb|]. split.
    { apply construct_all_complete in Hpre. by rewrite Hpre. }
    intros rid now. unfold Pipeline_new. by rewrite Hb.
  - intros self pipeline_spec static_spec g h static h0 pre post sp acc
      h1 h2 e Hstatic -> Hpre Hsp.
    assert (Hb : ∀ self,
              build load_class self (pre ++ sp :: post) static_spec g h
              = (Raise e,
                 mk_Pipeline (recording_id self) (Some static) (Some acc)
                   (global_parameters self), h2)).
    { intros self0. unfold build. rewrite Hstatic.
      by rewrite (construct_all_fails g pre post sp [] acc h0 h1 h2 e). }
    split; [apply Hb|].
    split; [apply construct_all_complete in Hstatic; by rewrite Hstatic|].
    split; [apply construct_all_complete in Hpre; by rewrite Hpre|].
    intros rid now. unfold Pipeline_new. by rewrite Hb.
  - intros pipeline_spec static_spec g rid now h h' p. unfold Pipeline_new, build.
    destruct (construct_all load_class g static_spec [] h)
      as [[r1 static] h1] eqn:H1.
    destruct r1 as [[]|e|]; try discriminate.
    destruct (construct_all load_class g pipeline_spec [] h1)
      as [[r2 steps] h2] eqn:H2.
    destruct r2 as [[]|e|]; try discriminate.
    destruct (register _) as [[]|e|] eqn:Hreg; try discriminate.
    simpl. intros [= <- <-]. exists static, steps. simpl.
    apply construct_all_complete in H1, H2. done.
Qed.

End BuildFailure.

(** A pipeline of three steps whose last names a class that does not load:
    the two steps before it are constructed, [build] raises the exception of
    the loader and leaves these two steps on the object, and the call of the
    constructor returns no pipeline. *)
Lemma build_aborts_on_failure_witness :
  let self := mk_Pipeline "recording" None None None in
  let specs := [running_spec_step; zscore_spec_step; unknown_spec_step] in
  ∃ (acc : list step) (h' : store),
    build example_load_class self specs [] 1%positive example_store
    = (Raise (CustomError "no class realtimefmri.preprocess.Missing"),
       mk_Pipeline "recording" (Some []) (Some acc) None, h')
    ∧ map spec acc = [running_spec_step; zscore_spec_step]
    ∧ Pipeline_new example_load_class (λ _, Ok ()) specs 1%positive [] None
        "20180101_0000" example_store
      = (Raise (CustomError "no class realtimefmri.preprocess.Missing"), h').
Proof.
  intros self specs.
  destruct (build_aborts_on_failure example_load_class (λ _, Ok ()))
    as (_ & H & _).
  eexists _, _.
  edestruct (H self specs [] 1%positive example_store [] example_store
               [running_spec_step; zscore_spec_step] [] unknown_spec_step)
    as (Hb & _ & Hacc & Hnew); [reflexivity..|].
  split; [exact Hb|]. split; [exact Hacc|]. apply Hnew.
Defined.

(** C6 as the specification words it fails: the exception is the one of the
    loader, no StepConstructionError, and a partial pipeline is retained and
    runs. [build] on a pipeline object, for a configuration whose second
    step names a class that does not load, raises and leaves the object with
    the first step alone; [process] on that object runs this step. *)
Lemma build_retains_partial_pipeline :
  let self := mk_Pipeline "recording" None None None in
  let h : store := <[3%positive := example_frame]> example_store in
  let partial := mk_Pipeline "recording" (Some []) (Some [zscore_step]) None in
  build example_load_class self [zscore_spec_step; unknown_spec_step] []
    1%positive h
  = (Raise (CustomError "no class realtimefmri.preprocess.Missing"), partial, h)
  ∧ process partial 3%positive h
    = (Ok 3%positive, partial,
       <[3%positive := <["z"%string := VArray (vector [0])]> example_frame]> h).
Proof. split; reflexivity. Qed.

(** * Further properties *)

(** ** Pipeline.process: order, errors, what is written *)

(** X1. [process] runs the steps in the declared order, each on the frame as the
    steps before it left it: once the steps [pre] have run, what follows is
    the run of the steps after them on the store that [pre] produced. *)
Theorem process_steps_in_order (self : Pipeline) (pre post pre' : list step)
    (l : loc) (h h1 : store) (d0 : dict) :
  h !! l = Some d0 → pack_image_number d0 = Ok () →
  pipeline self = Some (pre ++ post) →
  process_steps pre l h = (Ok (), pre', h1) →
  process self l h
  = (let '(r, post', h2) := process_steps post l h1 in
     (let* _ := r in Ok l,
      mk_Pipeline (recording_id self) (static_pipeline self)
        (Some (pre' ++ post')) (global_parameters self),
      h2)).
Proof.
  intros Hl Hpack Hp Hpre. unfold process. rewrite Hl, Hpack, Hp.
  rewrite (process_steps_app _ _ _ _ _ _ Hpre).
  by destruct (process_steps post l h1) as [[r post'] h2].
Qed.

Lemma process_steps_in_order_witness :
  let h : store := {[1%positive := example_frame]} in
  (process example_pipeline 1%positive h).1.1 = Raise (KeyError "absent").
Proof.
  intros h.
  rewrite (process_steps_in_order example_pipeline [zscore_step] [needy_step]
             [zscore_step] 1%positive h
             (<[1%positive := <["z"%string := VArray (vector [0])]> example_frame]> h)
             example_frame); reflexivity.
Defined.

(** X2. Line 197 comes before the loop: a frame without [image_number]
    raises [KeyError]; one whose [image_number] is an array raises the
    [TypeError] of the array's conversion to an index; one whose
    [image_number] is any other value that is not an integer, or an integer
    that does not fit 32 signed bits, raises [struct.error]. In all these
    cases no step has run: the pipeline and the store are as they were. An
    integer that fits passes line 197. *)
Theorem process_needs_image_number (self : Pipeline) (l : loc) (h : store)
    (d : dict) :
  h !! l = Some d →
  (d !! "image_number"%string = None →
   process self l h = (Raise (KeyError "image_number"), self, h))
  ∧ (∀ a, d !! "image_number"%string = Some (VArray a) →
       process self l h = (Raise TypeError, self, h))
  ∧ (∀ v, d !! "image_number"%string = Some v → is_ndarray v = false →
       (∀ z, v = VInt z → ¬ (- 2 ^ 31 ≤ z < 2 ^ 31)) →
       process self l h = (Raise StructError, self, h))
  ∧ (∀ z, d !! "image_number"%string = Some (VInt z) → - 2 ^ 31 ≤ z < 2 ^ 31 →
       pack_image_number d = Ok ()).
Proof.
  intros Hl. split; [|split; [|split]].
  - intros Hk. unfold process, pack_image_number, dict_getitem.
    by rewrite Hl, Hk.
  - intros a Hk. unfold process, pack_image_number, dict_getitem.
    by rewrite Hl, Hk.
  - intros v Hk Harr Hv. unfold process, pack_image_number, dict_getitem.
    rewrite Hl, Hk. simpl.
    destruct v; try done. simpl.
    destruct (Z.leb_spec (- 2 ^ 31) z), (Z.ltb_spec z (2 ^ 31)); try done.
    exfalso. by apply (Hv z).
  - intros z Hk Hz. unfold pack_image_number, dict_getitem. rewrite Hk. simpl.
    destruct (Z.leb_spec (- 2 ^ 31) z), (Z.ltb_spec z (2 ^ 31)); try done; lia.
Qed.

Lemma process_needs_image_number_witness :
  let d : dict := <["image_number"%string := VInt (2 ^ 31)]> ∅ in
  let d' : dict := <["image_number"%string := VArray (vector [3])]> ∅ in
  process example_pipeline 1%positive {[1%positive := d]}
  = (Raise StructError, example_pipeline, {[1%positive := d]})
  ∧ process example_pipeline 1%positive {[1%positive := d']}
    = (Raise TypeError, example_pipeline, {[1%positive := d']}).
Proof.
  intros d d'. split.
  - destruct (process_needs_image_number example_pipeline 1%positive
                {[1%positive := d]} d) as (_ & _ & H & _); [reflexivity|].
    apply (H (VInt (2 ^ 31))); [reflexivity|reflexivity|].
    intros z [= <-]. lia.
  - destruct (process_needs_image_number example_pipeline 1%positive
                {[1%positive := d']} d') as (_ & H & _); [reflexivity|].
    apply (H (vector [3])). reflexivity.
Defined.

(** X3. An exception that a step's [run] raises is raised by [process]: the
    steps after it do not run, the step keeps the state in which [run] left
    its instance, and the frame is as the steps before left it. *)
Theorem process_step_exception (self : Pipeline) (pre post : list step) (st : step)
    (l : loc) (h h1 : store) (d0 d : dict) (pre' : list step)
    (keys : list string) (vs : list value) (e : exn) (i : Instance) :
  h !! l = Some d0 → pack_image_number d0 = Ok () →
  pipeline self = Some (pre ++ st :: post) →
  process_steps pre l h = (Ok (), pre', h1) →
  h1 !! l = Some d → input (spec st) = Some keys →
  lookup_inputs d keys = Ok vs → invoke (instance st) vs = (Raise e, i) →
  process self l h
  = (Raise e,
     mk_Pipeline (recording_id self) (static_pipeline self)
       (Some (pre' ++ mk_step (spec st) i :: post)) (global_parameters self),
     h1).
Proof.
  intros Hl Hpack Hp Hpre Hd Hin Hvs Hrun.
  eapply process_fails_at; try done.
  unfold process_step. by rewrite Hd, Hin, Hvs, Hrun.
Qed.

Lemma process_step_exception_witness :
  let frame : dict :=
    <["image_number" := VInt 0]> (<["x" := VInt 1]> (<["y" := VInt 2]> ∅))%string in
  let st := mk_step (mk_step_spec "running" "RunningMeanStd" None None
                       (Some ["x"]) (Some ["mean"; "std"]))%string
              (RunningMeanStd_instance
                 (RunningMeanStd.mk (VInt 20) (VInt 5) None None None)) in
  let self := mk_Pipeline "recording" None (Some [st; zscore_step]) None in
  process self 1%positive {[1%positive := frame]}
  = (Raise TypeError, self, {[1%positive := frame]}).
Proof.
  intros frame st self.
  apply (process_step_exception self [] [zscore_step] st 1%positive
           {[1%positive := frame]} {[1%positive := frame]} frame frame []
           ["x"%string] [VInt 1] TypeError (instance st)); reflexivity.
Defined.

(** X4. Whatever the outcome of [process], by return or by exception: no dict
    of the store but the frame has changed, the frame has kept every key that
    it had, and the pipeline has the same recording, static steps, global
    parameters and step configurations; only the instances of its steps may
    have changed state. *)
Theorem process_frame_grows (self : Pipeline) (l : loc) (h : store) (d : dict) :
  h !! l = Some d →
  let '(r, self', h') := process self l h in
  (∀ l', l' ≠ l → h' !! l' = h !! l')
  ∧ (∃ d', h' !! l = Some d' ∧ ∀ k, is_Some (d !! k) → is_Some (d' !! k))
  ∧ recording_id self' = recording_id self
  ∧ static_pipeline self' = static_pipeline self
  ∧ global_parameters self' = global_parameters self
  ∧ (fmap (map spec) (pipeline self') = fmap (map spec) (pipeline self)).
Proof.
  intros Hl. pose proof (process_store self l h) as Hs.
  unfold process in *. rewrite Hl in *.
  destruct (pack_image_number d) as [[]|e|];
    [|split; [done|]; split; [by exists d|done]..].
  destruct (pipeline self) as [steps|] eqn:Hp;
    [|split; [done|]; split; [by exists d|]; by rewrite Hp].
  destruct (process_steps_frame steps l h d Hl) as (d' & Hd' & Hk & _ & Hsp).
  destruct (process_steps steps l h) as [[r steps'] h']. simpl in *.
  destruct Hs as [Hs _]. split; [done|]. split; [by exists d'|].
  rewrite Hsp. done.
Qed.

Lemma process_frame_grows_witness :
  let h : store := {[1%positive := example_frame]} in
  ∃ d', (process example_pipeline 1%positive h).2 !! 1%positive = Some d'
        ∧ is_Some (d' !! "x"%string).
Proof.
  intros h.
  pose proof (process_frame_grows example_pipeline 1%positive h example_frame
                eq_refl) as H.
  destruct (process example_pipeline 1%positive h) as [[r self'] h'].
  destruct H as (_ & (d' & Hd' & Hk) & _).
  exists d'. split; [exact Hd'|]. apply Hk. by eexists.
Defined.

(** X5. [process] writes into the frame at the declared output keys only: a key
    that no step of the pipeline declares as an output has, whatever the
    outcome, the value that it had. *)
Theorem process_writes_declared_outputs_only (self : Pipeline) (steps : list step)
    (l : loc) (h : store) (d : dict) (k : string) :
  h !! l = Some d → pipeline self = Some steps →
  (∀ st, st ∈ steps → k ∉ default [] (output (spec st))) →
  ∃ d', (process self l h).2 !! l = Some d' ∧ d' !! k = d !! k.
Proof.
  intros Hl Hp Hk. unfold process. rewrite Hl, Hp.
  destruct (pack_image_number d) as [[]|e|]; [|by exists d..].
  destruct (process_steps_frame steps l h d Hl) as (d' & Hd' & _ & Ho & _).
  destruct (process_steps steps l h) as [[r steps'] h']. simpl in *.
  exists d'. split; [done|]. by apply Ho.
Qed.

Lemma process_writes_declared_outputs_only_witness :
  let h : store := {[1%positive := example_frame]} in
  ∃ d', (process example_pipeline 1%positive h).2 !! 1%positive = Some d'
        ∧ d' !! "x"%string = Some (VArray (vector [5])).
Proof.
  intros h.
  destruct (process_writes_declared_outputs_only example_pipeline
              [zscore_step; needy_step] 1%positive h example_frame "x"%string)
    as (d' & Hd' & Hk); [reflexivity | reflexivity | | ].
  - intros st Hst.
    apply elem_of_cons in Hst as [->|Hst].
    { simpl. intros H. apply elem_of_cons in H as [H|H]; [discriminate H|].
      by apply elem_of_nil in H. }
    apply elem_of_cons in Hst as [->|Hst].
    { simpl. intros H. apply elem_of_cons in H as [H|H]; [discriminate H|].
      by apply elem_of_nil in H. }
    by apply elem_of_nil in Hst.
  - exists d'. split; [exact Hd'|]. rewrite Hk. reflexivity.
Defined.

(** ** Pipeline.build: the step's own dict is written *)

Section BuildInPlace.

Variable load_class : string → outcome pyclass.




End BuildInPlace.


(** ** RunningMeanStd: the window *)

Lemma running_call_run (self : RunningMeanStd.t) (k : Z) (w : nat)
    (v : list float) (i : Z) :
  RunningMeanStd.n_skip self = VInt k →
  RunningMeanStd.run self (running_call w (v, i))
  = if Z.ltb i k then (Ok (running_neutral w), self)
    else RunningMeanStd.update self (VArray (mk_ndarray [w] v)).
Proof.
  intros Hk. unfold RunningMeanStd.run, running_call. rewrite Hk. simpl.
  destruct (Z.ltb i k); [|done]. by rewrite size_vector.
Qed.

Lemma running_state (n : nat) (k : Z) (w : nat) (calls : list (list float * Z)) :
  (1 ≤ n)%nat →
  ∀ (self : RunningMeanStd.t) (hist : list (list float)),
    running_inv n k w self hist → rows_of_width w hist →
    (hist ≠ [] → is_Some (RunningMeanStd.mean self)) →
    Forall (λ c : list float * Z, length c.1 = w) calls →
    let self' := (run_calls RunningMeanStd.run self (map (running_call w) calls)).2 in
    running_inv n k w self' (hist ++ kept_samples k calls)
    ∧ (hist ++ kept_samples k calls ≠ [] → is_Some (RunningMeanStd.mean self')).
Proof.
  intros Hn. induction calls as [|[v i] calls IH];
    intros self hist Hinv Hw Hmean Hc.
  { simpl. by rewrite app_nil_r. }
  apply Forall_cons in Hc as [Hv Hc]. simpl in Hv.
  pose proof Hinv as (Hself_n & Hself_k & Hwin).
  cbn [map run_calls kept_samples].
  rewrite (running_call_run self k w v i Hself_k).
  destruct (Z.ltb i k).
  - specialize (IH self hist Hinv Hw Hmean Hc).
    by destruct (run_calls _ self _) as [rs self'].
  - destruct (running_inv_window n w hist Hn Hw) as [Hne Hww].
    set (a := mk_ndarray [w] v).
    assert (Hsz : size a = w) by apply size_vector.
    assert (Hwf : wf_ndarray a) by (unfold wf_ndarray; by rewrite Hsz).
    pose proof (update_window self a w _ v Hwf Hsz (as_row_vector w v Hv)
                  Hwin Hne Hww) as Hup.
    cbv zeta in Hup. rewrite Hup. clear Hup.
    match goal with
    | |- context [run_calls _ ?s _] => specialize (IH s (hist ++ [v]))
    end.
    replace (hist ++ v :: kept_samples k calls)
      with ((hist ++ [v]) ++ kept_samples k calls) by (by rewrite <- app_assoc).
    destruct (run_calls _ _ _) as [rs self'] eqn:Hrc. simpl in *. apply IH.
    + split; [done|]. split; [done|]. unfold RunningMeanStd.window. simpl.
      f_equal. rewrite app_assoc. rewrite last_n_snoc; [done|].
      rewrite length_app, length_replicate. lia.
    + apply Forall_app. split; [done|]. by constructor.
    + intros _. by eexists.
    + done.
Qed.

(** X7. The window after any sequence of calls on a new instance with a window
    of [n >= 1] slots: it still has [n] rows of the width of the samples; the
    last of them are the last [n] samples that were not skipped, in their
    order of arrival, and the rows before them, if fewer than [n] samples came
    in, are the unfilled ones. The skipped calls have left no trace. *)
Theorem RunningMeanStd_window_contents (self : RunningMeanStd.t) (n : nat) (k : Z)
    (w : nat) (calls : list (list float * Z)) :
  RunningMeanStd.n self = VInt (Z.of_nat n) → (1 ≤ n)%nat →
  RunningMeanStd.n_skip self = VInt k →
  RunningMeanStd.mean self = None →
  Forall (λ c : list float * Z, length c.1 = w) calls →
  let self' := (run_calls RunningMeanStd.run self (map (running_call w) calls)).2 in
  let kept := kept_samples k calls in
  let win := replicate (n - length kept) (replicate w F64.nan) ++ last_n n kept in
  RunningMeanStd.window self' w = Ok win
  ∧ length win = n ∧ rows_of_width w win
  ∧ (kept ≠ [] → RunningMeanStd.samples self' = Some win).
Proof.
  intros Hself_n Hn Hself_k Hm Hc self' kept win.
  destruct (running_state n k w calls Hn self []
              (running_inv_new n k w self Hself_n Hself_k Hm)
              (Forall_nil_2 _) (λ H, False_ind _ (H eq_refl)) Hc)
    as ((_ & _ & Hwin) & Hmean).
  simpl in Hwin, Hmean. fold self' kept in Hwin, Hmean.
  rewrite last_n_padded in Hwin. fold win in Hwin.
  assert (Hkw : rows_of_width w kept).
  { unfold kept. clear -Hc. induction Hc as [|[v i] calls Hv _ IH]; [constructor|].
    simpl. destruct (Z.ltb i k); [done|]. by constructor. }
  split; [done|]. split; [|split].
  - unfold win. rewrite length_app, length_replicate, last_n_length. lia.
  - apply Forall_app. split.
    + apply Forall_replicate, length_replicate.
    + by apply Forall_drop.
  - intros Hne. destruct (Hmean Hne) as [m Hm'].
    unfold RunningMeanStd.window in Hwin. rewrite Hm' in Hwin.
    destruct (RunningMeanStd.samples self'); by simplify_eq.
Qed.

(** A window of two slots, [n_skip = 1], and the frames 0 to 3: the first
    is skipped, the last two samples are in the window. *)
Lemma RunningMeanStd_window_contents_witness :
  let calls := [([F64.of_Z 9], 0); ([F64.of_Z 1], 1); ([F64.of_Z 2], 2);
                ([F64.of_Z 3], 3)] in
  RunningMeanStd.samples
    (run_calls RunningMeanStd.run
       (RunningMeanStd.mk (VInt 2) (VInt 1) None None None)
       (map (running_call 1) calls)).2
  = Some [[F64.of_Z 2]; [F64.of_Z 3]].
Proof.
  intros calls.
  destruct (RunningMeanStd_window_contents
              (RunningMeanStd.mk (VInt 2) (VInt 1) None None None) 2%nat 1 1%nat
              calls) as (_ & _ & _ & H);
    [reflexivity | lia | reflexivity | reflexivity | repeat constructor | ].
  rewrite H; [reflexivity|discriminate].
Defined.

(** ** RunningMeanStd: errors *)

(** X8. The constructor takes any [n]; the window size is checked when the
    first frame that is not skipped creates the window (line 723). [n = 0]
    makes an empty window whose last row cannot be assigned: [IndexError],
    with [mean] still unset, so that every later frame that is not skipped
    fails in the same way. A negative [n] is a [ValueError] and an [n] that
    is not an integer a [TypeError], the instance being left as it was. *)
Theorem RunningMeanStd_window_size_checked_late (self : RunningMeanStd.t)
    (inp num : value) (a : ndarray) :
  RunningMeanStd.mean self = None → as_ndarray inp = Some a →
  py_lt num (RunningMeanStd.n_skip self) = Ok false →
  (∀ n k, RunningMeanStd.init [n; k] ∅
          = Ok (RunningMeanStd.mk n k None None None))
  ∧ (RunningMeanStd.n self = VInt 0 →
     ∃ self', RunningMeanStd.run self [inp; num] = (Raise IndexError, self')
              ∧ RunningMeanStd.mean self' = None
              ∧ RunningMeanStd.n self' = VInt 0
              ∧ RunningMeanStd.n_skip self' = RunningMeanStd.n_skip self)
  ∧ (∀ z, RunningMeanStd.n self = VInt z → z < 0 →
       RunningMeanStd.run self [inp; num] = (Raise ValueError, self))
  ∧ ((∀ z, RunningMeanStd.n self ≠ VInt z) →
     RunningMeanStd.run self [inp; num] = (Raise TypeError, self)).
Proof.
  intros Hm Ha Hlt. split; [done|].
  unfold RunningMeanStd.run. rewrite Hlt.
  unfold RunningMeanStd.update. rewrite Hm, Ha.
  split; [|split].
  - intros Hn. rewrite Hn. simpl. eexists. by split.
  - intros z Hn Hz. rewrite Hn. simpl.
    by destruct (Z.ltb_spec z 0); [|lia].
  - intros Hn. destruct (RunningMeanStd.n self); try done. by destruct (Hn z).
Qed.

Lemma RunningMeanStd_window_size_checked_late_witness :
  ∃ self',
    RunningMeanStd.run (RunningMeanStd.mk (VInt 0) (VInt 5) None None None)
      [VArray (vector [1; 2]); VInt 7]
    = (Raise IndexError, self')
    ∧ RunningMeanStd.mean self' = None.
Proof.
  destruct (RunningMeanStd_window_size_checked_late
              (RunningMeanStd.mk (VInt 0) (VInt 5) None None None)
              (VArray (vector [1; 2])) (VInt 7) (vector [1; 2]))
    as (_ & H & _); [reflexivity..|].
  destruct (H eq_refl) as (self' & Hrun & Hm & _).
  exists self'. split; [exact Hrun|exact Hm].
Defined.

(** X9. A sample that does not fit the rows of the window (line 727) raises
    after line 725 has shifted the window: the oldest sample is gone, the
    newest is there twice, and [mean] and [std] are those of the call before.
    The failed call is not undone. *)
Theorem RunningMeanStd_failed_sample_shifts_window (self : RunningMeanStd.t)
    (inp num : value) (m r : list float) (rows : list (list float)) (e : exn) :
  RunningMeanStd.mean self = Some m → RunningMeanStd.samples self = Some rows →
  last rows = Some r →
  py_lt num (RunningMeanStd.n_skip self) = Ok false →
  RunningMeanStd.as_row (length r) inp = Raise e →
  RunningMeanStd.run self [inp; num]
  = (Raise e,
     RunningMeanStd.mk (RunningMeanStd.n self) (RunningMeanStd.n_skip self)
       (Some m) (Some (drop 1 rows ++ [r])) (RunningMeanStd.std self)).
Proof.
  intros Hm Hs Hl Hlt Hrow. unfold RunningMeanStd.run. rewrite Hlt.
  unfold RunningMeanStd.update. rewrite Hm, Hs.
  unfold RunningMeanStd.shift, RunningMeanStd.set_last. rewrite Hl.
  by rewrite last_snoc, Hrow.
Qed.

Lemma RunningMeanStd_failed_sample_shifts_window_witness :
  let rows := [[F64.of_Z 1]; [F64.of_Z 2]; [F64.of_Z 3]] in
  let self := RunningMeanStd.mk (VInt 3) (VInt 0) (Some [F64.of_Z 2])
                (Some rows) (Some [F64.of_Z 1]) in
  RunningMeanStd.samples
    (RunningMeanStd.run self [VArray (vector [4; 5]); VInt 9]).2
  = Some [[F64.of_Z 2]; [F64.of_Z 3]; [F64.of_Z 3]].
Proof.
  intros rows self.
  rewrite (RunningMeanStd_failed_sample_shifts_window self
             (VArray (vector [4; 5])) (VInt 9) [F64.of_Z 2] [F64.of_Z 3] rows
             ValueError); reflexivity.
Defined.

(** ** IncrementalMeanStd: the buffer and reset *)

Lemma incremental_state (sh : list nat) (w : nat) (arrays : list ndarray) :
  foldr Nat.mul 1%nat sh = w →
  Forall (λ a, wf_ndarray a ∧ size a = w) arrays →
  ∀ hist : list (list float),
    (run_calls IncrementalMeanStd.run
       (IncrementalMeanStd.mk (Some sh) (Some (BufferedArray.mk w hist)))
       (map (λ a, [VArray a]) arrays)).2
    = IncrementalMeanStd.mk (Some sh)
        (Some (BufferedArray.mk w (hist ++ map ravel arrays))).
Proof.
  intros Hsh. induction 1 as [|a arrays [Hwf Hsz] _ IH]; intros hist.
  { simpl. by rewrite app_nil_r. }
  cbn [map run_calls].
  rewrite (incremental_later _ (VArray a) a sh (BufferedArray.mk w hist));
    try done.
  2:{ unfold ravel. simpl. by rewrite Hwf. }
  cbn [BufferedArray.width BufferedArray.rows].
  specialize (IH (hist ++ [ravel a])).
  destruct (run_calls _ _ _) as [rs s]. simpl in *.
  by rewrite IH, <- app_assoc.
Qed.

Lemma incremental_state_new (self : IncrementalMeanStd.t) (a0 : ndarray)
    (rest : list ndarray) :
  IncrementalMeanStd.data self = None → wf_ndarray a0 →
  Forall (λ a, wf_ndarray a ∧ size a = size a0) rest →
  (run_calls IncrementalMeanStd.run self (map (λ a, [VArray a]) (a0 :: rest))).2
  = IncrementalMeanStd.mk (Some (shape a0))
      (Some (BufferedArray.mk (size a0) (map ravel (a0 :: rest)))).
Proof.
  intros Hd Hwf Hrest. cbn [map run_calls].
  rewrite (incremental_first self (VArray a0) a0) by done.
  pose proof (incremental_state (shape a0) (size a0) rest eq_refl Hrest
                [ravel a0]) as H.
  destruct (run_calls _ _ _) as [rs s]. simpl in *. by rewrite H.
Qed.

(** X10. The buffer keeps every sample: after the calls on a first array and on
    later arrays of its size (of any shape), the instance holds the shape of
    the first and, in the order of the calls, the flattened samples of all of
    them, one row for each call. A call on a value that is no numpy object
    raises [AttributeError] and leaves the instance as it was. *)
Theorem IncrementalMeanStd_buffer_holds_every_sample :
  (∀ (self : IncrementalMeanStd.t) (a0 : ndarray) (rest : list ndarray),
     IncrementalMeanStd.data self = None → wf_ndarray a0 →
     Forall (λ a, wf_ndarray a ∧ size a = size a0) rest →
     (run_calls IncrementalMeanStd.run self (map (λ a, [VArray a]) (a0 :: rest))).2
     = IncrementalMeanStd.mk (Some (shape a0))
         (Some (BufferedArray.mk (size a0) (map ravel (a0 :: rest)))))
  ∧ (∀ (self : IncrementalMeanStd.t) (v : value),
       as_ndarray v = None →
       IncrementalMeanStd.run self [v] = (Raise AttributeError, self)).
Proof.
  split.
  - apply incremental_state_new.
  - intros self v Hv. unfold IncrementalMeanStd.run. by rewrite Hv.
Qed.

(** A 2 x 2 array, then a vector of four elements. *)
Lemma IncrementalMeanStd_buffer_holds_every_sample_witness :
  let a0 := mk_ndarray [2; 2]%nat (map F64.of_Z [1; 2; 3; 4]) in
  (run_calls IncrementalMeanStd.run IncrementalMeanStd.new
     (map (λ a, [VArray a]) [a0; vector [5; 6; 7; 8]])).2
  = IncrementalMeanStd.mk (Some [2; 2]%nat)
      (Some (BufferedArray.mk 4 [map F64.of_Z [1; 2; 3; 4];
                                 map F64.of_Z [5; 6; 7; 8]])).
Proof.
  intros a0.
  destruct IncrementalMeanStd_buffer_holds_every_sample as [H _].
  rewrite (H IncrementalMeanStd.new a0 [vector [5; 6; 7; 8]]);
    [reflexivity | reflexivity | reflexivity | ].
  repeat constructor.
Defined.

(** X11. [reset] deletes the buffer and nothing else: on an instance without a
    buffer it raises [AttributeError] ([del] of a missing attribute); after
    it, the next call is a first call again: it returns [(None, None)] and
    starts a buffer that holds its sample alone, with the shape of that
    sample, so that the samples from before the reset enter no later
    statistics. *)
Theorem IncrementalMeanStd_reset_restarts :
  (∀ self : IncrementalMeanStd.t,
     IncrementalMeanStd.data self = None →
     IncrementalMeanStd.reset self = (Raise AttributeError, self))
  ∧ (∀ (self : IncrementalMeanStd.t) (b : BufferedArray.t) (a0 : ndarray)
       (rest : list ndarray),
       IncrementalMeanStd.data self = Some b → wf_ndarray a0 →
       Forall (λ a, wf_ndarray a ∧ size a = size a0) rest →
       let self1 := (IncrementalMeanStd.reset self).2 in
       (IncrementalMeanStd.reset self).1 = Ok ()
       ∧ IncrementalMeanStd.array_shape self1 = IncrementalMeanStd.array_shape self
       ∧ run_calls IncrementalMeanStd.run self1 (map (λ a, [VArray a]) (a0 :: rest))
         = (incremental_spec (shape a0) (size a0) [] (a0 :: rest),
            IncrementalMeanStd.mk (Some (shape a0))
              (Some (BufferedArray.mk (size a0) (map ravel (a0 :: rest)))))).
Proof.
  split.
  - intros self Hd. unfold IncrementalMeanStd.reset. by rewrite Hd.
  - intros self b a0 rest Hd Hwf Hrest. unfold IncrementalMeanStd.reset.
    rewrite Hd. simpl. split; [done|]. split; [done|].
    set (self1 := IncrementalMeanStd.mk (IncrementalMeanStd.array_shape self) None).
    pose proof (incremental_refines_new self1 a0 rest eq_refl Hwf Hrest) as H1.
    pose proof (incremental_state_new self1 a0 rest eq_refl Hwf Hrest) as H2.
    apply injective_projections; [exact H1 | exact H2].
Qed.

Lemma IncrementalMeanStd_reset_restarts_witness :
  let self := IncrementalMeanStd.mk (Some [1%nat])
                (Some (BufferedArray.mk 1 [[F64.of_Z 100]; [F64.of_Z 200]])) in
  (run_calls IncrementalMeanStd.run (IncrementalMeanStd.reset self).2
     (map (λ a, [VArray a]) [vector [1; 2]; vector [3; 6]])).1
  = [Ok (VTuple [VNone; VNone]);
     Ok (VTuple [VArray (vector [2; 4]); VArray (vector [1; 2])])].
Proof.
  intros self.
  destruct IncrementalMeanStd_reset_restarts as [_ H].
  destruct (H self (BufferedArray.mk 1 [[F64.of_Z 100]; [F64.of_Z 200]])
              (vector [1; 2]) [vector [3; 6]]) as (_ & _ & Hrun);
    [reflexivity | reflexivity | repeat constructor | ].
  rewrite Hrun. vm_compute. reflexivity.
Defined.

(** ** IncrementalMeanStd and ZScore in one pipeline *)

Lemma ZScore_run_arrays (array mean std : ndarray) :
  wf_ndarray array → wf_ndarray mean → wf_ndarray std →
  shape mean = shape array → shape std = shape array →
  ZScore.run [VArray array; VArray mean; VArray std]
  = Ok (ufunc_result
          (mk_ndarray (shape array)
             (zip_with F64.div (zip_with F64.sub (data array) (data mean))
                (data std)))).
Proof.
  intros Ha Hm Hs Hsm Hss.
  set (d := mk_ndarray (shape array) (zip_with F64.sub (data array) (data mean))).
  assert (Hd : wf_ndarray d).
  { unfold wf_ndarray, d, size in *; simpl. rewrite length_zip_with.
    rewrite Hm, Ha, Hsm. lia. }
  unfold ZScore.run, py_sub. rewrite py_arith_numpy by done.
  rewrite (np_binop_same_shape _ _ _ array mean) by done.
  fold d. simpl. rewrite py_truediv_numpy
    by (eapply is_numpy_as_ndarray, as_ndarray_ufunc_result).
  rewrite (np_binop_same_shape _ _ _ d std); try done.
  apply as_ndarray_ufunc_result.
Qed.

Lemma merge_two_outputs (sp : step_spec) (k1 k2 : string) (v1 v2 : value)
    (outp : value) (d : dict) :
  output sp = Some [k1; k2] → normalize outp = [v1; v2] →
  merge_outputs sp outp d = <[k2 := v2]> (<[k1 := v1]> d).
Proof.
  intros Ho Hn. unfold merge_outputs, dict_update, dict_of_zip.
  rewrite Ho, Hn. simpl.
  by rewrite <- !insert_union_l, (left_id_L ∅ (∪)).
Qed.

Lemma merge_one_output (sp : step_spec) (k : string) (outp : value) (d : dict) :
  output sp = Some [k] → is_list_or_tuple outp = false →
  merge_outputs sp outp d = <[k := outp]> d.
Proof.
  intros Ho Hn. unfold merge_outputs, dict_update, dict_of_zip. rewrite Ho.
  assert (normalize outp = [outp]) as -> by (by destruct outp).
  simpl. by rewrite <- insert_union_l, (left_id_L ∅ (∪)).
Qed.

Lemma ufunc_result_not_list (a : ndarray) : is_list_or_tuple (ufunc_result a) = false.
Proof.
  unfold ufunc_result. destruct (shape a); [|done].
  by destruct (data a) as [|x [|y l]].
Qed.

(** The frame after the two steps of [zscore_pipeline], the first returning
    [outp] with the two values [m] and [sd]. *)
Lemma zscore_pipeline_steps (s s' : IncrementalMeanStd.t) (l : loc) (h : store)
    (d : dict) (a : ndarray) (outp m sd z : value) :
  h !! l = Some d → d !! "x"%string = Some (VArray a) →
  IncrementalMeanStd.run s [VArray a] = (Ok outp, s') →
  normalize outp = [m; sd] →
  ZScore.run [VArray a; m; sd] = Ok z → is_list_or_tuple z = false →
  process_steps [statistics_step s; zscore_step] l h
  = (Ok (), [statistics_step s'; zscore_step],
     <[l := <["z"%string := z]>
              (<["std"%string := sd]> (<["mean"%string := m]> d))]> h).
Proof.
  intros Hl Hx Hrun Hn Hz Hzl.
  set (d1 := <["std"%string := sd]> (<["mean"%string := m]> d)).
  assert (H1 : process_step (statistics_step s) l h
               = (Ok (), statistics_step s', <[l := d1]> h)).
  { rewrite (process_step_ok _ l h d ["x"%string] [VArray a] outp
               (IncrementalMeanStd_instance s')); try done.
    - by rewrite (merge_two_outputs _ "mean" "std" m sd).
    - simpl. unfold dict_getitem. by rewrite Hx.
    - unfold invoke, statistics_step, IncrementalMeanStd_instance.
      cbn [instance run_method self state]. by rewrite Hrun. }
  assert (H2 : process_step zscore_step l (<[l := d1]> h)
               = (Ok (), zscore_step, <[l := <["z"%string := z]> d1]> h)).
  { rewrite (process_step_ok _ l _ d1 ["x"; "mean"; "std"]%string
               [VArray a; m; sd] z ZScore_instance); try done.
    - rewrite (merge_one_output _ "z") by done. by rewrite insert_insert_eq.
    - by rewrite lookup_insert_eq.
    - simpl. unfold dict_getitem, d1.
      rewrite lookup_insert_ne, lookup_insert_ne, Hx by done.
      rewrite lookup_insert_ne, lookup_insert_eq by done.
      by rewrite lookup_insert_eq.
    - unfold invoke, zscore_step, ZScore_instance.
      cbn [instance run_method self state]. by rewrite Hz. }
  cbn [process_steps]. by rewrite H1, H2.
Qed.

(** X12. A pipeline of an [IncrementalMeanStd] step and a [ZScore] step that
    reads its results, run by [Pipeline.process] on a frame that holds an
    array under [x] and a valid [image_number].
    - The first frame: the statistics are [None], and [z] is an array of
      zeros in the shape of [x].
    - A later frame of the shape of the first: [mean] and [std] are the
      statistics of every sample so far, this one included, and [z] holds
      [(x[i] - mean[i]) / std[i]] at every index: each image is scored
      against statistics that it is itself part of.
    In both cases [process] returns the frame, and the instance of the
    pipeline has the sample in its buffer. *)
Theorem process_zscore_pipeline (s : IncrementalMeanStd.t) (l : loc) (h : store)
    (d : dict) (a : ndarray) :
  h !! l = Some d → d !! "x"%string = Some (VArray a) → wf_ndarray a →
  pack_image_number d = Ok () →
  (IncrementalMeanStd.data s = None →
   process (zscore_pipeline s) l h
   = (Ok l,
      zscore_pipeline
        (IncrementalMeanStd.mk (Some (shape a))
           (Some (BufferedArray.mk (size a) [ravel a]))),
      <[l := <["z"%string := VArray (np_zeros_like a)]>
               (<["std"%string := VNone]> (<["mean"%string := VNone]> d))]> h))
  ∧ (∀ b : BufferedArray.t,
       IncrementalMeanStd.data s = Some b →
       IncrementalMeanStd.array_shape s = Some (shape a) →
       BufferedArray.width b = size a →
       let hist := BufferedArray.rows b ++ [ravel a] in
       let mean := reduce0 np_mean (size a) hist in
       let std := reduce0 np_std (size a) hist in
       process (zscore_pipeline s) l h
       = (Ok l,
          zscore_pipeline
            (IncrementalMeanStd.mk (Some (shape a))
               (Some (BufferedArray.mk (size a) hist))),
          <[l := <["z"%string :=
                     ufunc_result
                       (mk_ndarray (shape a)
                          (zip_with F64.div (zip_with F64.sub (data a) mean) std))]>
                   (<["std"%string := VArray (mk_ndarray (shape a) std)]>
                      (<["mean"%string := VArray (mk_ndarray (shape a) mean)]> d))]> h)).
Proof.
  intros Hl Hx Hwf Hp. split.
  - intros Hd. unfold process. rewrite Hl, Hp. cbn [pipeline zscore_pipeline].
    rewrite (zscore_pipeline_steps s _ l h d a (VTuple [VNone; VNone]) VNone VNone
               (VArray (np_zeros_like a)) Hl Hx
               (incremental_first s (VArray a) a Hd eq_refl Hwf));
      done.
  - intros b Hd Hsh Hw hist mean std.
    assert (Hrun := incremental_later s (VArray a) a (shape a) b Hd Hsh).
    rewrite Hw in Hrun.
    assert (Hlen : length (ravel a) = size a) by (unfold ravel; by rewrite Hwf).
    specialize (Hrun eq_refl eq_refl Hlen). cbv zeta in Hrun. fold hist in Hrun.
    unfold incremental_statistics in Hrun. fold mean std in Hrun.
    unfold process. rewrite Hl, Hp. cbn [pipeline zscore_pipeline].
    rewrite (zscore_pipeline_steps s _ l h d a _ _ _ _ Hl Hx Hrun eq_refl
               (ZScore_run_arrays a (mk_ndarray (shape a) mean)
                  (mk_ndarray (shape a) std) Hwf
                  ltac:(unfold wf_ndarray, size, mean; simpl;
                        rewrite reduce0_length; exact eq_refl)
                  ltac:(unfold wf_ndarray, size, std; simpl;
                        rewrite reduce0_length; exact eq_refl)
                  eq_refl eq_refl)
               (ufunc_result_not_list _)).
    done.
Qed.

(** The second frame [[3, 6]] after a first [[1, 2]]: mean [[2, 4]], standard
    deviation [[1, 2]], scores [[1, 1]]. *)
Lemma process_zscore_pipeline_witness :
  let s := IncrementalMeanStd.mk (Some [2%nat])
             (Some (BufferedArray.mk 2 [map F64.of_Z [1; 2]])) in
  let d : dict := <["image_number" := VInt 1]>
                    (<["x" := VArray (vector [3; 6])]> ∅)%string in
  let r := process (zscore_pipeline s) 1%positive {[1%positive := d]} in
  r.1.1 = Ok 1%positive
  ∧ ∃ d', r.2 !! 1%positive = Some d'
          ∧ d' !! "mean"%string = Some (VArray (vector [2; 4]))
          ∧ d' !! "std"%string = Some (VArray (vector [1; 2]))
          ∧ d' !! "z"%string = Some (VArray (vector [1; 1])).
Proof.
  intros s d r.
  destruct (process_zscore_pipeline s 1%positive {[1%positive := d]} d
              (vector [3; 6])) as [_ H]; [reflexivity..|].
  specialize (H (BufferedArray.mk 2 [map F64.of_Z [1; 2]]) eq_refl eq_refl eq_refl).
  cbv zeta in H. unfold r. rewrite H. split; [reflexivity|].
  eexists. split; [apply lookup_insert_eq|].
  split; [|split]; vm_compute; reflexivity.
Defined.

(** ** The collector and the preprocessing loop *)

Lemma is_message_inv (m : message) :
  is_message m = true → m = Message "message" (msg_data m).
Proof.
  destruct m as [t d]. unfold is_message; simpl.
  intros H. apply String.eqb_eq in H. by subst.
Qed.

Lemma rpop_snoc (ts : list (list Byte.byte)) (b : list Byte.byte) :
  Collect.rpop (ts ++ [b]) = (Some b, ts).
Proof. unfold Collect.rpop. by rewrite last_snoc, removelast_last. Qed.

Section CollectProperties.

Variable dicom_to_nifti : string → outcome value.
Variable unpack_d : list Byte.byte → float.

Local Abbreviation collect_message := (Collect.collect_message dicom_to_nifti unpack_d).
Local Abbreviation collect_from := (Collect.collect_from dicom_to_nifti unpack_d).
Local Abbreviation collect := (Collect.collect dicom_to_nifti unpack_d).

(** One event either publishes nothing or one list of three. *)
Lemma collect_message_publishes (k : Z) (m : message) (r : Collect.redis) :
  (Collect.timestamped_volume (collect_message k m r).2 = Collect.timestamped_volume r)
  ∨ (∃ path t nii,
       collect_message k m r
       = (Ok (),
          Collect.mk_redis (removelast (Collect.timestamp r))
            (Collect.timestamped_volume r
             ++ [UValue (VList [VInt k; VFloat t; nii])]))
       ∧ m = Message "message" (DText path)
       ∧ dicom_to_nifti path = Ok nii).
Proof.
  unfold Collect.collect_message.
  destruct (is_message m) eqn:Hm; [|by left].
  apply is_message_inv in Hm.
  destruct (msg_data m) as [n|path|p] eqn:Hd; simpl; try (by left).
  destruct (Collect.struct_unpack_d unpack_d (last (Collect.timestamp r)))
    as [t|e|]; try (by left).
  destruct (dicom_to_nifti path) as [nii|e|] eqn:Hn; try (by left).
  right. by exists path, t, nii.
Qed.

(** What a run publishes, with the positions of the events of the
    payloads: each payload is numbered by the position of its event, counted
    from [k], and the positions increase. *)
Lemma collect_from_payloads (events : list message) :
  ∀ (k : Z) (r : Collect.redis),
    ∃ (new : list unpickled) (pos : list nat),
      Collect.timestamped_volume (collect_from k events r).2
      = Collect.timestamped_volume r ++ new
      ∧ Forall2
          (λ (p : unpickled) (i : nat),
             ∃ path t nii,
               p = UValue (VList [VInt (k + Z.of_nat i); VFloat t; nii])
               ∧ events !! i = Some (Message "message" (DText path))
               ∧ dicom_to_nifti path = Ok nii)
          new pos
      ∧ (∀ j1 j2 i1 i2, (j1 < j2)%nat →
           pos !! j1 = Some i1 → pos !! j2 = Some i2 → (i1 < i2)%nat).
Proof.
  induction events as [|m events IH]; intros k r.
  { exists [], []. split; [by rewrite app_nil_r|]. split; [constructor|].
    intros j1 j2 i1 i2 _ H. done. }
  cbn [Collect.collect_from].
  assert (Hshift : ∀ (new : list unpickled) (pos : list nat),
            Forall2
              (λ (p : unpickled) (i : nat),
                 ∃ path t nii,
                   p = UValue (VList [VInt (k + 1 + Z.of_nat i); VFloat t; nii])
                   ∧ events !! i = Some (Message "message" (DText path))
                   ∧ dicom_to_nifti path = Ok nii)
              new pos →
            Forall2
              (λ (p : unpickled) (i : nat),
                 ∃ path t nii,
                   p = UValue (VList [VInt (k + Z.of_nat i); VFloat t; nii])
                   ∧ (m :: events) !! i = Some (Message "message" (DText path))
                   ∧ dicom_to_nifti path = Ok nii)
              new (S <$> pos)).
  { intros new pos H. induction H as [|p i new pos (path & t & nii & -> & Hi & Hn) _ IH'].
    - constructor.
    - simpl. constructor; [|done]. exists path, t, nii.
      split; [do 4 f_equal; lia|done]. }
  assert (Hmono : ∀ pos : list nat,
            (∀ j1 j2 i1 i2, (j1 < j2)%nat →
               pos !! j1 = Some i1 → pos !! j2 = Some i2 → (i1 < i2)%nat) →
            ∀ j1 j2 i1 i2, (j1 < j2)%nat →
              (S <$> pos) !! j1 = Some i1 → (S <$> pos) !! j2 = Some i2 →
              (i1 < i2)%nat).
  { intros pos H j1 j2 i1 i2 Hj H1 H2.
    apply list_lookup_fmap_Some in H1 as (i1' & -> & H1).
    apply list_lookup_fmap_Some in H2 as (i2' & -> & H2).
    apply -> Nat.succ_lt_mono. by eapply H. }
  destruct (collect_message_publishes k m r) as [Hsame|(path & t & nii & Hrun & Hm & Hn)].
  - destruct (collect_message k m r) as [[[]|e|] r'] eqn:Hr; simpl in Hsame.
    + destruct (IH (k + 1) r') as (new & pos & Hnew & Hall & Hinc).
      exists new, (S <$> pos). split; [by rewrite Hnew, Hsame|].
      split; [by apply Hshift|by apply Hmono].
    + exists [], []. split; [by rewrite app_nil_r|]. split; [constructor|].
      intros j1 j2 i1 i2 _ H. done.
    + exists [], []. split; [by rewrite app_nil_r|]. split; [constructor|].
      intros j1 j2 i1 i2 _ H. done.
  - rewrite Hrun.
    destruct (IH (k + 1) (Collect.mk_redis (removelast (Collect.timestamp r))
                            (Collect.timestamped_volume r
                             ++ [UValue (VList [VInt k; VFloat t; nii])])))
      as (new & pos & Hnew & Hall & Hinc).
    exists (UValue (VList [VInt k; VFloat t; nii]) :: new), (0%nat :: (S <$> pos)).
    split; [by rewrite Hnew; simpl; rewrite <- app_assoc|].
    split.
    + constructor; [|by apply Hshift].
      exists path, t, nii. split; [do 4 f_equal; lia|]. by rewrite Hm.
    + intros [|j1] [|j2] i1 i2 Hj H1 H2; simpl in *; try lia.
      * injection H1 as <-.
        apply list_lookup_fmap_Some in H2 as (i2' & -> & _). lia.
      * eapply (Hmono pos Hinc j1 j2); [lia|done..].
Qed.

(** X13. [collect] numbers a volume by the position of its event among all
    the events of the subscription, the events that are no volumes included:
    whatever the run does and however it ends, nothing that was published
    before is changed, every payload it publishes is a list
    [[image_number, timestamp, nii]] whose number is the position of a
    volume event, and the numbers increase strictly from one payload to the
    next. Since the first event of a subscription is its confirmation, no
    volume has number 0. *)
Theorem collect_numbers_by_event_position (events : list message)
    (r : Collect.redis) :
  ∃ (new : list unpickled) (pos : list nat),
    Collect.timestamped_volume (collect events r).2
    = Collect.timestamped_volume r ++ new
    ∧ Forall2
        (λ (p : unpickled) (i : nat),
           ∃ path t nii,
             p = UValue (VList [VInt (Z.of_nat i); VFloat t; nii])
             ∧ events !! i = Some (Message "message" (DText path))
             ∧ dicom_to_nifti path = Ok nii)
        new pos
    ∧ (∀ j1 j2 i1 i2, (j1 < j2)%nat →
         pos !! j1 = Some i1 → pos !! j2 = Some i2 → (i1 < i2)%nat)
    ∧ (∀ m i, events !! 0%nat = Some m → is_message m = false →
         i ∈ pos → i ≠ 0%nat).
Proof.
  destruct (collect_from_payloads events 0 r) as (new & pos & Hnew & Hall & Hinc).
  exists new, pos. split; [done|]. split; [done|]. split; [done|].
  intros m i H0 Hm Hi ->.
  apply list_elem_of_lookup in Hi as [j Hj].
  destruct (Forall2_lookup_r _ _ _ _ _ Hall Hj) as (p & _ & path & t & nii & _ & He & _).
  rewrite He in H0. by injection H0 as <-.
Qed.

(** The k-th volume gets the k-th timestamp from the right end of the list. *)
Lemma collect_from_timestamps (events : list message) :
  ∀ (k : Z) (r : Collect.redis),
    Forall (λ m, is_message m = true →
                 ∃ path nii, msg_data m = DText path ∧ dicom_to_nifti path = Ok nii)
      events →
    Forall (λ b, length b = 8%nat) (Collect.timestamp r) →
    let n := length (filter (λ m, is_message m) events) in
    let ts := Collect.timestamp r in
    ((n ≤ length ts)%nat →
     ∃ new,
       collect_from k events r
       = (Ok (), Collect.mk_redis (take (length ts - n) ts)
                   (Collect.timestamped_volume r ++ new))
       ∧ length new = n
       ∧ ∀ j p, new !! j = Some p →
           ∃ i nii b, p = UValue (VList [VInt i; VFloat (unpack_d b); nii])
                      ∧ reverse ts !! j = Some b)
    ∧ ((length ts < n)%nat →
       ∃ new,
         collect_from k events r
         = (Raise TypeError,
            Collect.mk_redis [] (Collect.timestamped_volume r ++ new))
         ∧ length new = length ts).
Proof.
  induction events as [|m events IH]; intros k r Hev Hts n ts.
  { subst n. simpl. split.
    - intros _. exists []. rewrite app_nil_r, Nat.sub_0_r, firstn_all.
      split; [by destruct r|]. done.
    - lia. }
  apply Forall_cons in Hev as [Hm Hev]. cbn [Collect.collect_from].
  destruct (is_message m) eqn:Him.
  2:{ assert (Hstep : collect_message k m r = (Ok (), r))
        by (unfold Collect.collect_message; by rewrite Him).
      rewrite Hstep.
      assert (n = length (filter (λ m, is_message m) events)) as ->.
      { subst n. rewrite filter_cons_False; [done|].
        cbv beta. rewrite Him. exact id. }
      apply (IH (k + 1) r Hev Hts). }
  assert (Hn : n = S (length (filter (λ m, is_message m) events))).
  { subst n. rewrite filter_cons_True; [done|].
    cbv beta. rewrite Him. exact I. }
  destruct (Hm eq_refl) as (path & nii & Hd & Hnii).
  destruct (decide (ts = [])) as [Hnil|Hne].
  - assert (Hstep : collect_message k m r
                    = (Raise TypeError, Collect.mk_redis [] (Collect.timestamped_volume r))).
    { unfold Collect.collect_message. rewrite Him, Hd. cbn [Collect.decode].
      fold ts. by rewrite Hnil. }
    rewrite Hstep, Hnil. simpl. split; [lia|].
    intros _. exists []. by rewrite app_nil_r.
  - destruct (exists_last Hne) as (ts' & b & Hts').
    assert (Hb : length b = 8%nat ∧ Forall (λ b, length b = 8%nat) ts').
    { fold ts in Hts. rewrite Hts' in Hts.
      apply Forall_app in Hts as [H1 H2].
      apply Forall_inv in H2. by split. }
    destruct Hb as [Hb Hts1].
    set (p0 := UValue (VList [VInt k; VFloat (unpack_d b); nii])).
    assert (Hstep : collect_message k m r
                    = (Ok (), Collect.mk_redis ts' (Collect.timestamped_volume r ++ [p0]))).
    { unfold Collect.collect_message. rewrite Him, Hd. cbn [Collect.decode].
      fold ts. rewrite Hts', rpop_snoc.
      unfold Collect.struct_unpack_d. rewrite Hb. cbn [Nat.eqb].
      by rewrite Hnii. }
    rewrite Hstep.
    specialize (IH (k + 1) (Collect.mk_redis ts' (Collect.timestamped_volume r ++ [p0]))
                  Hev Hts1).
    cbv zeta in IH. cbn [Collect.timestamp Collect.timestamped_volume] in IH.
    destruct IH as [IH1 IH2]. rewrite Hn, Hts', length_app. simpl. split.
    + intros Hle. destruct IH1 as (new & Hrun & Hlen & Hall); [lia|].
      exists (p0 :: new). split.
      { rewrite Hrun, <- app_assoc. simpl. do 2 f_equal.
        rewrite take_app_le by lia. f_equal. lia. }
      split; [simpl; by rewrite Hlen|].
      rewrite reverse_snoc. intros [|j] p Hj; simpl in Hj.
      * injection Hj as <-. by exists k, nii, b.
      * apply (Hall j p Hj).
    + intros Hlt. destruct IH2 as (new & Hrun & Hlen); [lia|].
      exists (p0 :: new). split.
      { by rewrite Hrun, <- app_assoc. }
      simpl. rewrite Hlen. lia.
Qed.

(** X14. When every volume converts and the entries of [timestamp] have eight
    bytes, [collect] takes the timestamps from the right end of the list, one
    for each volume event, whatever lies between the volume events:
    - with as many timestamps as volume events or more, it publishes one
      payload for each volume event, the j-th with the j-th timestamp from the
      right, and leaves the others in the list;
    - with fewer, it publishes as many payloads as there are timestamps and
      then raises [TypeError], at the volume event that finds the list
      empty. *)
Theorem collect_takes_timestamps_from_the_right (events : list message)
    (r : Collect.redis) :
  Forall (λ m, is_message m = true →
               ∃ path nii, msg_data m = DText path ∧ dicom_to_nifti path = Ok nii)
    events →
  Forall (λ b, length b = 8%nat) (Collect.timestamp r) →
  let n := length (filter (λ m, is_message m) events) in
  let ts := Collect.timestamp r in
  ((n ≤ length ts)%nat →
   ∃ new,
     collect events r
     = (Ok (), Collect.mk_redis (take (length ts - n) ts)
                 (Collect.timestamped_volume r ++ new))
     ∧ length new = n
     ∧ ∀ j p, new !! j = Some p →
         ∃ i nii b, p = UValue (VList [VInt i; VFloat (unpack_d b); nii])
                    ∧ reverse ts !! j = Some b)
  ∧ ((length ts < n)%nat →
     ∃ new,
       collect events r
       = (Raise TypeError,
          Collect.mk_redis [] (Collect.timestamped_volume r ++ new))
       ∧ length new = length ts).
Proof. apply collect_from_timestamps. Qed.

(** X15. What [collect] publishes, the loop of [preprocess] cannot read: the
    payload is a list, and the loop takes [timestamped_volume['image_number']]
    of it. Every payload that a run of [collect] publishes makes the body of
    the loop raise [TypeError] before the pipeline is called; and when the run
    has published anything, the loop over the events of these payloads ends
    with [TypeError], the pipeline and the store as they were. *)
Theorem preprocess_rejects_collected_volumes (events : list message)
    (r : Collect.redis) (pl : Pipeline) (h : store) :
  Collect.timestamped_volume r = [] →
  let ps := Collect.timestamped_volume (collect events r).2 in
  (∀ p, p ∈ ps →
     preprocess_message pl h (Message "message" (DPickle p)) = (Raise TypeError, pl, h))
  ∧ (ps ≠ [] → preprocess_loop pl h (volume_events ps) = (Raise TypeError, pl, h)).
Proof.
  intros Hr ps.
  destruct (collect_from_payloads events 0 r) as (new & pos & Hnew & Hall & _).
  rewrite Hr in Hnew. simpl in Hnew.
  assert (H1 : ∀ p, p ∈ ps →
            preprocess_message pl h (Message "message" (DPickle p))
            = (Raise TypeError, pl, h)).
  { intros p Hp. unfold ps, Collect.collect in Hp. rewrite Hnew in Hp.
    apply list_elem_of_lookup in Hp as [j Hj].
    by destruct (Forall2_lookup_l _ _ _ _ _ Hall Hj)
      as (i & _ & path & t & nii & -> & _). }
  split; [done|]. intros Hne.
  destruct ps as [|p ps'] eqn:Hps; [done|].
  unfold volume_events. cbn [preprocess_loop map].
  change (preprocess_message pl h (Message "subscribe" (DInt 1))) with (Ok (), pl, h).
  cbv iota beta. rewrite H1; [done|]. by left.
Qed.

End CollectProperties.

(** The confirmation of the subscription and two volumes: the volumes are
    numbered 1 and 2. *)
Lemma collect_numbers_by_event_position_witness :
  let dicom (path : string) := Ok (VStr path) in
  let unpack (b : list Byte.byte) := F64.zero in
  let events := [Message "subscribe" (DInt 1); Message "message" (DText "a.dcm");
                 Message "message" (DText "b.dcm")] in
  let r := Collect.mk_redis [replicate 8 Byte.x00; replicate 8 Byte.x00] [] in
  Collect.timestamped_volume (Collect.collect dicom unpack events r).2
  = [UValue (VList [VInt 1; VFloat F64.zero; VStr "a.dcm"]);
     UValue (VList [VInt 2; VFloat F64.zero; VStr "b.dcm"])]
  ∧ ∃ pos : list nat,
      Forall2
        (λ (p : unpickled) (i : nat),
           ∃ path t nii,
             p = UValue (VList [VInt (Z.of_nat i); VFloat t; nii])
             ∧ events !! i = Some (Message "message" (DText path))
             ∧ dicom path = Ok nii)
        (Collect.timestamped_volume (Collect.collect dicom unpack events r).2) pos
      ∧ ∀ i, i ∈ pos → i ≠ 0%nat.
Proof.
  intros dicom unpack events r. split; [reflexivity|].
  destruct (collect_numbers_by_event_position dicom unpack events r)
    as (new & pos & Hnew & Hall & _ & H0).
  exists pos. split; [by rewrite Hnew|].
  intros i Hi. by apply (H0 (Message "subscribe" (DInt 1)) i).
Defined.

(** Two volumes after the confirmation of the subscription, and two
    timestamps, the first byte of each telling them apart. *)
Lemma collect_takes_timestamps_from_the_right_witness :
  let dicom (path : string) := Ok (VStr path) in
  let unpack (b : list Byte.byte) := F64.of_Z (Z.of_N (Byte.to_N (hd Byte.x00 b))) in
  let stamp (c : Byte.byte) := c :: replicate 7 Byte.x00 in
  let events := [Message "subscribe" (DInt 1); Message "message" (DText "a.dcm");
                 Message "message" (DText "b.dcm")] in
  ∃ new,
    Collect.collect dicom unpack events
      (Collect.mk_redis [stamp Byte.x02; stamp Byte.x01] [])
    = (Ok (), Collect.mk_redis [] new)
    ∧ length new = 2%nat
    ∧ ∀ j p, new !! j = Some p →
        ∃ i nii b, p = UValue (VList [VInt i; VFloat (unpack b); nii])
                   ∧ [stamp Byte.x01; stamp Byte.x02] !! j = Some b.
Proof.
  intros dicom unpack stamp events.
  destruct (collect_takes_timestamps_from_the_right dicom unpack events
              (Collect.mk_redis [stamp Byte.x02; stamp Byte.x01] []))
    as [H _].
  - repeat apply Forall_cons_2; try apply Forall_nil_2.
    + intros H. vm_compute in H. discriminate.
    + intros _. by eexists _, _.
    + intros _. by eexists _, _.
  - repeat apply Forall_cons_2; try apply Forall_nil_2; reflexivity.
  - destruct H as (new & Hrun & Hlen & Hall); [vm_compute; lia|].
    exists new. split; [exact Hrun|]. split; [exact Hlen|exact Hall].
Defined.

Lemma preprocess_rejects_collected_volumes_witness :
  let dicom (path : string) := Ok (VStr path) in
  let unpack (b : list Byte.byte) := F64.zero in
  let events := [Message "subscribe" (DInt 1); Message "message" (DText "a.dcm")] in
  let r := Collect.mk_redis [replicate 8 Byte.x00] [] in
  Collect.timestamped_volume (Collect.collect dicom unpack events r).2
  = [UValue (VList [VInt 1; VFloat F64.zero; VStr "a.dcm"])]
  ∧ preprocess_loop example_pipeline ∅
      (volume_events
         (Collect.timestamped_volume (Collect.collect dicom unpack events r).2))
    = (Raise TypeError, example_pipeline, ∅).
Proof.
  intros dicom unpack events r. split; [reflexivity|].
  destruct (preprocess_rejects_collected_volumes dicom unpack events r
              example_pipeline ∅ eq_refl) as [_ H].
  apply H. discriminate.
Defined.

(** ** ArrayMean *)

